(** * The prediction-feedback pipeline of the "Can I Read It?" vision assistant

    A shallow embedding of [App.tsx], [types.ts] and
    [services/geminiService.ts], followed by the properties of the ranking
    step, the cascade, the retrying caller, the insight fetchers, the frame
    normaliser, the feedback log and the feedback handlers.

    Conventions of the embedding.
    - A JavaScript [number] is an exact rational ([Qc]) where the program
      computes with it (probabilities, canvas coordinates) and an integer
      ([Z], [N] or [nat]) where it only counts (milliseconds, pixel sizes of
      DOM elements, retries, array indices).  NaN and the infinities are not
      represented.
    - A JavaScript string is a [string]; each character stands for one code
      unit below 256.
    - [T | null | undefined] is [option T].
    - An [async] function is a function of the [Async] monad below: it runs
      to completion on the world it is started in, so no other event is
      interleaved at an [await].  Where a property depends on what happens
      at an [await], the handler is also given in the parts that run to
      their end: [analyzeImage_start], [analyzeImage_predicted] and
      [analyzeImage_insight] for [analyzeImage], [request_source] and
      [camera_settled] for a click on a source button.
    - A React state variable is a field of [AppState].  An event handler is
      a closure over the state of the render that created it: it takes that
      state as its first argument, reads from it, and writes through the
      setters, which update the [react] field of the world. *)

From Stdlib Require Import ZArith QArith Qcanon String Ascii List.
From stdpp Require Import gmap strings list numbers sorting.

(** ** types.ts *)

Record Prediction := {
  className : string;
  probability : Qc
}.

Inductive FeedbackType := CORRECTION | CONFIRMATION.

Record FeedbackHistory := {
  timestamp : Z;
  originalLabel : string;
  correctedLabel : string;
  type : FeedbackType
}.

Inductive AppStatus := IDLE | LOADING_MODEL | READY | RUNNING | ERROR.

Inductive InputSource := DRIVE | CAMERA.

Global Instance FeedbackType_eq_dec : EqDecision FeedbackType.
Proof. solve_decision. Defined.

Global Instance AppStatus_eq_dec : EqDecision AppStatus.
Proof. solve_decision. Defined.

Global Instance InputSource_eq_dec : EqDecision InputSource.
Proof. solve_decision. Defined.

(** ** JavaScript values used by the program *)

(** Rational literals. *)
Definition num (n : Z) (d : positive) : Qc := Q2Qc (n # d).
Definition int (n : Z) : Qc := Q2Qc (inject_Z n).

(** [Math.min] *)
Definition Math_min (a b : Qc) : Qc := if decide (a ≤ b)%Qc then a else b.

(** The double quote and the line feed, for template literals. *)
Definition dq : string := String "034" EmptyString.
Definition nl : string := String "010" EmptyString.

(** [hay.includes(needle)] *)
Fixpoint includes (hay needle : string) : bool :=
  String.prefix needle hay ||
  match hay with
  | EmptyString => false
  | String _ rest => includes rest needle
  end.

(** White space and line terminators removed by [String.prototype.trim],
    among the code units below 256: TAB, LF, VT, FF, CR, SP and NBSP. *)
Definition is_white_space (c : ascii) : bool :=
  bool_decide (nat_of_ascii c ∈ [9; 10; 11; 12; 13; 32; 160]).

Fixpoint drop_white_space (l : list ascii) : list ascii :=
  match l with
  | [] => []
  | c :: rest => if is_white_space c then drop_white_space rest else l
  end.

(** [s.trim()]: the white space is dropped at the start, then at the end. *)
Definition trim (s : string) : string :=
  string_of_list_ascii
    (reverse (drop_white_space (reverse (drop_white_space (list_ascii_of_string s))))).

(** A text of white space only (the empty text included). *)
Definition white_space_only (s : string) : Prop :=
  Forall (fun c => is_white_space c = true) (list_ascii_of_string s).

(** Truthiness of a string: only the empty string is falsy. *)
Definition truthy (s : string) : bool :=
  match s with EmptyString => false | String _ _ => true end.

(** [x || dflt] for an optional string [x]. *)
Definition or_else (x : option string) (dflt : string) : string :=
  match x with
  | Some s => if truthy s then s else dflt
  | None => dflt
  end.

(** A thrown value, as far as the program inspects it:
    [error?.message] and [error?.status]. *)
Record JsError := {
  message : option string;
  status_code : option Z
}.

(** [new Error(msg)] *)
Definition new_Error (msg : string) : JsError :=
  {| message := Some msg; status_code := None |}.

Inductive Outcome (T : Type) :=
| Return (v : T)
| Throw (e : JsError).
Arguments Return {T} v.
Arguments Throw {T} e.

(** ** The DOM elements the program reads and draws on *)

Record HTMLVideoElement := { videoWidth : N; videoHeight : N }.
Record HTMLImageElement := { naturalWidth : N; naturalHeight : N }.

Inductive CanvasImageSource :=
| VideoSource (v : HTMLVideoElement)
| ImageSource (i : HTMLImageElement).

(** The current transformation matrix of a 2D context:
    [(x, y)] is drawn at [(a x + c y + e, b x + d y + f)]. *)
Record Matrix := { m_a : Qc; m_b : Qc; m_c : Qc; m_d : Qc; m_e : Qc; m_f : Qc }.

Definition identity_matrix : Matrix :=
  {| m_a := int 1; m_b := int 0; m_c := int 0; m_d := int 1;
     m_e := int 0; m_f := int 0 |}.

Definition apply_matrix (m : Matrix) (p : Qc * Qc) : Qc * Qc :=
  ((m_a m * p.1 + m_c m * p.2 + m_e m)%Qc,
   (m_b m * p.1 + m_d m * p.2 + m_f m)%Qc).

(** [ctx.translate(tx, ty)] and [ctx.scale(sx, sy)] multiply the current
    matrix on the right. *)
Definition matrix_translate (tx ty : Qc) (m : Matrix) : Matrix :=
  {| m_a := m_a m; m_b := m_b m; m_c := m_c m; m_d := m_d m;
     m_e := (m_a m * tx + m_c m * ty + m_e m)%Qc;
     m_f := (m_b m * tx + m_d m * ty + m_f m)%Qc |}.

Definition matrix_scale (sx sy : Qc) (m : Matrix) : Matrix :=
  {| m_a := (m_a m * sx)%Qc; m_b := (m_b m * sx)%Qc;
     m_c := (m_c m * sy)%Qc; m_d := (m_d m * sy)%Qc;
     m_e := m_e m; m_f := m_f m |}.

(** What has been drawn on a canvas since it was last reset, each operation
    with the matrix in force when it was issued. *)
Inductive CanvasOp :=
| ClearRect (x y w h : Qc) (ctm : Matrix)
| DrawImage (source : CanvasImageSource)
            (sx sy sWidth sHeight dx dy dWidth dHeight : Qc) (ctm : Matrix).

Record HTMLCanvasElement := {
  width : Z;
  height : Z;
  has_context_2d : bool;      (* whether [getContext('2d')] gives a context *)
  transform : Matrix;
  drawn : list CanvasOp
}.

(** Assigning [canvas.width] or [canvas.height] clears the bitmap and resets
    the context state, the transformation included. *)
Definition set_canvas_width (v : Z) (c : HTMLCanvasElement) : HTMLCanvasElement :=
  {| width := v; height := height c; has_context_2d := has_context_2d c;
     transform := identity_matrix; drawn := [] |}.

Definition set_canvas_height (v : Z) (c : HTMLCanvasElement) : HTMLCanvasElement :=
  {| width := width c; height := v; has_context_2d := has_context_2d c;
     transform := identity_matrix; drawn := [] |}.

Definition ctx_clearRect (x y w h : Qc) (c : HTMLCanvasElement) : HTMLCanvasElement :=
  {| width := width c; height := height c; has_context_2d := has_context_2d c;
     transform := transform c;
     drawn := drawn c ++ [ClearRect x y w h (transform c)] |}.

Definition ctx_translate (tx ty : Qc) (c : HTMLCanvasElement) : HTMLCanvasElement :=
  {| width := width c; height := height c; has_context_2d := has_context_2d c;
     transform := matrix_translate tx ty (transform c); drawn := drawn c |}.

Definition ctx_scale (sx sy : Qc) (c : HTMLCanvasElement) : HTMLCanvasElement :=
  {| width := width c; height := height c; has_context_2d := has_context_2d c;
     transform := matrix_scale sx sy (transform c); drawn := drawn c |}.

Definition ctx_drawImage (source : CanvasImageSource)
    (sx sy sWidth sHeight dx dy dWidth dHeight : Qc)
    (c : HTMLCanvasElement) : HTMLCanvasElement :=
  {| width := width c; height := height c; has_context_2d := has_context_2d c;
     transform := transform c;
     drawn := drawn c ++
       [DrawImage source sx sy sWidth sHeight dx dy dWidth dHeight (transform c)] |}.

(** ** The state of the component (the [useState] variables of [App])

    The model loader and its settings panel ([loadModel], [modelUrl],
    [showSettings]) are outside the pipeline; of the loader the world below
    keeps only whether a model is present ([modelRef]). *)

Record File := { file_name : string; file_dataURL : string }.

Record AppState := {
  status : AppStatus;
  predictions : list Prediction;
  error : option string;
  insight : option string;
  isInsightLoading : bool;
  inputSource : InputSource;
  targetImage : option File;
  imagePreview : option string;
  shouldFlip : bool;
  isCameraActive : bool;
  predictionIndex : nat;
  isManualInput : bool;
  manualValue : string;
  feedbackGiven : bool;
  feedbackResponse : option string;
  feedbackHistory : list FeedbackHistory
}.

Definition with_status (v : AppStatus) (s : AppState) : AppState :=
  {| status := v; predictions := predictions s; error := error s;
     insight := insight s; isInsightLoading := isInsightLoading s;
     inputSource := inputSource s; targetImage := targetImage s;
     imagePreview := imagePreview s; shouldFlip := shouldFlip s;
     isCameraActive := isCameraActive s;
     predictionIndex := predictionIndex s; isManualInput := isManualInput s;
     manualValue := manualValue s; feedbackGiven := feedbackGiven s;
     feedbackResponse := feedbackResponse s;
     feedbackHistory := feedbackHistory s |}.

Definition with_predictions (v : list Prediction) (s : AppState) : AppState :=
  {| status := status s; predictions := v; error := error s;
     insight := insight s; isInsightLoading := isInsightLoading s;
     inputSource := inputSource s; targetImage := targetImage s;
     imagePreview := imagePreview s; shouldFlip := shouldFlip s;
     isCameraActive := isCameraActive s;
     predictionIndex := predictionIndex s; isManualInput := isManualInput s;
     manualValue := manualValue s; feedbackGiven := feedbackGiven s;
     feedbackResponse := feedbackResponse s;
     feedbackHistory := feedbackHistory s |}.

Definition with_error (v : option string) (s : AppState) : AppState :=
  {| status := status s; predictions := predictions s; error := v;
     insight := insight s; isInsightLoading := isInsightLoading s;
     inputSource := inputSource s; targetImage := targetImage s;
     imagePreview := imagePreview s; shouldFlip := shouldFlip s;
     isCameraActive := isCameraActive s;
     predictionIndex := predictionIndex s; isManualInput := isManualInput s;
     manualValue := manualValue s; feedbackGiven := feedbackGiven s;
     feedbackResponse := feedbackResponse s;
     feedbackHistory := feedbackHistory s |}.

Definition with_insight (v : option string) (s : AppState) : AppState :=
  {| status := status s; predictions := predictions s; error := error s;
     insight := v; isInsightLoading := isInsightLoading s;
     inputSource := inputSource s; targetImage := targetImage s;
     imagePreview := imagePreview s; shouldFlip := shouldFlip s;
     isCameraActive := isCameraActive s;
     predictionIndex := predictionIndex s; isManualInput := isManualInput s;
     manualValue := manualValue s; feedbackGiven := feedbackGiven s;
     feedbackResponse := feedbackResponse s;
     feedbackHistory := feedbackHistory s |}.

Definition with_isInsightLoading (v : bool) (s : AppState) : AppState :=
  {| status := status s; predictions := predictions s; error := error s;
     insight := insight s; isInsightLoading := v;
     inputSource := inputSource s; targetImage := targetImage s;
     imagePreview := imagePreview s; shouldFlip := shouldFlip s;
     isCameraActive := isCameraActive s;
     predictionIndex := predictionIndex s; isManualInput := isManualInput s;
     manualValue := manualValue s; feedbackGiven := feedbackGiven s;
     feedbackResponse := feedbackResponse s;
     feedbackHistory := feedbackHistory s |}.

Definition with_inputSource (v : InputSource) (s : AppState) : AppState :=
  {| status := status s; predictions := predictions s; error := error s;
     insight := insight s; isInsightLoading := isInsightLoading s;
     inputSource := v; targetImage := targetImage s;
     imagePreview := imagePreview s; shouldFlip := shouldFlip s;
     isCameraActive := isCameraActive s;
     predictionIndex := predictionIndex s; isManualInput := isManualInput s;
     manualValue := manualValue s; feedbackGiven := feedbackGiven s;
     feedbackResponse := feedbackResponse s;
     feedbackHistory := feedbackHistory s |}.

Definition with_targetImage (v : option File) (s : AppState) : AppState :=
  {| status := status s; predictions := predictions s; error := error s;
     insight := insight s; isInsightLoading := isInsightLoading s;
     inputSource := inputSource s; targetImage := v;
     imagePreview := imagePreview s; shouldFlip := shouldFlip s;
     isCameraActive := isCameraActive s;
     predictionIndex := predictionIndex s; isManualInput := isManualInput s;
     manualValue := manualValue s; feedbackGiven := feedbackGiven s;
     feedbackResponse := feedbackResponse s;
     feedbackHistory := feedbackHistory s |}.

Definition with_imagePreview (v : option string) (s : AppState) : AppState :=
  {| status := status s; predictions := predictions s; error := error s;
     insight := insight s; isInsightLoading := isInsightLoading s;
     inputSource := inputSource s; targetImage := targetImage s;
     imagePreview := v; shouldFlip := shouldFlip s;
     isCameraActive := isCameraActive s;
     predictionIndex := predictionIndex s; isManualInput := isManualInput s;
     manualValue := manualValue s; feedbackGiven := feedbackGiven s;
     feedbackResponse := feedbackResponse s;
     feedbackHistory := feedbackHistory s |}.

Definition with_shouldFlip (v : bool) (s : AppState) : AppState :=
  {| status := status s; predictions := predictions s; error := error s;
     insight := insight s; isInsightLoading := isInsightLoading s;
     inputSource := inputSource s; targetImage := targetImage s;
     imagePreview := imagePreview s; shouldFlip := v;
     isCameraActive := isCameraActive s;
     predictionIndex := predictionIndex s; isManualInput := isManualInput s;
     manualValue := manualValue s; feedbackGiven := feedbackGiven s;
     feedbackResponse := feedbackResponse s;
     feedbackHistory := feedbackHistory s |}.

Definition with_isCameraActive (v : bool) (s : AppState) : AppState :=
  {| status := status s; predictions := predictions s; error := error s;
     insight := insight s; isInsightLoading := isInsightLoading s;
     inputSource := inputSource s; targetImage := targetImage s;
     imagePreview := imagePreview s; shouldFlip := shouldFlip s;
     isCameraActive := v; predictionIndex := predictionIndex s;
     isManualInput := isManualInput s; manualValue := manualValue s;
     feedbackGiven := feedbackGiven s;
     feedbackResponse := feedbackResponse s;
     feedbackHistory := feedbackHistory s |}.

Definition with_predictionIndex (v : nat) (s : AppState) : AppState :=
  {| status := status s; predictions := predictions s; error := error s;
     insight := insight s; isInsightLoading := isInsightLoading s;
     inputSource := inputSource s; targetImage := targetImage s;
     imagePreview := imagePreview s; shouldFlip := shouldFlip s;
     isCameraActive := isCameraActive s; predictionIndex := v;
     isManualInput := isManualInput s; manualValue := manualValue s;
     feedbackGiven := feedbackGiven s;
     feedbackResponse := feedbackResponse s;
     feedbackHistory := feedbackHistory s |}.

Definition with_isManualInput (v : bool) (s : AppState) : AppState :=
  {| status := status s; predictions := predictions s; error := error s;
     insight := insight s; isInsightLoading := isInsightLoading s;
     inputSource := inputSource s; targetImage := targetImage s;
     imagePreview := imagePreview s; shouldFlip := shouldFlip s;
     isCameraActive := isCameraActive s;
     predictionIndex := predictionIndex s; isManualInput := v;
     manualValue := manualValue s; feedbackGiven := feedbackGiven s;
     feedbackResponse := feedbackResponse s;
     feedbackHistory := feedbackHistory s |}.

Definition with_manualValue (v : string) (s : AppState) : AppState :=
  {| status := status s; predictions := predictions s; error := error s;
     insight := insight s; isInsightLoading := isInsightLoading s;
     inputSource := inputSource s; targetImage := targetImage s;
     imagePreview := imagePreview s; shouldFlip := shouldFlip s;
     isCameraActive := isCameraActive s;
     predictionIndex := predictionIndex s; isManualInput := isManualInput s;
     manualValue := v; feedbackGiven := feedbackGiven s;
     feedbackResponse := feedbackResponse s;
     feedbackHistory := feedbackHistory s |}.

Definition with_feedbackGiven (v : bool) (s : AppState) : AppState :=
  {| status := status s; predictions := predictions s; error := error s;
     insight := insight s; isInsightLoading := isInsightLoading s;
     inputSource := inputSource s; targetImage := targetImage s;
     imagePreview := imagePreview s; shouldFlip := shouldFlip s;
     isCameraActive := isCameraActive s;
     predictionIndex := predictionIndex s; isManualInput := isManualInput s;
     manualValue := manualValue s; feedbackGiven := v;
     feedbackResponse := feedbackResponse s;
     feedbackHistory := feedbackHistory s |}.

Definition with_feedbackResponse (v : option string) (s : AppState) : AppState :=
  {| status := status s; predictions := predictions s; error := error s;
     insight := insight s; isInsightLoading := isInsightLoading s;
     inputSource := inputSource s; targetImage := targetImage s;
     imagePreview := imagePreview s; shouldFlip := shouldFlip s;
     isCameraActive := isCameraActive s;
     predictionIndex := predictionIndex s; isManualInput := isManualInput s;
     manualValue := manualValue s; feedbackGiven := feedbackGiven s;
     feedbackResponse := v; feedbackHistory := feedbackHistory s |}.

Definition with_feedbackHistory (v : list FeedbackHistory) (s : AppState) : AppState :=
  {| status := status s; predictions := predictions s; error := error s;
     insight := insight s; isInsightLoading := isInsightLoading s;
     inputSource := inputSource s; targetImage := targetImage s;
     imagePreview := imagePreview s; shouldFlip := shouldFlip s;
     isCameraActive := isCameraActive s;
     predictionIndex := predictionIndex s; isManualInput := isManualInput s;
     manualValue := manualValue s; feedbackGiven := feedbackGiven s;
     feedbackResponse := feedbackResponse s; feedbackHistory := v |}.

(** ** The world outside the component state *)

(** A value of [localStorage].  The JSON text of a feedback history is kept
    as the history it encodes; [Str] is any other text. *)
Inductive StoredValue :=
| Str (s : string)
| JSON_history (h : list FeedbackHistory).

(** The only callback the program leaves pending on a timer. *)
Inductive TimerCallback := location_reload.

Inductive ConsoleEntry :=
| console_warn_retry (delay : Z) (retries : nat)
| console_error (label : string) (e : JsError).

Record MediaStream := { stream_width : N; stream_height : N }.

Record World := {
  react : AppState;
  localStorage : gmap string StoredValue;
  now : Z;                                  (* [Date.now()] *)
  slept : list Z;                           (* delays awaited, oldest first *)
  timers : list (Z * TimerCallback);        (* pending [setTimeout]s *)
  console : list ConsoleEntry;
  processingCanvasRef : option HTMLCanvasElement;
  videoRef : option HTMLVideoElement;
  imageElementRef : option HTMLImageElement;
  modelRef : bool;                          (* a model is loaded *)
  streamRef : option MediaStream;
  generateCalls : nat;                      (* calls made to the generator *)
  predictCalls : nat                        (* calls made to the classifier *)
}.

Definition upd_react (v : AppState) (w : World) : World :=
  {| react := v; localStorage := localStorage w; now := now w;
     slept := slept w; timers := timers w; console := console w;
     processingCanvasRef := processingCanvasRef w; videoRef := videoRef w;
     imageElementRef := imageElementRef w; modelRef := modelRef w;
     streamRef := streamRef w; generateCalls := generateCalls w;
     predictCalls := predictCalls w |}.

Definition upd_localStorage (v : gmap string StoredValue) (w : World) : World :=
  {| react := react w; localStorage := v; now := now w; slept := slept w;
     timers := timers w; console := console w;
     processingCanvasRef := processingCanvasRef w; videoRef := videoRef w;
     imageElementRef := imageElementRef w; modelRef := modelRef w;
     streamRef := streamRef w; generateCalls := generateCalls w;
     predictCalls := predictCalls w |}.

Definition upd_now (v : Z) (w : World) : World :=
  {| react := react w; localStorage := localStorage w; now := v;
     slept := slept w; timers := timers w; console := console w;
     processingCanvasRef := processingCanvasRef w; videoRef := videoRef w;
     imageElementRef := imageElementRef w; modelRef := modelRef w;
     streamRef := streamRef w; generateCalls := generateCalls w;
     predictCalls := predictCalls w |}.

Definition upd_slept (v : list Z) (w : World) : World :=
  {| react := react w; localStorage := localStorage w; now := now w;
     slept := v; timers := timers w; console := console w;
     processingCanvasRef := processingCanvasRef w; videoRef := videoRef w;
     imageElementRef := imageElementRef w; modelRef := modelRef w;
     streamRef := streamRef w; generateCalls := generateCalls w;
     predictCalls := predictCalls w |}.

Definition upd_timers (v : list (Z * TimerCallback)) (w : World) : World :=
  {| react := react w; localStorage := localStorage w; now := now w;
     slept := slept w; timers := v; console := console w;
     processingCanvasRef := processingCanvasRef w; videoRef := videoRef w;
     imageElementRef := imageElementRef w; modelRef := modelRef w;
     streamRef := streamRef w; generateCalls := generateCalls w;
     predictCalls := predictCalls w |}.

Definition upd_console (v : list ConsoleEntry) (w : World) : World :=
  {| react := react w; localStorage := localStorage w; now := now w;
     slept := slept w; timers := timers w; console := v;
     processingCanvasRef := processingCanvasRef w; videoRef := videoRef w;
     imageElementRef := imageElementRef w; modelRef := modelRef w;
     streamRef := streamRef w; generateCalls := generateCalls w;
     predictCalls := predictCalls w |}.

Definition upd_processingCanvasRef (v : option HTMLCanvasElement) (w : World) : World :=
  {| react := react w; localStorage := localStorage w; now := now w;
     slept := slept w; timers := timers w; console := console w;
     processingCanvasRef := v; videoRef := videoRef w;
     imageElementRef := imageElementRef w; modelRef := modelRef w;
     streamRef := streamRef w; generateCalls := generateCalls w;
     predictCalls := predictCalls w |}.

Definition upd_videoRef (v : option HTMLVideoElement) (w : World) : World :=
  {| react := react w; localStorage := localStorage w; now := now w;
     slept := slept w; timers := timers w; console := console w;
     processingCanvasRef := processingCanvasRef w; videoRef := v;
     imageElementRef := imageElementRef w; modelRef := modelRef w;
     streamRef := streamRef w; generateCalls := generateCalls w;
     predictCalls := predictCalls w |}.

Definition upd_imageElementRef (v : option HTMLImageElement) (w : World) : World :=
  {| react := react w; localStorage := localStorage w; now := now w;
     slept := slept w; timers := timers w; console := console w;
     processingCanvasRef := processingCanvasRef w; videoRef := videoRef w;
     imageElementRef := v; modelRef := modelRef w;
     streamRef := streamRef w; generateCalls := generateCalls w;
     predictCalls := predictCalls w |}.

Definition upd_modelRef (v : bool) (w : World) : World :=
  {| react := react w; localStorage := localStorage w; now := now w;
     slept := slept w; timers := timers w; console := console w;
     processingCanvasRef := processingCanvasRef w; videoRef := videoRef w;
     imageElementRef := imageElementRef w; modelRef := v;
     streamRef := streamRef w; generateCalls := generateCalls w;
     predictCalls := predictCalls w |}.

Definition upd_streamRef (v : option MediaStream) (w : World) : World :=
  {| react := react w; localStorage := localStorage w; now := now w;
     slept := slept w; timers := timers w; console := console w;
     processingCanvasRef := processingCanvasRef w; videoRef := videoRef w;
     imageElementRef := imageElementRef w; modelRef := modelRef w;
     streamRef := v; generateCalls := generateCalls w;
     predictCalls := predictCalls w |}.

Definition upd_generateCalls (v : nat) (w : World) : World :=
  {| react := react w; localStorage := localStorage w; now := now w;
     slept := slept w; timers := timers w; console := console w;
     processingCanvasRef := processingCanvasRef w; videoRef := videoRef w;
     imageElementRef := imageElementRef w; modelRef := modelRef w;
     streamRef := streamRef w; generateCalls := v;
     predictCalls := predictCalls w |}.

Definition upd_predictCalls (v : nat) (w : World) : World :=
  {| react := react w; localStorage := localStorage w; now := now w;
     slept := slept w; timers := timers w; console := console w;
     processingCanvasRef := processingCanvasRef w; videoRef := videoRef w;
     imageElementRef := imageElementRef w; modelRef := modelRef w;
     streamRef := streamRef w; generateCalls := generateCalls w;
     predictCalls := v |}.

(** ** Asynchronous computations: state over the world, with exceptions *)

Definition Async (T : Type) : Type := World -> Outcome T * World.

Global Instance Async_ret : MRet Async := fun _ v w => (Return v, w).

Global Instance Async_bind : MBind Async := fun _ _ f m w =>
  match m w with
  | (Return v, w') => f v w'
  | (Throw e, w') => (Throw e, w')
  end.

Definition throw {T} (e : JsError) : Async T := fun w => (Throw e, w).

(** [try { body } catch (e) { handler e }] *)
Definition try_catch {T} (body : Async T) (handler : JsError -> Async T) : Async T :=
  fun w =>
    match body w with
    | (Return v, w') => (Return v, w')
    | (Throw e, w') => handler e w'
    end.

Definition modify (f : World -> World) : Async unit := fun w => (Return tt, f w).
Definition read {T} (f : World -> T) : Async T := fun w => (Return (f w), w).

(** [await new Promise(resolve => setTimeout(resolve, ms))], for a delay
    that the timer waits as asked (see [timer_range]): the clock moves on
    by the delay. *)
Definition sleep (ms : Z) : Async unit :=
  modify (fun w => upd_slept (slept w ++ [ms]) (upd_now (now w + ms)%Z w)).

(** [setTimeout(cb, ms)], not awaited *)
Definition setTimeout (cb : TimerCallback) (ms : Z) : Async unit :=
  modify (fun w => upd_timers (timers w ++ [(ms, cb)]) w).

Definition console_log (entry : ConsoleEntry) : Async unit :=
  modify (fun w => upd_console (console w ++ [entry]) w).

Definition localStorage_setItem (key : string) (v : StoredValue) : Async unit :=
  modify (fun w => upd_localStorage (<[key := v]> (localStorage w)) w).

Definition localStorage_removeItem (key : string) : Async unit :=
  modify (fun w => upd_localStorage (delete key (localStorage w)) w).

(** The state setters returned by [useState]. *)
Definition setStatus (v : AppStatus) : Async unit :=
  modify (fun w => upd_react (with_status v (react w)) w).
Definition setPredictions (v : list Prediction) : Async unit :=
  modify (fun w => upd_react (with_predictions v (react w)) w).
Definition setError (v : option string) : Async unit :=
  modify (fun w => upd_react (with_error v (react w)) w).
Definition setInsight (v : option string) : Async unit :=
  modify (fun w => upd_react (with_insight v (react w)) w).
Definition setIsInsightLoading (v : bool) : Async unit :=
  modify (fun w => upd_react (with_isInsightLoading v (react w)) w).
Definition setInputSource (v : InputSource) : Async unit :=
  modify (fun w => upd_react (with_inputSource v (react w)) w).
Definition setTargetImage (v : option File) : Async unit :=
  modify (fun w => upd_react (with_targetImage v (react w)) w).
Definition setImagePreview (v : option string) : Async unit :=
  modify (fun w => upd_react (with_imagePreview v (react w)) w).
Definition setShouldFlip (v : bool) : Async unit :=
  modify (fun w => upd_react (with_shouldFlip v (react w)) w).
Definition setIsCameraActive (v : bool) : Async unit :=
  modify (fun w => upd_react (with_isCameraActive v (react w)) w).
Definition setPredictionIndex (v : nat) : Async unit :=
  modify (fun w => upd_react (with_predictionIndex v (react w)) w).
Definition setIsManualInput (v : bool) : Async unit :=
  modify (fun w => upd_react (with_isManualInput v (react w)) w).
Definition setManualValue (v : string) : Async unit :=
  modify (fun w => upd_react (with_manualValue v (react w)) w).
Definition setFeedbackGiven (v : bool) : Async unit :=
  modify (fun w => upd_react (with_feedbackGiven v (react w)) w).
Definition setFeedbackResponse (v : option string) : Async unit :=
  modify (fun w => upd_react (with_feedbackResponse v (react w)) w).
Definition setFeedbackHistory (v : list FeedbackHistory) : Async unit :=
  modify (fun w => upd_react (with_feedbackHistory v (react w)) w).

(** ** The external collaborators

    The text generator ([ai.models.generateContent]), the classifier
    ([model.predict]), the camera ([getUserMedia]) and the image decoder of
    the browser are opaque.  The answer of the generator and of the
    classifier may change from one call to the next: it is a function of the
    number of calls made before. *)

Record GenerationConfig := {
  temperature : Qc;
  topK : option Z;
  topP : option Qc
}.

Record GenerateContentParameters := {
  model : string;
  contents : string;
  config : GenerationConfig
}.

Record GenerateContentResponse := { text : option string }.

Class External := {
  generateContent : nat -> GenerateContentParameters -> Outcome GenerateContentResponse;
  model_predict : nat -> HTMLCanvasElement -> Outcome (list Prediction);
  getUserMedia : Outcome MediaStream;
  (* the image element that shows a data URL (0 by 0 if it cannot be shown) *)
  decode_image : string -> HTMLImageElement
}.

(** An operation whose [n]-th call answers [script n]; [calls] and
    [set_calls] are its call counter in the world. *)
Definition scripted {T} (calls : World -> nat) (set_calls : nat -> World -> World)
    (script : nat -> Outcome T) : Async T :=
  fun w => (script (calls w), set_calls (S (calls w)) w).

(** An operation on the call counter of the generator. *)
Definition generator_op {T} (script : nat -> Outcome T) : Async T :=
  scripted generateCalls upd_generateCalls script.

Definition ai_models_generateContent `{External}
    (params : GenerateContentParameters) : Async GenerateContentResponse :=
  generator_op (fun n => generateContent n params).

Definition modelRef_predict `{External}
    (input : HTMLCanvasElement) : Async (list Prediction) :=
  scripted predictCalls upd_predictCalls (fun n => model_predict n input).

(** ** services/geminiService.ts *)

(** [error?.message?.includes('RESOURCE_EXHAUSTED') || error?.status === 429] *)
Definition isRateLimit (error : JsError) : bool :=
  match message error with
  | Some m => includes m "RESOURCE_EXHAUSTED"
  | None => false
  end
  || bool_decide (status_code error = Some 429%Z).

(** [callWithRetry(fn, retries = 3, initialDelay = 2000)].  The test
    [retries > 0] and the decrement [retries - 1] are the match on
    [retries]. *)
Fixpoint callWithRetry {T} (fn : Async T) (retries : nat) (initialDelay : Z)
    : Async T :=
  try_catch fn (fun error =>
    match retries with
    | S retries_minus_1 =>
        if isRateLimit error then
          console_log (console_warn_retry initialDelay retries);;
          sleep initialDelay;;
          callWithRetry fn retries_minus_1 (initialDelay * 2)%Z
        else throw error
    | O => throw error
    end).

Definition default_retries : nat := 3.
Definition default_initialDelay : Z := 2000.

(** The delays that [setTimeout] waits as asked.  A delay below 0 is taken
    as 0, and a delay of 2^31 ms or more does not fit the 32 bits of the
    timer and is over at once. *)
Definition timer_range (ms : Z) : Prop := (0 ≤ ms < 2 ^ 31)%Z.

(** The world once [callWithRetry] has logged its warning and waited. *)
Definition retry_wait (initialDelay : Z) (retries : nat) (w : World) : World :=
  let w := upd_console (console w ++ [console_warn_retry initialDelay retries]) w in
  upd_slept (slept w ++ [initialDelay]) (upd_now (now w + initialDelay)%Z w).

(** The delays of [k] retries in a row: [d], [2 d], [4 d], ... *)
Fixpoint backoff_delays (k : nat) (d : Z) : list Z :=
  match k with
  | O => []
  | S k' => d :: backoff_delays k' (d * 2)%Z
  end.

(** The world after [k] calls of the generator, each followed by the wait
    of [callWithRetry]. *)
Fixpoint after_retries (k retries : nat) (d : Z) (w : World) : World :=
  match k with
  | O => w
  | S k' =>
      after_retries k' (retries - 1) (d * 2)%Z
        (retry_wait d retries (upd_generateCalls (S (generateCalls w)) w))
  end.

Definition insight_prompt (className : string) : string :=
  "Provide a short, 2-sentence interesting insight or fact about these items identified in an image: "
  +:+ dq +:+ className +:+ dq +:+ ". " +:+ nl
  +:+ "      " +:+ nl
  +:+ "      Note: The image is in horizontal, regular orientation. " +:+ nl
  +:+ "      " +:+ nl
  +:+ "      If there is more than one item, try to mention how they relate or give a quick fact about the most interesting one. Keep it friendly and informative.".

Definition insight_request (className : string) : GenerateContentParameters :=
  {| model := "gemini-3-flash-preview";
     contents := insight_prompt className;
     config := {| temperature := num 7 10; topK := Some 40%Z;
                  topP := Some (num 95 100) |} |}.

Definition insight_fallback : string :=
  "The model has high confidence in this identification. What else can you show it?".

Definition getInsightForClass `{External} (className : string)
    : Async (option string) :=
  try_catch
    (response ← callWithRetry (ai_models_generateContent (insight_request className))
                  default_retries default_initialDelay;
     mret (text response))
    (fun error =>
       console_log (console_error "Gemini insight error:" error);;
       mret (Some insight_fallback)).

Definition feedback_prompt (className : string) (feedbackType : string) : string :=
  "The vision model identified the following: " +:+ dq +:+ className +:+ dq
  +:+ " (assuming horizontal orientation). The user marked this identification as "
  +:+ feedbackType +:+ ". " +:+ nl
  +:+ "      If it was correct, give a quick " +:+ dq +:+ "Great!" +:+ dq
  +:+ " style encouragement. " +:+ nl
  +:+ "      If it was incorrect, give a humble acknowledgement that we'll use this to improve future training data. " +:+ nl
  +:+ "      Keep the response under 15 words.".

Definition feedback_request (className : string) (isCorrect : bool)
    : GenerateContentParameters :=
  let feedbackType := if isCorrect then "correct" else "incorrect" in
  {| model := "gemini-3-flash-preview";
     contents := feedback_prompt className feedbackType;
     config := {| temperature := num 8 10; topK := None; topP := None |} |}.

Definition feedback_fallback (isCorrect : bool) : string :=
  if isCorrect then "Glad to hear it! Analysis confirmed."
  else "Understood. Feedback logged for model refinement.".

Definition processFeedback `{External} (className : string) (isCorrect : bool)
    : Async (option string) :=
  try_catch
    (response ← callWithRetry
                  (ai_models_generateContent (feedback_request className isCorrect))
                  default_retries default_initialDelay;
     mret (text response))
    (fun error =>
       console_log (console_error "Feedback process error:" error);;
       mret (Some (feedback_fallback isCorrect))).

(** ** App.tsx *)

Definition N2Qc (n : N) : Qc := int (Z.of_N n).

(** [stopCamera] *)
Definition stopCamera : Async unit :=
  modify (fun w =>
    match streamRef w with
    | Some _ => upd_streamRef None w     (* the tracks are stopped *)
    | None => w
    end);;
  setIsCameraActive false.

(** [startCamera].  [videoRef.current.srcObject = stream] attaches the
    stream.  The element takes the size of the stream only when the browser
    has loaded the metadata, which the code does not wait for: the element
    has the size it had when [startCamera] ends. *)
Definition startCamera `{External} : Async unit :=
  try_catch
    (stream ← (fun w => (getUserMedia, w));
     video ← read videoRef;
     match video with
     | Some _ =>
         modify (upd_streamRef (Some stream));;
         setIsCameraActive true
     | None => mret tt
     end)
    (fun err =>
       console_log (console_error "Camera Error:" err);;
       setError (Some "Camera access denied.");;
       setInputSource DRIVE).

(** The effect that depends on [inputSource]. *)
Definition inputSource_effect `{External} (src : InputSource) : Async unit :=
  match src with
  | CAMERA => startCamera
  | DRIVE => stopCamera
  end.

(** The refs after a render, from the JSX: the video element is mounted in
    camera mode; the image element is mounted in file mode when there is a
    preview, and shows it.  The ref of an element that is not mounted is
    null. *)
Definition commit_refs `{External} : Async unit :=
  modify (fun w =>
    match inputSource (react w) with
    | CAMERA =>
        let video :=
          match videoRef w with
          | Some v => v
          | None => {| videoWidth := 0; videoHeight := 0 |}
          end in
        upd_imageElementRef None (upd_videoRef (Some video) w)
    | DRIVE =>
        upd_imageElementRef (decode_image <$> imagePreview (react w))
          (upd_videoRef None w)
    end).

(** The two buttons "Drive / Files" and "Live Camera":
    [setInputSource(src)]; if [inputSource] changed, the component renders
    and the effect runs, and once more if the effect itself changed
    [inputSource].  The click and the answer of [getUserMedia] are one step
    here; [request_source] and [camera_settled] below are the two apart. *)
Definition click_inputSource `{External} (src : InputSource) (s : AppState)
    : Async unit :=
  setInputSource src;;
  if decide (src = inputSource s) then mret tt
  else
    commit_refs;;
    inputSource_effect src;;
    s' ← read react;
    if decide (inputSource s' = src) then mret tt
    else
      commit_refs;;
      inputSource_effect (inputSource s').

(** [resetFeedback] *)
Definition resetFeedback : Async unit :=
  setPredictionIndex 0;;
  setIsManualInput false;;
  setManualValue EmptyString;;
  setFeedbackGiven false;;
  setFeedbackResponse None;;
  setInsight None;;
  setIsInsightLoading false.

(** The source element chosen by [getProcessedCanvas], with [sw] and [sh]. *)
Definition select_source (s : AppState) (w : World)
    : option CanvasImageSource * Qc * Qc :=
  match inputSource s, videoRef w with
  | CAMERA, Some v =>
      (Some (VideoSource v), N2Qc (videoWidth v), N2Qc (videoHeight v))
  | _, _ =>
      match imageElementRef w with
      | Some i =>
          (Some (ImageSource i), N2Qc (naturalWidth i), N2Qc (naturalHeight i))
      | None => (None, int 0, int 0)
      end
  end.

(** The matrix after [ctx.translate(224, 0); ctx.scale(-1, 1)] on a context
    just reset. *)
Definition mirror_matrix : Matrix :=
  matrix_scale (int (-1)) (int 1) (matrix_translate (int 224) (int 0) identity_matrix).

(** The scratch canvas is mounted and gives a 2D context.  The [<canvas>] of
    the ref is rendered with the component, whatever its state, and is used
    for nothing but 2D drawing. *)
Definition canvas_ready (w : World) : Prop :=
  ∃ c, processingCanvasRef w = Some c ∧ has_context_2d c = true.

(** [getProcessedCanvas].  The canvas of the ref is drawn on in place. *)
Definition getProcessedCanvas (s : AppState) : Async (option HTMLCanvasElement) :=
  fun w =>
    match processingCanvasRef w with
    | None => (Return None, w)
    | Some canvas =>
        if negb (has_context_2d canvas) then (Return None, w)
        else
          let canvas := set_canvas_width 224 canvas in
          let canvas := set_canvas_height 224 canvas in
          let '(source, sw, sh) := select_source s w in
          match source with
          | None => (Return None, upd_processingCanvasRef (Some canvas) w)
          | Some source =>
              if bool_decide (sw = int 0) || bool_decide (sh = int 0)
              then (Return None, upd_processingCanvasRef (Some canvas) w)
              else
                let size := Math_min sw sh in
                let offsetX := ((sw - size) / int 2)%Qc in
                let offsetY := ((sh - size) / int 2)%Qc in
                let canvas := ctx_clearRect (int 0) (int 0) (int 224) (int 224) canvas in
                let canvas :=
                  if shouldFlip s
                  then ctx_scale (int (-1)) (int 1) (ctx_translate (int 224) (int 0) canvas)
                  else canvas in
                let canvas :=
                  ctx_drawImage source offsetX offsetY size size
                                (int 0) (int 0) (int 224) (int 224) canvas in
                (Return (Some canvas), upd_processingCanvasRef (Some canvas) w)
          end
    end.

(** [Array.prototype.sort(compareFn)] on a copy of the array.  The sort is
    stable; with a consistent comparator the result is determined, and it
    is the one of this insertion sort: an element goes after the elements
    [y] with [compareFn x y > 0] that it meets, and before the first other
    one. *)
Fixpoint sort_insert {A} (compareFn : A -> A -> Qc) (x : A) (l : list A) : list A :=
  match l with
  | [] => [x]
  | y :: l' =>
      if decide (int 0 < compareFn x y)%Qc
      then y :: sort_insert compareFn x l'
      else x :: l
  end.

Definition Array_sort {A} (compareFn : A -> A -> Qc) (l : list A) : list A :=
  foldr (sort_insert compareFn) [] l.

(** [(a, b) => b.probability - a.probability] *)
Definition by_probability (a b : Prediction) : Qc :=
  (probability b - probability a)%Qc.

(** [[...results].sort((a, b) => b.probability - a.probability)] *)
Definition rank (results : list Prediction) : list Prediction :=
  Array_sort by_probability results.

(** The order of a ranked list: [a] may stand before [b]. *)
Definition descending (a b : Prediction) : Prop :=
  (probability b ≤ probability a)%Qc.

(** The confidence threshold [0.05]. *)
Definition threshold : Qc := num 5 100.

(** [analyzeImage] *)
Definition analyzeImage `{External} (s : AppState) : Async unit :=
  loaded ← read modelRef;
  if negb loaded then mret tt
  else
    try_catch
      (setStatus RUNNING;;
       resetFeedback;;
       processedInput ← getProcessedCanvas s;
       match processedInput with
       | None => throw (new_Error "Input source unavailable")
       | Some processedInput =>
           results ← modelRef_predict processedInput;
           let sortedResults := rank results in
           setPredictions sortedResults;;
           match sortedResults with
           | top :: _ =>
               if bool_decide (threshold < probability top)%Qc then
                 setIsInsightLoading true;;
                 geminiInsight ← getInsightForClass (className top);
                 setInsight geminiInsight;;
                 setIsInsightLoading false
               else setInsight (Some "Subject unrecognized.")
           | [] => setInsight (Some "Subject unrecognized.")
           end;;
           setStatus READY
       end)
      (fun err =>
         console_log (console_error "Analysis Error:" err);;
         setError (Some "Analysis engine error.");;
         setStatus ERROR).

(** [analyzeImage], await by await.  Other handlers can run while the
    classifier or the generator is awaited, so the handler is also given in
    the three parts that run to their end.  The [catch] is the one of
    [analyzeImage]. *)
Definition analyzeImage_catch (err : JsError) : Async unit :=
  console_log (console_error "Analysis Error:" err);;
  setError (Some "Analysis engine error.");;
  setStatus ERROR.

(** Up to [await modelRef.current.predict(processedInput)]: the frame that
    is handed to the classifier, if the handler goes that far. *)
Definition analyzeImage_start (s : AppState)
    : Async (option HTMLCanvasElement) :=
  loaded ← read modelRef;
  if negb loaded then mret None
  else
    try_catch
      (setStatus RUNNING;;
       resetFeedback;;
       processedInput ← getProcessedCanvas s;
       match processedInput with
       | None => throw (new_Error "Input source unavailable")
       | Some processedInput => mret (Some processedInput)
       end)
      (fun err => analyzeImage_catch err;; mret None).

(** From the answer of the classifier up to [await getInsightForClass(..)]:
    the label whose insight is asked for, if the handler goes that far. *)
Definition analyzeImage_predicted (answer : Outcome (list Prediction))
    : Async (option string) :=
  try_catch
    (results ← (fun w => (answer, w));
     let sortedResults := rank results in
     setPredictions sortedResults;;
     match sortedResults with
     | top :: _ =>
         if bool_decide (threshold < probability top)%Qc then
           setIsInsightLoading true;;
           mret (Some (className top))
         else
           setInsight (Some "Subject unrecognized.");;
           setStatus READY;;
           mret None
     | [] =>
         setInsight (Some "Subject unrecognized.");;
         setStatus READY;;
         mret None
     end)
    (fun err => analyzeImage_catch err;; mret None).

(** From the answer of [getInsightForClass] on. *)
Definition analyzeImage_insight (answer : Outcome (option string))
    : Async unit :=
  try_catch
    (geminiInsight ← (fun w => (answer, w));
     setInsight geminiInsight;;
     setIsInsightLoading false;;
     setStatus READY)
    analyzeImage_catch.

(** The three parts one after the other, nothing in between. *)
Definition analyzeImage_in_parts `{External} (s : AppState) : Async unit :=
  fun w =>
    match analyzeImage_start s w with
    | (Return (Some processedInput), w1) =>
        let answer := model_predict (predictCalls w1) processedInput in
        match analyzeImage_predicted answer
                (upd_predictCalls (S (predictCalls w1)) w1) with
        | (Return (Some label), w2) =>
            let '(answer, w3) := getInsightForClass label w2 in
            analyzeImage_insight answer w3
        | (Return None, w2) => (Return tt, w2)
        | (Throw e, w2) => (Throw e, w2)
        end
    | (Return None, w1) => (Return tt, w1)
    | (Throw e, w1) => (Throw e, w1)
    end.

Definition history_key : string := "tm_feedback_history".

(** [addFeedbackToLog].  [feedbackHistory] is the one of the closure. *)
Definition addFeedbackToLog (s : AppState)
    (original corrected : string) (type_ : FeedbackType) : Async unit :=
  t ← read now;
  let entry := {| timestamp := t; originalLabel := original;
                  correctedLabel := corrected; type := type_ |} in
  let newHistory := take 5 (entry :: feedbackHistory s) in
  setFeedbackHistory newHistory;;
  localStorage_setItem history_key (JSON_history newHistory).

(** The effect that depends on [feedbackHistory]. *)
Definition feedbackHistory_effect (s : AppState) : Async unit :=
  localStorage_setItem history_key (JSON_history (feedbackHistory s)).

(** [predictions[predictionIndex]?.className || "Unknown"] *)
Definition current_label (s : AppState) : string :=
  or_else (className <$> predictions s !! predictionIndex s) "Unknown".

(** [handleCorrectFeedback] *)
Definition handleCorrectFeedback `{External} (s : AppState) : Async unit :=
  let currentLabel := current_label s in
  setFeedbackGiven true;;
  addFeedbackToLog s currentLabel currentLabel CONFIRMATION;;
  response ← processFeedback currentLabel true;
  setFeedbackResponse response;;
  setTimeout location_reload 4000.

(** The guard of [handleWrongFeedback]:
    [predictionIndex === 0 && predictions.length > 1 &&
     predictions[1].probability > 0.05] *)
Definition can_cascade (s : AppState) : bool :=
  bool_decide (predictionIndex s = 0)
  && bool_decide (1 < length (predictions s))
  && match predictions s !! 1 with
     | Some p => bool_decide (threshold < probability p)%Qc
     | None => false
     end.

(** [handleWrongFeedback] *)
Definition handleWrongFeedback `{External} (s : AppState) : Async unit :=
  if can_cascade s then
    let nextIndex := 1 in
    setPredictionIndex nextIndex;;
    setInsight None;;
    setIsInsightLoading true;;
    match predictions s !! nextIndex with
    | Some next =>
        let nextLabel := className next in
        geminiInsight ← getInsightForClass nextLabel;
        setInsight geminiInsight;;
        setIsInsightLoading false
    | None => throw (new_Error "TypeError")
    end
  else setIsManualInput true.

Definition correction_response (manualValue : string) : string :=
  "Recorded " +:+ dq +:+ manualValue +:+ dq
  +:+ " as correction. Refreshing module...".

(** [handleManualSubmit] *)
Definition handleManualSubmit `{External} (s : AppState) : Async unit :=
  if negb (truthy (trim (manualValue s))) then mret tt
  else
    let original := current_label s in
    setFeedbackGiven true;;
    addFeedbackToLog s original (manualValue s) CORRECTION;;
    response ← processFeedback (manualValue s) false;
    setFeedbackResponse (Some (correction_response (manualValue s)));;
    setTimeout location_reload 4000.

(** [reader.onloadend] of [handleTargetImageChange] *)
Definition reader_onloadend (result : option string) : Async unit :=
  setImagePreview result;;
  resetFeedback;;
  setPredictions [].

(** [handleTargetImageChange]; [file] is [e.target.files?.[0]].  The file
    is read at once and the read gives its data URL. *)
Definition handleTargetImageChange (file : option File) : Async unit :=
  match file with
  | Some f =>
      setTargetImage (Some f);;
      reader_onloadend (Some (file_dataURL f))
  | None => mret tt
  end.

(** The "Clear" button of the memory log. *)
Definition click_clear_history : Async unit :=
  setFeedbackHistory [];;
  localStorage_removeItem history_key.

(** What the result area shows, from the conditions of the JSX:
    the manual-entry form, the current candidate with its buttons, the
    current candidate once feedback is given, or the "READY" placeholder. *)
Inductive View := ManualEntry | Reviewing | Finalized | Idle.

Definition view (s : AppState) : View :=
  if isManualInput s && negb (feedbackGiven s) then ManualEntry
  else if bool_decide (0 < length (predictions s)) then
    if negb (feedbackGiven s) then Reviewing else Finalized
  else Idle.

(** The initialisers of the [useState] variables.  [JSON.parse] fails on a
    stored text that is not a history. *)
Definition initial_feedbackHistory (storage : gmap string StoredValue)
    : Outcome (list FeedbackHistory) :=
  match storage !! history_key with
  | None => Return []
  | Some (JSON_history h) => Return h
  | Some (Str saved) =>
      if truthy saved then Throw (new_Error "SyntaxError") else Return []
  end.

Definition initial_state (history : list FeedbackHistory) : AppState :=
  {| status := LOADING_MODEL; predictions := []; error := None;
     insight := None; isInsightLoading := false; inputSource := DRIVE;
     targetImage := None; imagePreview := None; shouldFlip := false;
     isCameraActive := false; predictionIndex := 0; isManualInput := false;
     manualValue := EmptyString; feedbackGiven := false;
     feedbackResponse := None; feedbackHistory := history |}.

(** The canvas of a fresh page: the default size, nothing drawn. *)
Definition fresh_canvas : HTMLCanvasElement :=
  {| width := 300; height := 150; has_context_2d := true;
     transform := identity_matrix; drawn := [] |}.

(** [window.location.reload()]: the page starts again; only
    [localStorage] and the outside world survive.  The model is loaded
    anew after that, by the loader, which is not part of this model. *)
Definition window_location_reload : Async unit :=
  fun w =>
    match initial_feedbackHistory (localStorage w) with
    | Return h =>
        (Return tt,
         {| react := initial_state h; localStorage := localStorage w;
            now := now w; slept := slept w; timers := []; console := [];
            processingCanvasRef := Some fresh_canvas; videoRef := None;
            imageElementRef := None; modelRef := false; streamRef := None;
            generateCalls := generateCalls w; predictCalls := predictCalls w |})
    | Throw e => (Throw e, w)
    end.

Definition run_callback (cb : TimerCallback) : Async unit :=
  match cb with
  | location_reload => window_location_reload
  end.

(** The session: the fields that [resetFeedback] and [setPredictions]
    write. *)
Definition session (s : AppState)
    : list Prediction * nat * bool * string * bool * option string
      * option string * bool :=
  (predictions s, predictionIndex s, isManualInput s, manualValue s,
   feedbackGiven s, feedbackResponse s, insight s, isInsightLoading s).

(** The session as [resetFeedback(); setPredictions([])] leaves it. *)
Definition session_cleared (s : AppState) : Prop :=
  session s = ([], 0, false, EmptyString, false, None, None, false).

(** What a call to the generator leaves untouched. *)
Definition same_page (w w' : World) : Prop :=
  react w' = react w ∧ localStorage w' = localStorage w ∧
  timers w' = timers w ∧ processingCanvasRef w' = processingCanvasRef w.

(** ** Sequences of events *)

(** An event handler is run as the closure of the current render. *)
Definition on_event (handler : AppState -> Async unit) : Async unit :=
  fun w => handler (react w) w.

(** A file is chosen in the file input, and the component renders. *)
Definition choose_file `{External} (file : option File) : Async unit :=
  handleTargetImageChange file;;
  commit_refs.

(** Time passes. *)
Definition tick (dt : Z) : Async unit :=
  modify (fun w => upd_now (now w + dt)%Z w).

(** A feedback to log: the time since the event before, the two labels and
    the kind. *)
Definition Feedback : Type := Z * string * string * FeedbackType.

(** Feedbacks logged one after the other, each by the closure of the render
    that follows the one before. *)
Fixpoint log_all (events : list Feedback) : Async unit :=
  match events with
  | [] => mret tt
  | (dt, original, corrected, type_) :: rest =>
      tick dt;;
      on_event (fun s => addFeedbackToLog s original corrected type_);;
      log_all rest
  end.

(** The entries of these feedbacks, oldest first, for a clock that shows
    [t] before the first. *)
Fixpoint entries_from (t : Z) (events : list Feedback) : list FeedbackHistory :=
  match events with
  | [] => []
  | (dt, original, corrected, type_) :: rest =>
      {| timestamp := (t + dt)%Z; originalLabel := original;
         correctedLabel := corrected; type := type_ |}
      :: entries_from (t + dt)%Z rest
  end.

(** ** Worlds and collaborators for examples *)

(** A page just loaded, with an empty storage, no model and no input. *)
Definition blank_world : World :=
  {| react := initial_state []; localStorage := ∅; now := 0; slept := [];
     timers := []; console := []; processingCanvasRef := Some fresh_canvas;
     videoRef := None; imageElementRef := None; modelRef := false;
     streamRef := None; generateCalls := 0; predictCalls := 0 |}.

Definition quota_error : JsError :=
  {| message := Some "got status: 429 RESOURCE_EXHAUSTED";
     status_code := Some 429%Z |}.

Definition auth_error : JsError :=
  {| message := Some "API key not valid"; status_code := Some 400%Z |}.

(** Rate-limited three times, then an answer. *)
Definition flaky_script (n : nat) : Outcome string :=
  if bool_decide (n < 3) then Throw quota_error else Return "done".

(** The page of [blank_world] after [n] calls to the generator. *)
Definition blank_world_after (n : nat) : World := upd_generateCalls n blank_world.

(** A generator that is rate-limited on every call, a generator that
    refuses every call, and one that always answers, next to a classifier
    that knows three classes and a camera that is granted. *)
Definition reply (s : string) : GenerateContentResponse := {| text := Some s |}.

Definition no_camera : Outcome MediaStream := Throw (new_Error "NotAllowedError").

Definition exhausted_generator : External :=
  {| generateContent := fun _ _ => Throw quota_error;
     model_predict := fun _ _ => Return [];
     getUserMedia := no_camera;
     decode_image := fun _ => {| naturalWidth := 300; naturalHeight := 200 |} |}.

Definition refusing_generator : External :=
  {| generateContent := fun _ _ => Throw auth_error;
     model_predict := fun _ _ => Return [];
     getUserMedia := no_camera;
     decode_image := fun _ => {| naturalWidth := 300; naturalHeight := 200 |} |}.

Definition answering_generator : External :=
  {| generateContent := fun _ _ => Return (reply "Nice.");
     model_predict := fun _ _ =>
       Return [ {| className := "fish"; probability := num 1 100 |};
                {| className := "cat"; probability := num 9 10 |};
                {| className := "dog"; probability := num 6 100 |} ];
     getUserMedia := Return {| stream_width := 640; stream_height := 480 |};
     decode_image := fun _ => {| naturalWidth := 300; naturalHeight := 200 |} |}.

(** The page of [blank_world] showing a photo of 300 by 200 pixels. *)
Definition photo : HTMLImageElement := {| naturalWidth := 300; naturalHeight := 200 |}.

Definition photo_world : World :=
  {| react := initial_state []; localStorage := ∅; now := 0; slept := [];
     timers := []; console := []; processingCanvasRef := Some fresh_canvas;
     videoRef := None; imageElementRef := Some photo; modelRef := true;
     streamRef := None; generateCalls := 0; predictCalls := 0 |}.

(** A page under review: a model is loaded and [predictions] are shown. *)
Definition review_state (predictions : list Prediction) (index : nat) : AppState :=
  with_predictionIndex index
    (with_predictions predictions (with_status READY (initial_state []))).

Definition review_world (predictions : list Prediction) (index : nat) : World :=
  upd_react (review_state predictions index) photo_world.

(** The manual-entry form of such a page, with [text] typed in. *)
Definition manual_world (predictions : list Prediction) (text : string) : World :=
  upd_react
    (with_manualValue text (with_isManualInput true (review_state predictions 0)))
    photo_world.

(** The ranked set of the cascade example. *)
Definition cat_dog_fish : list Prediction :=
  [ {| className := "cat"; probability := num 9 10 |};
    {| className := "dog"; probability := num 6 100 |};
    {| className := "fish"; probability := num 1 100 |} ].

Definition book : list Prediction :=
  [ {| className := "Book"; probability := num 9 10 |} ].

(** A classifier class whose name was left empty. *)
Definition unnamed : list Prediction :=
  [ {| className := EmptyString; probability := num 9 10 |} ].

(** What a call to the generator, retried or not, leaves untouched: all but
    the clock, the log of waits, the console and the call counter. *)
Definition generator_frame (w w' : World) : Prop :=
  react w' = react w ∧ localStorage w' = localStorage w ∧
  timers w' = timers w ∧ processingCanvasRef w' = processingCanvasRef w ∧
  videoRef w' = videoRef w ∧ imageElementRef w' = imageElementRef w ∧
  modelRef w' = modelRef w ∧ streamRef w' = streamRef w ∧
  predictCalls w' = predictCalls w.

(** What [getProcessedCanvas] leaves untouched: all but the scratch canvas. *)
Definition canvas_frame (w w' : World) : Prop :=
  react w' = react w ∧ localStorage w' = localStorage w ∧ now w' = now w ∧
  slept w' = slept w ∧ timers w' = timers w ∧ console w' = console w ∧
  videoRef w' = videoRef w ∧ imageElementRef w' = imageElementRef w ∧
  modelRef w' = modelRef w ∧ streamRef w' = streamRef w ∧
  generateCalls w' = generateCalls w ∧ predictCalls w' = predictCalls w.

(** The component state once [analyzeImage] has set the status and called
    [resetFeedback]. *)
Definition analysis_started (s : AppState) : AppState :=
  with_isInsightLoading false
    (with_insight None
       (with_feedbackResponse None
          (with_feedbackGiven false
             (with_manualValue EmptyString
                (with_isManualInput false
                   (with_predictionIndex 0 (with_status RUNNING s))))))).

(** The world once the [catch] of [analyzeImage] has handled [err]. *)
Definition analysis_failed (err : JsError) (w : World) : World :=
  let w := upd_console (console w ++ [console_error "Analysis Error:" err]) w in
  let w := upd_react (with_error (Some "Analysis engine error.") (react w)) w in
  upd_react (with_status ERROR (react w)) w.

(** The cursor and the feedback fields as [resetFeedback] leaves them, the
    insight apart. *)
Definition feedback_reset (s : AppState) : Prop :=
  predictionIndex s = 0 ∧ isManualInput s = false ∧
  manualValue s = EmptyString ∧ feedbackGiven s = false ∧
  feedbackResponse s = None ∧ isInsightLoading s = false.

(** The two ways an analysis ends: READY with the ranked answer of the
    classifier, or ERROR with the predictions shown before. *)
Definition analysis_ready `{External} (w w' : World) : Prop :=
  status (react w') = READY ∧ error (react w') = error (react w) ∧
  ∃ canvas results,
    model_predict (predictCalls w) canvas = Return results ∧
    predictions (react w') = rank results.

Definition analysis_error (w w' : World) : Prop :=
  status (react w') = ERROR ∧
  error (react w') = Some "Analysis engine error." ∧
  predictions (react w') = predictions (react w).

(** ** The other controls of the page *)

(** The "Cancel" button of the manual-entry form. *)
Definition click_cancel : Async unit := setIsManualInput false.

(** The "Add to Memory Module" button under a candidate. *)
Definition click_add_to_memory : Async unit := setIsManualInput true.

(** The text input of the manual-entry form. *)
Definition change_manualValue (value : string) : Async unit :=
  setManualValue value.

(** The "Mirror" button. *)
Definition click_mirror (s : AppState) : Async unit :=
  setShouldFlip (negb (shouldFlip s)).

(** ** The page as a whole: what the user can do *)

(** The "Analyze Current Frame" button is disabled without an input and
    during an analysis. *)
Definition analyze_disabled (s : AppState) : bool :=
  (bool_decide (inputSource s = DRIVE)
   && match targetImage s with None => true | Some _ => false end)
  || (bool_decide (inputSource s = CAMERA) && negb (isCameraActive s))
  || bool_decide (status s = RUNNING).

Global Instance View_eq_dec : EqDecision View.
Proof. solve_decision. Defined.

Inductive UserEvent :=
| AnalyzeClicked
| ConfirmClicked
| RejectClicked
| AddToMemoryClicked
| ManualTyped (text : string)
| ManualSubmitted
| CancelClicked
| FileChosen (file : option File)
| SourceClicked (src : InputSource)
| MirrorClicked
| ClearClicked
| TimerFired.

(** An event reaches its handler when its control is on the page: the
    three buttons under a candidate in the Reviewing view, the form in the
    ManualEntry view, the file input in file mode, the "Clear" button next
    to a non-empty log.  [TimerFired] runs the oldest pending timer. *)
Definition dispatch `{External} (ev : UserEvent) : Async unit :=
  fun w =>
    let s := react w in
    match ev with
    | AnalyzeClicked =>
        if analyze_disabled s then (Return tt, w) else analyzeImage s w
    | ConfirmClicked =>
        if decide (view s = Reviewing) then handleCorrectFeedback s w
        else (Return tt, w)
    | RejectClicked =>
        if decide (view s = Reviewing) then handleWrongFeedback s w
        else (Return tt, w)
    | AddToMemoryClicked =>
        if decide (view s = Reviewing) then click_add_to_memory w
        else (Return tt, w)
    | ManualTyped text =>
        if decide (view s = ManualEntry) then change_manualValue text w
        else (Return tt, w)
    | ManualSubmitted =>
        if decide (view s = ManualEntry) then handleManualSubmit s w
        else (Return tt, w)
    | CancelClicked =>
        if decide (view s = ManualEntry) then click_cancel w
        else (Return tt, w)
    | FileChosen file =>
        if decide (inputSource s = DRIVE) then choose_file file w
        else (Return tt, w)
    | SourceClicked src => click_inputSource src s w
    | MirrorClicked => click_mirror s w
    | ClearClicked =>
        match feedbackHistory s with
        | [] => (Return tt, w)
        | _ :: _ =>
            (click_clear_history;; on_event feedbackHistory_effect) w
        end
    | TimerFired =>
        match timers w with
        | [] => (Return tt, w)
        | (_, cb) :: rest => run_callback cb (upd_timers rest w)
        end
    end.

(** The world after a sequence of events. *)
Definition run_events `{External} (events : list UserEvent) (w : World) : World :=
  foldl (fun w ev => (dispatch ev w).2) w events.

(** The cursor points at a prediction whenever there is one. *)
Definition cursor_ok (s : AppState) : Prop :=
  predictionIndex s = 0 ∨ predictionIndex s < length (predictions s).

(** The log has at most five entries, in memory and in [localStorage]. *)
Definition history_ok (w : World) : Prop :=
  length (feedbackHistory (react w)) ≤ 5 ∧
  ∀ h, localStorage w !! history_key = Some (JSON_history h) → length h ≤ 5.

(** ** The camera, request by request *)

(** [startCamera] from its [await] on, for an answer of [getUserMedia]. *)
Definition startCamera_settled (answer : Outcome MediaStream) : Async unit :=
  try_catch
    (stream ← (fun w => (answer, w));
     video ← read videoRef;
     match video with
     | Some _ =>
         modify (upd_streamRef (Some stream));;
         setIsCameraActive true
     | None => mret tt
     end)
    (fun err =>
       console_log (console_error "Camera Error:" err);;
       setError (Some "Camera access denied.");;
       setInputSource DRIVE).

(** A click on a source button, up to the [await] of [startCamera]:
    [setInputSource(src)]; if [inputSource] changed, the component renders
    and its effect either asks for the camera, which leaves a request
    pending, or stops the camera. *)
Definition request_source `{External} (src : InputSource) (s : AppState)
    : Async unit :=
  setInputSource src;;
  if decide (src = inputSource s) then mret tt
  else
    commit_refs;;
    match src with
    | CAMERA => mret tt
    | DRIVE => stopCamera
    end.

(** A request for the camera is answered: [startCamera] goes on from its
    [await].  If its [catch] has changed [inputSource], the component
    renders and the effect runs again. *)
Definition camera_settled `{External} (answer : Outcome MediaStream)
    (s : AppState) : Async unit :=
  startCamera_settled answer;;
  s' ← read react;
  if decide (inputSource s' = inputSource s) then mret tt
  else
    commit_refs;;
    match inputSource s' with
    | CAMERA => mret tt
    | DRIVE => stopCamera
    end.

(** The browser has loaded the metadata of the stream attached to the video
    element: the element has the size of the stream. *)
Definition video_metadata_loaded : Async unit :=
  modify (fun w =>
    match streamRef w, videoRef w with
    | Some stream, Some _ =>
        upd_videoRef (Some {| videoWidth := stream_width stream;
                              videoHeight := stream_height stream |}) w
    | _, _ => w
    end).

(** What happens on a page with a camera: a source button is clicked, a
    request for the camera is answered (by any answer, at any time: the
    requests that are pending are not counted), the metadata of the stream
    has loaded, or any event of the page happens and runs to its end. *)
Inductive CameraEvent :=
| SourceRequested (src : InputSource)
| CameraSettled (answer : Outcome MediaStream)
| MetadataLoaded
| PageEvent (ev : UserEvent).

Definition camera_step `{External} (ev : CameraEvent) (w : World) : World :=
  match ev with
  | SourceRequested src => (on_event (request_source src) w).2
  | CameraSettled answer => (on_event (camera_settled answer) w).2
  | MetadataLoaded => (video_metadata_loaded w).2
  | PageEvent ev => (dispatch ev w).2
  end.

Definition camera_run `{External} (events : list CameraEvent) (w : World)
    : World :=
  foldl (fun w ev => camera_step ev w) w events.



(** ** The model loader *)

(** [window.tmImage.load(modelURL, metadataURL)], opaque: whether the host
    serves a model under these two addresses. *)
Class ModelHost := {
  tmImage_load : string -> string -> Outcome unit
}.

Definition model_url_key : string := "tm_model_url".

(** [s.endsWith(suffix)] *)
Definition endsWith (s suffix : string) : bool :=
  bool_decide (list_ascii_of_string suffix `suffix_of` list_ascii_of_string s).

(** [url.endsWith('/') ? url : `${url}/`] *)
Definition formatted_url (url : string) : string :=
  if endsWith url "/" then url else url +:+ "/".

Definition load_error : string :=
  "Failed to load model. Check your Teachable Machine link.".

(** [loadModel] *)
Definition loadModel `{ModelHost} (url : string) : Async unit :=
  try_catch
    (setStatus LOADING_MODEL;;
     setError None;;
     let formattedUrl := formatted_url url in
     let modelURL := formattedUrl +:+ "model.json" in
     let metadataURL := formattedUrl +:+ "metadata.json" in
     (fun w => (tmImage_load modelURL metadataURL, w));;
     modify (upd_modelRef true);;
     localStorage_setItem model_url_key (Str formattedUrl);;
     setStatus READY)
    (fun err =>
       console_log (console_error "Model Loading Error:" err);;
       setError (Some load_error);;
       setStatus ERROR).

(** ** More worlds and collaborators for examples *)

(** A page with a model and no image mounted. *)
Definition model_world_without_image : World :=
  upd_modelRef true blank_world.

(** A file to choose, and a visit of the page: a photo is chosen and
    analysed, both candidates are rejected, the form is cancelled. *)
Definition photo_file : File :=
  {| file_name := "photo.png"; file_dataURL := "data:image/png" |}.

Definition visit : list UserEvent :=
  [FileChosen (Some photo_file); AnalyzeClicked; RejectClicked; RejectClicked;
   CancelClicked].

(** A generator that answers without a text. *)
Definition silent_generator : External :=
  {| generateContent := fun _ _ => Return {| text := None |};
     model_predict := fun _ _ =>
       Return [ {| className := "fog"; probability := num 3 100 |};
                {| className := "mist"; probability := num 5 100 |} ];
     getUserMedia := no_camera;
     decode_image := fun _ => {| naturalWidth := 300; naturalHeight := 200 |} |}.

(** A generator that is rate-limited twice and then refuses. *)
Definition limited_then_refusing (n : nat) : Outcome string :=
  if bool_decide (n < 2) then Throw quota_error else Throw auth_error.

(** A generator that is rate-limited twice and then answers. *)
Definition limited_then_answering : External :=
  {| generateContent := fun n _ =>
       if bool_decide (n < 2) then Throw quota_error else Return (reply "Nice.");
     model_predict := fun _ _ => Return [];
     getUserMedia := no_camera;
     decode_image := fun _ => {| naturalWidth := 300; naturalHeight := 200 |} |}.

(** A host that serves one model. *)
Definition one_model_host : ModelHost :=
  {| tmImage_load := fun modelURL metadataURL =>
       if bool_decide (modelURL = "https://host/m/model.json")
       then Return tt else Throw (new_Error "404") |}.

(** * Properties *)

(** Proof automation: the monad unfolded; a closed equation of rationals. *)
Ltac unfold_async :=
  unfold try_catch, console_log, modify, read, throw,
    mbind, Async_bind, mret, Async_ret in *.


(** Proof automation: a world given field by field, on which the handlers
    of the camera compute. *)
Ltac camera_cases w :=
  destruct w as [[st pr er ins il src0 ti ip sf ica pi imi mv fg fr fh]
                   ls nw sl tm cn pc vr ie mr sr gc pcl];
  destruct src0, vr, sr.


(** ** JavaScript helpers *)

Lemma drop_white_space_nil (l : list ascii) :
  drop_white_space l = [] ↔ Forall (fun c => is_white_space c = true) l.
Proof.
  induction l as [|c l IH]; simpl.
  - split; [constructor | done].
  - destruct (is_white_space c) eqn:Hc.
    + rewrite IH. split; [by constructor | by inversion 1].
    + split; [done | inversion 1; congruence].
Qed.

Lemma drop_white_space_idemp (l : list ascii) :
  drop_white_space (drop_white_space l) = drop_white_space l.
Proof.
  induction l as [|c l IH]; simpl; [done|].
  destruct (is_white_space c) eqn:Hc; [done|]. simpl. by rewrite Hc.
Qed.

Lemma string_of_list_ascii_nil (l : list ascii) :
  string_of_list_ascii l = EmptyString ↔ l = [].
Proof. destruct l; simpl; split; congruence. Qed.

(** [trim] gives the empty text exactly on the texts of white space only. *)
Lemma trim_empty_iff (s : string) :
  trim s = EmptyString ↔ white_space_only s.
Proof.
  unfold trim, white_space_only.
  rewrite string_of_list_ascii_nil.
  rewrite <- (reverse_involutive []) at 1. rewrite reverse_nil.
  split.
  - intros Hr. apply (inj reverse) in Hr.
    apply drop_white_space_nil in Hr. rewrite Forall_reverse in Hr.
    rewrite <- drop_white_space_nil, drop_white_space_idemp in Hr.
    by apply drop_white_space_nil.
  - intros Hw. apply drop_white_space_nil in Hw. rewrite Hw. done.
Qed.

Lemma truthy_false_iff (s : string) : truthy s = false ↔ s = EmptyString.
Proof. destruct s; simpl; split; congruence. Qed.

Lemma or_else_truthy (s dflt : string) :
  truthy s = true → or_else (Some s) dflt = s.
Proof. simpl. by intros ->. Qed.

(** ** The ranking step *)

Lemma by_probability_pos (a b : Prediction) :
  (int 0 < by_probability a b)%Qc ↔ (probability a < probability b)%Qc.
Proof.
  unfold by_probability. symmetry. apply Qclt_minus_iff.
Qed.

Lemma sort_insert_Permutation (x : Prediction) (l : list Prediction) :
  sort_insert by_probability x l ≡ₚ x :: l.
Proof.
  induction l as [|y l IH]; simpl; [done|].
  case_decide; [|done].
  rewrite IH. apply Permutation_swap.
Qed.

Lemma sort_insert_sorted (x : Prediction) (l : list Prediction) :
  StronglySorted descending l →
  StronglySorted descending (sort_insert by_probability x l).
Proof.
  induction 1 as [|y l Hl IH Hy]; simpl.
  - repeat constructor.
  - case_decide as Hxy.
    + apply by_probability_pos in Hxy.
      constructor; [done|].
      rewrite sort_insert_Permutation. constructor; [|done].
      by apply Qclt_le_weak.
    + rewrite by_probability_pos in Hxy. apply Qcnot_lt_le in Hxy.
      constructor; [by constructor|].
      constructor; [done|].
      eapply Forall_impl; [exact Hy|]. intros z Hz.
      unfold descending in *. by etrans.
Qed.

Lemma sort_insert_filter (p : Qc) (x : Prediction) (l : list Prediction) :
  filter (λ y, probability y = p) (sort_insert by_probability x l)
  = filter (λ y, probability y = p) (x :: l).
Proof.
  induction l as [|y l IH]; simpl; [done|].
  case_decide as Hxy; [|done].
  apply by_probability_pos in Hxy.
  rewrite (filter_cons _ y), IH, !filter_cons.
  destruct (decide (probability x = p)) as [Hx|Hx];
    destruct (decide (probability y = p)) as [Hy|Hy]; try done.
  subst p. rewrite Hy in Hxy. by apply (Qcle_not_lt _ _ (Qcle_refl _)) in Hxy.
Qed.

Lemma rank_cons (x : Prediction) (l : list Prediction) :
  rank (x :: l) = sort_insert by_probability x (rank l).
Proof. done. Qed.

Lemma rank_Permutation (l : list Prediction) : rank l ≡ₚ l.
Proof.
  induction l as [|x l IH]; [done|].
  by rewrite rank_cons, sort_insert_Permutation, IH.
Qed.

Lemma rank_sorted (l : list Prediction) : StronglySorted descending (rank l).
Proof.
  induction l as [|x l IH]; [constructor|].
  rewrite rank_cons. by apply sort_insert_sorted.
Qed.

Lemma rank_stable (p : Qc) (l : list Prediction) :
  filter (λ y, probability y = p) (rank l) = filter (λ y, probability y = p) l.
Proof.
  induction l as [|x l IH]; [done|].
  by rewrite rank_cons, sort_insert_filter, !filter_cons, IH.
Qed.

(** A descending list is determined by its sublists of equal probability:
    there is one stable descending arrangement of a list, so every stable
    sort gives the result of [rank]. *)
Lemma stable_sorted_unique (l1 l2 : list Prediction) :
  StronglySorted descending l1 →
  StronglySorted descending l2 →
  (∀ p, filter (λ y, probability y = p) l1
        = filter (λ y, probability y = p) l2) →
  l1 = l2.
Proof.
  intros H1. revert l2.
  induction H1 as [|x l1 Hl1 IH Hx]; intros l2 H2 Heq.
  - destruct l2 as [|y l2]; [done|].
    specialize (Heq (probability y)). rewrite filter_cons in Heq.
    by rewrite decide_True in Heq.
  - destruct H2 as [|y l2 Hl2 Hy].
    { specialize (Heq (probability x)). rewrite filter_cons in Heq.
      by rewrite decide_True in Heq. }
    assert (x ∈ y :: l2) as Hxin.
    { eapply (list_elem_of_filter (λ z, probability z = probability x)).
      rewrite <- Heq, filter_cons, decide_True by done. left. }
    assert (y ∈ x :: l1) as Hyin.
    { eapply (list_elem_of_filter (λ z, probability z = probability y)).
      rewrite Heq, filter_cons, decide_True by done. left. }
    assert (probability x = probability y) as Hp.
    { apply Qcle_antisym.
      - apply elem_of_cons in Hxin as [->|Hxin]; [done|].
        rewrite Forall_forall in Hy. by apply Hy.
      - apply elem_of_cons in Hyin as [->|Hyin]; [done|].
        rewrite Forall_forall in Hx. by apply Hx. }
    assert (x = y) as ->.
    { specialize (Heq (probability x)). rewrite !filter_cons in Heq.
      rewrite decide_True in Heq by done.
      rewrite decide_True in Heq by done. congruence. }
    f_equal. apply IH; [done|]. intros p.
    specialize (Heq p). rewrite !filter_cons in Heq.
    destruct (decide (probability y = p)); congruence.
Qed.

(** C1. For every list of raw predictions, [rank] gives a list in descending
    order of probability, of the same length and with the same elements, in
    which predictions of equal probability keep the order they were emitted
    in. *)
Theorem rank_descending_complete_stable (results : list Prediction) :
  StronglySorted (λ a b, probability b ≤ probability a)%Qc (rank results) ∧
  length (rank results) = length results ∧
  rank results ≡ₚ results ∧
  ∀ p, filter (λ x, probability x = p) (rank results)
       = filter (λ x, probability x = p) results.
Proof.
  split; [apply rank_sorted|].
  split; [apply Permutation_length, rank_Permutation|].
  split; [apply rank_Permutation|].
  intros p. apply rank_stable.
Qed.

(** ** Rate-limit signals *)

Lemma append_cons (c : ascii) (s1 s2 : string) :
  String c s1 +:+ s2 = String c (s1 +:+ s2).
Proof. reflexivity. Qed.

Lemma prefix_append (s1 s2 : string) :
  String.prefix s1 s2 = true ↔ ∃ post, s2 = s1 +:+ post.
Proof.
  revert s2. induction s1 as [|a s1 IH]; intros s2.
  - split; [intros _; by exists s2 | by destruct s2].
  - destruct s2 as [|b s2]; simpl.
    + split; [done | by intros [post ?]].
    + destruct (ascii_dec a b) as [->|Hab].
      * rewrite IH. split; intros [post Hp]; exists post.
        -- by rewrite append_cons, Hp.
        -- rewrite append_cons in Hp. congruence.
      * split; [done | intros [post Hp]; rewrite append_cons in Hp; congruence].
Qed.

(** [includes] finds exactly the texts that contain the needle. *)
Lemma includes_spec (hay needle : string) :
  includes hay needle = true ↔ ∃ pre post, hay = pre +:+ needle +:+ post.
Proof.
  induction hay as [|c hay IH].
  - cbn [includes]. rewrite orb_false_r, prefix_append. split.
    + intros [post Hp]. by exists EmptyString, post.
    + intros [[|a pre] [post Hp]]; [by exists post | done].
  - cbn [includes]. rewrite orb_true_iff, prefix_append, IH. split.
    + intros [[post Hp]|(pre & post & Hp)].
      * by exists EmptyString, post.
      * exists (String c pre), post. by rewrite append_cons, Hp.
    + intros ([|a pre] & post & Hp).
      * left. by exists post.
      * right. exists pre, post. rewrite append_cons in Hp. congruence.
Qed.

(** The error signals a rate limit when its message contains the marker or
    its status is 429. *)
Lemma isRateLimit_spec (e : JsError) :
  isRateLimit e = true ↔
  (∃ m pre post, message e = Some m ∧ m = pre +:+ "RESOURCE_EXHAUSTED" +:+ post)
  ∨ status_code e = Some 429%Z.
Proof.
  unfold isRateLimit. rewrite orb_true_iff, bool_decide_eq_true.
  destruct (message e) as [m|].
  - rewrite includes_spec. split.
    + intros [(pre & post & ->)|?]; [left; eauto | by right].
    + intros [(m' & pre & post & [= <-] & ->)|?]; [left; eauto | by right].
  - split.
    + intros [?|?]; [done | by right].
    + intros [(m' & pre & post & ? & _)|?]; [done | by right].
Qed.

(** ** The retrying caller *)

Section Retry.
Context {T : Type}.
Implicit Types (fn : Async T) (w : World) (e : JsError) (v : T).

Lemma callWithRetry_unfold fn retries initialDelay w :
  callWithRetry fn retries initialDelay w =
  match fn w with
  | (Return v, w1) => (Return v, w1)
  | (Throw e, w1) =>
      match retries with
      | S r =>
          if isRateLimit e
          then callWithRetry fn r (initialDelay * 2) (retry_wait initialDelay retries w1)
          else (Throw e, w1)
      | O => (Throw e, w1)
      end
  end.
Proof.
  destruct retries; simpl; unfold try_catch;
    destruct (fn w) as [[v|e] w1]; try done.
  destruct (isRateLimit e); done.
Qed.

Lemma callWithRetry_success fn retries initialDelay w v w1 :
  fn w = (Return v, w1) →
  callWithRetry fn retries initialDelay w = (Return v, w1).
Proof. intros Hfn. by rewrite callWithRetry_unfold, Hfn. Qed.

(** A failure is retried exactly when attempts remain and the error
    signals a rate limit; the retry comes after a wait of the current
    delay, with one attempt less and twice the delay. *)
Lemma callWithRetry_failure fn retries initialDelay w e w1 :
  fn w = (Throw e, w1) →
  callWithRetry fn retries initialDelay w =
  if bool_decide (0 < retries) && isRateLimit e
  then callWithRetry fn (retries - 1) (initialDelay * 2)
         (retry_wait initialDelay retries w1)
  else (Throw e, w1).
Proof.
  intros Hfn. rewrite callWithRetry_unfold, Hfn.
  destruct retries as [|r]; [done|].
  rewrite bool_decide_eq_true_2 by lia. simpl.
  by replace (r - 0) with r by lia.
Qed.

End Retry.

Section RetryScenarios.
Context {T : Type}.
Implicit Types (script : nat → Outcome T) (w : World).

Lemma generator_op_eq script w :
  generator_op script w
  = (script (generateCalls w), upd_generateCalls (S (generateCalls w)) w).
Proof. done. Qed.

Lemma after_retries_generateCalls k retries d w :
  generateCalls (after_retries k retries d w) = generateCalls w + k.
Proof.
  revert retries d w. induction k as [|k IH]; intros retries d w; simpl.
  - lia.
  - rewrite IH. simpl. lia.
Qed.

Lemma after_retries_slept k retries d w :
  slept (after_retries k retries d w) = slept w ++ backoff_delays k d.
Proof.
  revert retries d w. induction k as [|k IH]; intros retries d w; simpl.
  - by rewrite app_nil_r.
  - rewrite IH. simpl. by rewrite <- app_assoc.
Qed.

Lemma after_retries_now k retries d w :
  now (after_retries k retries d w)
  = (now w + foldr Z.add 0 (backoff_delays k d))%Z.
Proof.
  revert retries d w. induction k as [|k IH]; intros retries d w; simpl.
  - lia.
  - rewrite IH. simpl. lia.
Qed.

(** [k] rate-limited answers in a row, with [k] attempts left at least,
    are [k] waits, each twice the one before, and then the call goes on
    with the attempts and the delay that remain. *)
Lemma callWithRetry_rate_limited script k retries d w :
  k ≤ retries →
  (∀ i, i < k →
     ∃ e, script (generateCalls w + i) = Throw e ∧ isRateLimit e = true) →
  callWithRetry (generator_op script) retries d w
  = callWithRetry (generator_op script) (retries - k) (d * 2 ^ Z.of_nat k)
      (after_retries k retries d w).
Proof.
  revert retries d w. induction k as [|k IH]; intros retries d w Hk Hfail.
  - simpl. by rewrite Nat.sub_0_r, Z.mul_1_r.
  - destruct retries as [|r]; [lia|].
    destruct (Hfail 0) as (e & He & Hrl); [lia|].
    rewrite Nat.add_0_r in He.
    rewrite callWithRetry_unfold, generator_op_eq, He, Hrl.
    rewrite IH; [|lia|].
    + cbn [after_retries]. replace (S r - 1) with r by lia.
      replace (S r - S k) with (r - k) by lia.
      by rewrite Nat2Z.inj_succ, Z.pow_succ_r, Z.mul_assoc by lia.
    + intros i Hi. destruct (Hfail (S i)) as (e' & He' & Hrl'); [lia|].
      exists e'. split; [|done]. rewrite <- He'. f_equal. simpl. lia.
Qed.

(** Rate-limited [k] times, then a value: the value is returned. *)
Lemma callWithRetry_recovers script k retries d w v :
  k ≤ retries →
  (∀ i, i < k →
     ∃ e, script (generateCalls w + i) = Throw e ∧ isRateLimit e = true) →
  script (generateCalls w + k) = Return v →
  callWithRetry (generator_op script) retries d w
  = (Return v,
     upd_generateCalls (S (generateCalls w + k)) (after_retries k retries d w)).
Proof.
  intros Hk Hfail Hok.
  rewrite (callWithRetry_rate_limited script k) by done.
  rewrite callWithRetry_unfold, generator_op_eq.
  by rewrite after_retries_generateCalls, Hok.
Qed.

(** An error that is no rate-limit signal is thrown at once. *)
Lemma callWithRetry_hard_failure script retries d w e :
  script (generateCalls w) = Throw e →
  isRateLimit e = false →
  callWithRetry (generator_op script) retries d w
  = (Throw e, upd_generateCalls (S (generateCalls w)) w).
Proof.
  intros He Hrl. rewrite callWithRetry_unfold, generator_op_eq, He, Hrl.
  by destruct retries.
Qed.

(** Rate-limited on every attempt: the last error is thrown. *)
Lemma callWithRetry_exhausted script retries d w e :
  (∀ i, i < retries →
     ∃ e, script (generateCalls w + i) = Throw e ∧ isRateLimit e = true) →
  script (generateCalls w + retries) = Throw e →
  callWithRetry (generator_op script) retries d w
  = (Throw e,
     upd_generateCalls (S (generateCalls w + retries))
       (after_retries retries retries d w)).
Proof.
  intros Hfail He.
  rewrite (callWithRetry_rate_limited script retries) by done.
  rewrite Nat.sub_diag, callWithRetry_unfold, generator_op_eq.
  by rewrite after_retries_generateCalls, He.
Qed.

(** The three cases with the default policy: 3 retries, 2000 ms. *)
Lemma default_policy_recovers script w v :
  (∀ i, i < 3 →
     ∃ e, script (generateCalls w + i) = Throw e ∧ isRateLimit e = true) →
  script (generateCalls w + 3) = Return v →
  ∃ w', callWithRetry (generator_op script)
          default_retries default_initialDelay w = (Return v, w') ∧
        slept w' = slept w ++ [2000; 4000; 8000]%Z ∧
        now w' = (now w + (2000 + 4000 + 8000))%Z ∧
        generateCalls w' = generateCalls w + 4.
Proof.
  intros Hfail Hok. eexists. split.
  - by apply (callWithRetry_recovers script 3); [unfold default_retries; lia|..].
  - cbn [slept now generateCalls upd_generateCalls].
    rewrite after_retries_slept, after_retries_now.
    unfold default_retries, default_initialDelay. simpl.
    repeat split; lia.
Qed.

Lemma default_policy_hard_failure script w e :
  script (generateCalls w) = Throw e →
  isRateLimit e = false →
  ∃ w', callWithRetry (generator_op script)
          default_retries default_initialDelay w = (Throw e, w') ∧
        slept w' = slept w ∧ now w' = now w ∧
        generateCalls w' = generateCalls w + 1.
Proof.
  intros He Hrl. eexists. split.
  - by apply callWithRetry_hard_failure.
  - simpl. repeat split. lia.
Qed.

Lemma default_policy_exhausted script w e :
  (∀ i, i < 3 →
     ∃ e, script (generateCalls w + i) = Throw e ∧ isRateLimit e = true) →
  script (generateCalls w + 3) = Throw e →
  ∃ w', callWithRetry (generator_op script)
          default_retries default_initialDelay w = (Throw e, w') ∧
        slept w' = slept w ++ [2000; 4000; 8000]%Z ∧
        generateCalls w' = generateCalls w + 4.
Proof.
  intros Hfail He. eexists. split.
  - by apply callWithRetry_exhausted.
  - cbn [slept generateCalls upd_generateCalls].
    rewrite after_retries_slept.
    unfold default_retries, default_initialDelay. simpl. split; [done | lia].
Qed.

End RetryScenarios.

(** C3. [callWithRetry] returns the value of a call that succeeds; it
    retries a failed call exactly when attempts remain and the error signals
    a rate limit (status 429 or the marker in the message), after a wait of
    the current delay and with twice that delay.  With 3 retries and 2000 ms:
    three rate-limited calls and then a value give the value after waits of
    2000, 4000 and 8000 ms; an error that is no rate-limit signal is thrown
    at once, with no wait and no second call; four rate-limited calls throw
    the error of the last one. *)
Theorem callWithRetry_policy {T : Type} :
  (∀ (fn : Async T) retries d w v w1,
     fn w = (Return v, w1) → callWithRetry fn retries d w = (Return v, w1)) ∧
  (∀ (fn : Async T) (retries : nat) (d : Z) w e w1,
     fn w = (Throw e, w1) →
     callWithRetry fn retries d w =
     if bool_decide (0 < retries) && isRateLimit e
     then callWithRetry fn (retries - 1) (d * 2) (retry_wait d retries w1)
     else (Throw e, w1)) ∧
  (∀ d retries w,
     slept (retry_wait d retries w) = slept w ++ [d] ∧
     now (retry_wait d retries w) = (now w + d)%Z) ∧
  (∀ e, isRateLimit e = true ↔
     (∃ m pre post,
        message e = Some m ∧ m = pre +:+ "RESOURCE_EXHAUSTED" +:+ post)
     ∨ status_code e = Some 429%Z) ∧
  (∀ (script : nat → Outcome T) w v,
     (∀ i, i < 3 →
        ∃ e, script (generateCalls w + i) = Throw e ∧ isRateLimit e = true) →
     script (generateCalls w + 3) = Return v →
     ∃ w', callWithRetry (generator_op script)
             default_retries default_initialDelay w = (Return v, w') ∧
           slept w' = slept w ++ [2000; 4000; 8000]%Z ∧
           now w' = (now w + (2000 + 4000 + 8000))%Z ∧
           generateCalls w' = generateCalls w + 4) ∧
  (∀ (script : nat → Outcome T) w e,
     script (generateCalls w) = Throw e →
     isRateLimit e = false →
     ∃ w', callWithRetry (generator_op script)
             default_retries default_initialDelay w = (Throw e, w') ∧
           slept w' = slept w ∧ now w' = now w ∧
           generateCalls w' = generateCalls w + 1) ∧
  (∀ (script : nat → Outcome T) w e,
     (∀ i, i < 3 →
        ∃ e, script (generateCalls w + i) = Throw e ∧ isRateLimit e = true) →
     script (generateCalls w + 3) = Throw e →
     ∃ w', callWithRetry (generator_op script)
             default_retries default_initialDelay w = (Throw e, w') ∧
           slept w' = slept w ++ [2000; 4000; 8000]%Z ∧
           generateCalls w' = generateCalls w + 4).
Proof.
  split; [apply @callWithRetry_success|].
  split; [apply @callWithRetry_failure|].
  split; [done|].
  split; [apply isRateLimit_spec|].
  split; [apply @default_policy_recovers|].
  split; [apply @default_policy_hard_failure|].
  apply @default_policy_exhausted.
Qed.

Lemma callWithRetry_policy_witness :
  (∃ w', callWithRetry (generator_op flaky_script)
           default_retries default_initialDelay blank_world
         = (Return "done", w') ∧
         slept w' = [2000; 4000; 8000]%Z ∧ now w' = 14000%Z ∧
         generateCalls w' = 4) ∧
  (∃ w', callWithRetry (generator_op (T:=string) (λ _, Throw auth_error))
           default_retries default_initialDelay blank_world
         = (Throw auth_error, w') ∧
         slept w' = [] ∧ now w' = 0%Z ∧ generateCalls w' = 1) ∧
  (∃ w', callWithRetry (generator_op (T:=string) (λ _, Throw quota_error))
           default_retries default_initialDelay blank_world
         = (Throw quota_error, w') ∧
         slept w' = [2000; 4000; 8000]%Z ∧ generateCalls w' = 4).
Proof.
  destruct (@callWithRetry_policy string)
    as (_ & _ & _ & _ & Hrecover & Hhard & Hexhausted).
  split; [|split].
  - apply (Hrecover flaky_script blank_world "done").
    + intros i Hi. exists quota_error.
      destruct i as [|[|[|i]]]; [split; reflexivity.. | lia].
    + reflexivity.
  - apply (Hhard (λ _, Throw auth_error) blank_world auth_error); reflexivity.
  - apply (Hexhausted (λ _, Throw quota_error) blank_world quota_error).
    + intros i Hi. exists quota_error. split; reflexivity.
    + reflexivity.
Defined.

(** ** The insight fetchers *)

Section Fetchers.
Context `{External}.
Implicit Types (w : World) (className : string).

(** A fetcher is its retried call: the text of the answer, or the fallback
    once the error is logged. *)
Lemma getInsightForClass_eq className w :
  getInsightForClass className w =
  match callWithRetry (ai_models_generateContent (insight_request className))
          default_retries default_initialDelay w with
  | (Return response, w1) => (Return (text response), w1)
  | (Throw e, w1) =>
      (Return (Some insight_fallback),
       upd_console (console w1 ++ [console_error "Gemini insight error:" e]) w1)
  end.
Proof.
  unfold getInsightForClass. unfold_async.
  by destruct (callWithRetry _ _ _ w) as [[response|e] w1].
Qed.

Lemma processFeedback_eq className isCorrect w :
  processFeedback className isCorrect w =
  match callWithRetry
          (ai_models_generateContent (feedback_request className isCorrect))
          default_retries default_initialDelay w with
  | (Return response, w1) => (Return (text response), w1)
  | (Throw e, w1) =>
      (Return (Some (feedback_fallback isCorrect)),
       upd_console (console w1 ++ [console_error "Feedback process error:" e]) w1)
  end.
Proof.
  unfold processFeedback. unfold_async.
  by destruct (callWithRetry _ _ _ w) as [[response|e] w1].
Qed.

Lemma callWithRetry_generator_same_page {T} (script : nat → Outcome T)
    retries d w :
  same_page w (callWithRetry (generator_op script) retries d w).2.
Proof.
  revert d w. induction retries as [|r IH]; intros d w;
    rewrite callWithRetry_unfold, generator_op_eq;
    destruct (script (generateCalls w)) as [v|e]; try done.
  destruct (isRateLimit e); [|done].
  destruct (IH (d * 2)%Z
    (retry_wait d (S r) (upd_generateCalls (S (generateCalls w)) w)))
    as (? & ? & ? & ?).
  by repeat split.
Qed.

Lemma getInsightForClass_same_page className w :
  same_page w (getInsightForClass className w).2.
Proof.
  rewrite getInsightForClass_eq.
  pose proof (callWithRetry_generator_same_page
    (λ n, generateContent n (insight_request className))
    default_retries default_initialDelay w) as Hs.
  unfold ai_models_generateContent.
  by destruct (callWithRetry _ _ _ w) as [[response|e] w1].
Qed.

Lemma processFeedback_same_page className isCorrect w :
  same_page w (processFeedback className isCorrect w).2.
Proof.
  rewrite processFeedback_eq.
  pose proof (callWithRetry_generator_same_page
    (λ n, generateContent n (feedback_request className isCorrect))
    default_retries default_initialDelay w) as Hs.
  unfold ai_models_generateContent.
  by destruct (callWithRetry _ _ _ w) as [[response|e] w1].
Qed.

Lemma getInsightForClass_returns className w :
  ∃ r, (getInsightForClass className w).1 = Return r.
Proof.
  rewrite getInsightForClass_eq.
  destruct (callWithRetry _ _ _ w) as [[response|e] w1]; eauto.
Qed.

Lemma processFeedback_returns className isCorrect w :
  ∃ r, (processFeedback className isCorrect w).1 = Return r.
Proof.
  rewrite processFeedback_eq.
  destruct (callWithRetry _ _ _ w) as [[response|e] w1]; eauto.
Qed.

End Fetchers.

(** C4. Neither [getInsightForClass] nor [processFeedback] throws: each
    returns a text on every world and for every behaviour of the generator,
    and leaves the component state alone.  When the retried call fails, for
    whatever error, the result is the fallback text; so it is when the
    generator refuses the first call with an error that is no rate-limit
    signal (no wait), and when it is rate-limited on all four calls (after
    the three waits). *)
Theorem fetchers_never_throw `{External} (label : string) (isCorrect : bool)
    (w : World) :
  (∃ r w', getInsightForClass label w = (Return r, w') ∧ react w' = react w) ∧
  (∃ r w', processFeedback label isCorrect w = (Return r, w') ∧
           react w' = react w) ∧
  (∀ e w1,
     callWithRetry (ai_models_generateContent (insight_request label))
       default_retries default_initialDelay w = (Throw e, w1) →
     (getInsightForClass label w).1 = Return (Some insight_fallback)) ∧
  (∀ e w1,
     callWithRetry (ai_models_generateContent (feedback_request label isCorrect))
       default_retries default_initialDelay w = (Throw e, w1) →
     (processFeedback label isCorrect w).1
     = Return (Some (feedback_fallback isCorrect))) ∧
  (∀ e,
     generateContent (generateCalls w) (insight_request label) = Throw e →
     isRateLimit e = false →
     ∃ w', getInsightForClass label w = (Return (Some insight_fallback), w') ∧
           slept w' = slept w ∧ generateCalls w' = generateCalls w + 1) ∧
  ((∀ i, i < 4 →
      ∃ e, generateContent (generateCalls w + i) (insight_request label) = Throw e
           ∧ isRateLimit e = true) →
   ∃ w', getInsightForClass label w = (Return (Some insight_fallback), w') ∧
         slept w' = slept w ++ [2000; 4000; 8000]%Z ∧
         generateCalls w' = generateCalls w + 4) ∧
  (∀ e,
     generateContent (generateCalls w) (feedback_request label isCorrect) = Throw e →
     isRateLimit e = false →
     ∃ w', processFeedback label isCorrect w
           = (Return (Some (feedback_fallback isCorrect)), w') ∧
           slept w' = slept w ∧ generateCalls w' = generateCalls w + 1) ∧
  ((∀ i, i < 4 →
      ∃ e, generateContent (generateCalls w + i)
             (feedback_request label isCorrect) = Throw e
           ∧ isRateLimit e = true) →
   ∃ w', processFeedback label isCorrect w
         = (Return (Some (feedback_fallback isCorrect)), w') ∧
         slept w' = slept w ++ [2000; 4000; 8000]%Z ∧
         generateCalls w' = generateCalls w + 4).
Proof.
  pose proof (@default_policy_hard_failure GenerateContentResponse) as Hhard.
  pose proof (@default_policy_exhausted GenerateContentResponse) as Hexhausted.
  split; [|split; [|split; [|split; [|split; [|split; [|split]]]]]].
  - destruct (getInsightForClass_returns label w) as [r Hr].
    pose proof (getInsightForClass_same_page label w) as (Hs & _).
    destruct (getInsightForClass label w) as [o w']; simpl in *.
    exists r, w'. by subst.
  - destruct (processFeedback_returns label isCorrect w) as [r Hr].
    pose proof (processFeedback_same_page label isCorrect w) as (Hs & _).
    destruct (processFeedback label isCorrect w) as [o w']; simpl in *.
    exists r, w'. by subst.
  - intros e w1 Hfail. by rewrite getInsightForClass_eq, Hfail.
  - intros e w1 Hfail. by rewrite processFeedback_eq, Hfail.
  - intros e He Hrl.
    destruct (Hhard (λ n, generateContent n (insight_request label)) w e He Hrl)
      as (w' & Hcall & Hslept & _ & Hcalls).
    eexists. rewrite getInsightForClass_eq.
    unfold ai_models_generateContent. rewrite Hcall.
    split; [reflexivity|]. by simpl.
  - intros Hall.
    destruct (Hall 3) as (e & He & _); [lia|].
    destruct (Hexhausted (λ n, generateContent n (insight_request label)) w e)
      as (w' & Hcall & Hslept & Hcalls); [intros i Hi; apply Hall; lia | done |].
    eexists. rewrite getInsightForClass_eq.
    unfold ai_models_generateContent. rewrite Hcall.
    split; [reflexivity|]. by simpl.
  - intros e He Hrl.
    destruct (Hhard (λ n, generateContent n (feedback_request label isCorrect))
                w e He Hrl) as (w' & Hcall & Hslept & _ & Hcalls).
    eexists. rewrite processFeedback_eq.
    unfold ai_models_generateContent. rewrite Hcall.
    split; [reflexivity|]. by simpl.
  - intros Hall.
    destruct (Hall 3) as (e & He & _); [lia|].
    destruct (Hexhausted
                (λ n, generateContent n (feedback_request label isCorrect)) w e)
      as (w' & Hcall & Hslept & Hcalls); [intros i Hi; apply Hall; lia | done |].
    eexists. rewrite processFeedback_eq.
    unfold ai_models_generateContent. rewrite Hcall.
    split; [reflexivity|]. by simpl.
Qed.

Lemma fetchers_never_throw_witness :
  (∃ w', @getInsightForClass exhausted_generator "Book" blank_world
         = (Return (Some insight_fallback), w') ∧
         slept w' = [2000; 4000; 8000]%Z ∧ generateCalls w' = 4) ∧
  (∃ w', @processFeedback refusing_generator "Book" true blank_world
         = (Return (Some "Glad to hear it! Analysis confirmed."), w') ∧
         slept w' = [] ∧ generateCalls w' = 1).
Proof.
  split.
  - destruct (@fetchers_never_throw exhausted_generator "Book" true blank_world)
      as (_ & _ & _ & _ & _ & Hexhausted & _).
    apply Hexhausted. intros i Hi. exists quota_error. split; reflexivity.
  - destruct (@fetchers_never_throw refusing_generator "Book" true blank_world)
      as (_ & _ & _ & _ & _ & _ & Hhard & _).
    apply (Hhard auth_error); reflexivity.
Defined.

(** ** The frame normaliser *)

Lemma int_0 : int 0 = 0%Qc.
Proof. by apply Qc_is_canon. Qed.

Lemma int_1 : int 1 = 1%Qc.
Proof. by apply Qc_is_canon. Qed.



Lemma identity_matrix_fixes (x y : Qc) :
  apply_matrix identity_matrix (x, y) = (x, y).
Proof.
  unfold apply_matrix, identity_matrix. simpl. rewrite !int_1, !int_0.
  f_equal; ring.
Qed.


(** On a canvas with a context and a source of non-zero size, the canvas is
    resized to 224 by 224, cleared, and the centred square of the source is
    drawn over all of it, mirrored when [shouldFlip] is set. *)
Lemma getProcessedCanvas_draws (s : AppState) (w : World) c src sw sh :
  processingCanvasRef w = Some c →
  has_context_2d c = true →
  select_source s w = (Some src, sw, sh) →
  sw ≠ int 0 → sh ≠ int 0 →
  ∃ canvas,
    getProcessedCanvas s w
    = (Return (Some canvas), upd_processingCanvasRef (Some canvas) w) ∧
    width canvas = 224%Z ∧ height canvas = 224%Z ∧
    drawn canvas =
      [ClearRect (int 0) (int 0) (int 224) (int 224) identity_matrix;
       DrawImage src
         ((sw - Math_min sw sh) / int 2)%Qc ((sh - Math_min sw sh) / int 2)%Qc
         (Math_min sw sh) (Math_min sw sh)
         (int 0) (int 0) (int 224) (int 224)
         (if shouldFlip s then mirror_matrix else identity_matrix)].
Proof.
  intros Hc Hctx Hsel Hsw Hsh. unfold getProcessedCanvas.
  rewrite Hc, Hctx, Hsel. simpl.
  rewrite !bool_decide_eq_false_2 by done. simpl.
  eexists. split; [reflexivity|].
  by destruct (shouldFlip s).
Qed.

Lemma getProcessedCanvas_unavailable (s : AppState) (w : World) source sw sh :
  select_source s w = (source, sw, sh) →
  (getProcessedCanvas s w).1 = Return None ↔
  processingCanvasRef w = None ∨
  (∃ c, processingCanvasRef w = Some c ∧ has_context_2d c = false) ∨
  source = None ∨ sw = int 0 ∨ sh = int 0.
Proof.
  intros Hsel. split.
  - intros Hnone.
    destruct (processingCanvasRef w) as [c|] eqn:Hc; [|by left].
    destruct (has_context_2d c) eqn:Hctx; [|right; left; eauto].
    destruct source as [src|]; [|by right; right; left].
    destruct (decide (sw = int 0)) as [|Hsw]; [by right; right; right; left|].
    destruct (decide (sh = int 0)) as [|Hsh]; [by right; right; right; right|].
    destruct (getProcessedCanvas_draws s w c src sw sh) as (cv & Hcv & _);
      [done..|].
    by rewrite Hcv in Hnone.
  - unfold getProcessedCanvas.
    intros [Hc|[(c & Hc & Hctx)|Hsrc]].
    + by rewrite Hc.
    + by rewrite Hc, Hctx.
    + destruct (processingCanvasRef w) as [c|]; [|done].
      destruct (has_context_2d c); [|done]. simpl. rewrite Hsel.
      destruct Hsrc as [->|Hzero]; [done|].
      destruct source as [src|]; [|done].
      destruct Hzero as [->| ->];
        rewrite (bool_decide_eq_true_2 (int 0 = int 0)) by done;
        by rewrite ?orb_true_r.
Qed.

Lemma getProcessedCanvas_canvas_ready (s : AppState) (w : World) :
  canvas_ready w → canvas_ready (getProcessedCanvas s w).2.
Proof.
  intros (c & Hc & Hctx).
  unfold canvas_ready, getProcessedCanvas. rewrite Hc, Hctx. cbn [negb].
  destruct (select_source s w) as [[[src|] sw] sh]; [|by eexists].
  destruct (bool_decide (sw = int 0) || bool_decide (sh = int 0));
    [by eexists|].
  destruct (shouldFlip s); by eexists.
Qed.



(** ** The feedback log *)

Lemma take_app_take {A} (n k : nat) (l m : list A) :
  n ≤ k → take n (l ++ take k m) = take n (l ++ m).
Proof.
  revert n. induction l as [|x l IH]; intros n Hn; simpl.
  - rewrite take_take. f_equal. lia.
  - destruct n as [|n]; [done|]. simpl. f_equal. apply IH. lia.
Qed.

(** The entry that [addFeedbackToLog] makes on the world [w]. *)
Lemma addFeedbackToLog_eq (s : AppState) original corrected type_ (w : World) :
  let entry := {| timestamp := now w; originalLabel := original;
                  correctedLabel := corrected; type := type_ |} in
  let newHistory := take 5 (entry :: feedbackHistory s) in
  addFeedbackToLog s original corrected type_ w
  = (Return tt,
     upd_localStorage (<[history_key := JSON_history newHistory]> (localStorage w))
       (upd_react (with_feedbackHistory newHistory (react w)) w)).
Proof. done. Qed.

Lemma addFeedbackToLog_appends (s : AppState) original corrected type_ (w : World) :
  let entry := {| timestamp := now w; originalLabel := original;
                  correctedLabel := corrected; type := type_ |} in
  ∃ w', addFeedbackToLog s original corrected type_ w = (Return tt, w') ∧
        feedbackHistory (react w') = take 5 (entry :: feedbackHistory s) ∧
        localStorage w' !! history_key
        = Some (JSON_history (take 5 (entry :: feedbackHistory s))) ∧
        length (feedbackHistory (react w')) ≤ 5 ∧
        now w' = now w ∧ timers w' = timers w.
Proof.
  intros entry. eexists. split; [apply addFeedbackToLog_eq|]. simpl.
  split; [done|]. split; [by rewrite lookup_insert_eq|].
  split; [|done]. rewrite length_take. lia.
Qed.

(** The effect that follows the render writes what is stored already. *)
Lemma feedbackHistory_effect_idle (s : AppState) original corrected type_ w w' :
  addFeedbackToLog s original corrected type_ w = (Return tt, w') →
  (feedbackHistory_effect (react w') w').2 = w'.
Proof.
  rewrite addFeedbackToLog_eq. intros [= <-].
  unfold feedbackHistory_effect, localStorage_setItem, modify. simpl.
  by rewrite insert_insert_eq.
Qed.

(** A reload reads the stored history back. *)
Lemma reload_reads_history (w : World) (h : list FeedbackHistory) :
  localStorage w !! history_key = Some (JSON_history h) →
  ∃ w', window_location_reload w = (Return tt, w') ∧
        react w' = initial_state h ∧ localStorage w' = localStorage w ∧
        timers w' = [].
Proof.
  intros Hh. unfold window_location_reload, initial_feedbackHistory.
  rewrite Hh. by eexists.
Qed.

Lemma log_all_cons dt original corrected type_ (rest : list Feedback) (w : World) :
  log_all ((dt, original, corrected, type_) :: rest) w
  = log_all rest
      (addFeedbackToLog (react w) original corrected type_
         (upd_now (now w + dt)%Z w)).2.
Proof. done. Qed.

(** After a sequence of feedbacks the history holds the five newest
    entries, newest first, and so does the storage. *)
Lemma log_all_history (events : list Feedback) (w : World) :
  length (feedbackHistory (react w)) ≤ 5 →
  ∃ w', log_all events w = (Return tt, w') ∧
        feedbackHistory (react w')
        = take 5 (reverse (entries_from (now w) events)
                  ++ feedbackHistory (react w)) ∧
        (events ≠ [] →
         localStorage w' !! history_key
         = Some (JSON_history (feedbackHistory (react w')))).
Proof.
  revert w. induction events as [|[[[dt original] corrected] type_] rest IH];
    intros w Hlen.
  - exists w. split; [done|]. split; [|done].
    simpl. by rewrite take_ge.
  - rewrite log_all_cons, addFeedbackToLog_eq. cbn [snd].
    set (w1 := upd_localStorage _ _).
    destruct (IH w1) as (w' & Hrun & Hhist & Hstore).
    { subst w1. simpl. rewrite length_take. lia. }
    exists w'. split; [done|]. split.
    + rewrite Hhist.
      change (now w1) with (now w + dt)%Z.
      change (feedbackHistory (react w1))
        with (take 5 ({| timestamp := (now w + dt)%Z; originalLabel := original;
                         correctedLabel := corrected; type := type_ |}
                      :: feedbackHistory (react w))).
      rewrite (take_app_take 5 5) by lia.
      cbn [entries_from]. by rewrite reverse_cons, <- app_assoc.
    + intros _. destruct rest as [|ev rest]; [|by apply Hstore].
      simpl in Hrun. injection Hrun as <-. subst w1. simpl.
      by rewrite lookup_insert_eq.
Qed.

(** C6. [addFeedbackToLog] puts the new entry before the history of its
    closure, keeps the first five entries, and stores the result, which a
    reload reads back.  Six feedbacks logged one after the other on an empty
    history leave five entries, newest first: the first one logged is
    gone. *)
Theorem addFeedbackToLog_keeps_five_newest :
  (∀ (s : AppState) original corrected type_ (w : World),
     let entry := {| timestamp := now w; originalLabel := original;
                     correctedLabel := corrected; type := type_ |} in
     ∃ w', addFeedbackToLog s original corrected type_ w = (Return tt, w') ∧
           feedbackHistory (react w') = take 5 (entry :: feedbackHistory s) ∧
           localStorage w' !! history_key
           = Some (JSON_history (take 5 (entry :: feedbackHistory s))) ∧
           length (feedbackHistory (react w')) ≤ 5 ∧
           ∃ w'', window_location_reload w' = (Return tt, w'') ∧
                  feedbackHistory (react w'') = feedbackHistory (react w')) ∧
  (∀ (w : World) (f1 f2 f3 f4 f5 f6 : Feedback),
     feedbackHistory (react w) = [] →
     ∃ e1 e2 e3 e4 e5 e6 w',
       entries_from (now w) [f1; f2; f3; f4; f5; f6] = [e1; e2; e3; e4; e5; e6] ∧
       log_all [f1; f2; f3; f4; f5; f6] w = (Return tt, w') ∧
       feedbackHistory (react w') = [e6; e5; e4; e3; e2] ∧
       length (feedbackHistory (react w')) = 5 ∧
       localStorage w' !! history_key = Some (JSON_history [e6; e5; e4; e3; e2])).
Proof.
  split.
  - intros s original corrected type_ w entry.
    destruct (addFeedbackToLog_appends s original corrected type_ w)
      as (w' & Hrun & Hhist & Hstore & Hlen & _).
    exists w'. repeat (split; [done|]).
    destruct (reload_reads_history w' _ Hstore) as (w'' & Hreload & Hreact & _).
    exists w''. split; [done|]. by rewrite Hreact, Hhist.
  - intros w f1 f2 f3 f4 f5 f6 Hempty.
    destruct (log_all_history [f1; f2; f3; f4; f5; f6] w)
      as (w' & Hrun & Hhist & Hstore); [rewrite Hempty; simpl; lia|].
    specialize (Hstore ltac:(done)). rewrite Hhist in Hstore.
    rewrite Hempty, app_nil_r in Hhist, Hstore.
    destruct f1 as [[[dt1 o1] c1] t1], f2 as [[[dt2 o2] c2] t2],
      f3 as [[[dt3 o3] c3] t3], f4 as [[[dt4 o4] c4] t4],
      f5 as [[[dt5 o5] c5] t5], f6 as [[[dt6 o6] c6] t6].
    cbn [entries_from] in *.
    do 6 eexists. exists w'. split; [reflexivity|].
    split; [done|]. split; [exact Hhist|]. split; [by rewrite Hhist|].
    exact Hstore.
Qed.

Lemma addFeedbackToLog_keeps_five_newest_witness :
  ∃ w', log_all [(1000, "Book", "Book", CONFIRMATION);
                 (1000, "Pen", "Pencil", CORRECTION);
                 (1000, "Cup", "Cup", CONFIRMATION);
                 (1000, "Key", "Key", CONFIRMATION);
                 (1000, "Bag", "Box", CORRECTION);
                 (1000, "Hat", "Hat", CONFIRMATION)]%Z blank_world
        = (Return tt, w') ∧
        feedbackHistory (react w') =
          [ {| timestamp := 6000; originalLabel := "Hat";
               correctedLabel := "Hat"; type := CONFIRMATION |};
            {| timestamp := 5000; originalLabel := "Bag";
               correctedLabel := "Box"; type := CORRECTION |};
            {| timestamp := 4000; originalLabel := "Key";
               correctedLabel := "Key"; type := CONFIRMATION |};
            {| timestamp := 3000; originalLabel := "Cup";
               correctedLabel := "Cup"; type := CONFIRMATION |};
            {| timestamp := 2000; originalLabel := "Pen";
               correctedLabel := "Pencil"; type := CORRECTION |} ].
Proof.
  destruct addFeedbackToLog_keeps_five_newest as [_ Hsix].
  destruct (Hsix blank_world
              (1000, "Book", "Book", CONFIRMATION)%Z
              (1000, "Pen", "Pencil", CORRECTION)%Z
              (1000, "Cup", "Cup", CONFIRMATION)%Z
              (1000, "Key", "Key", CONFIRMATION)%Z
              (1000, "Bag", "Box", CORRECTION)%Z
              (1000, "Hat", "Hat", CONFIRMATION)%Z eq_refl)
    as (e1 & e2 & e3 & e4 & e5 & e6 & w' & Hentries & Hrun & Hhist & _).
  exists w'. split; [exact Hrun|].
  rewrite Hhist. simpl in Hentries.
  injection Hentries as <- <- <- <- <- <-. reflexivity.
Defined.

(** ** The feedback handlers *)

Section Handlers.
Context `{External}.
Implicit Types (s : AppState) (w : World).

Lemma handleCorrectFeedback_eq s w :
  let label := current_label s in
  let w1 := upd_react (with_feedbackGiven true (react w)) w in
  let w2 := (addFeedbackToLog s label label CONFIRMATION w1).2 in
  ∃ r w3,
    processFeedback label true w2 = (Return r, w3) ∧ same_page w2 w3 ∧
    handleCorrectFeedback s w
    = (Return tt,
       upd_timers (timers w3 ++ [(4000%Z, location_reload)])
         (upd_react (with_feedbackResponse r (react w3)) w3)).
Proof.
  intros label w1 w2. subst w2.
  rewrite (addFeedbackToLog_eq s label label CONFIRMATION w1). cbn [snd].
  set (w2 := upd_localStorage _ _).
  destruct (processFeedback_returns label true w2) as [r Hr].
  pose proof (processFeedback_same_page label true w2) as Hsame.
  destruct (processFeedback label true w2) as [o w3] eqn:Hp.
  simpl in Hr, Hsame. subst o. exists r, w3. repeat split; try apply Hsame.
  unfold handleCorrectFeedback. fold label.
  unfold setFeedbackGiven, setFeedbackResponse, setTimeout. unfold_async.
  fold w1. rewrite addFeedbackToLog_eq. fold w2. by rewrite Hp.
Qed.

Lemma handleManualSubmit_eq s w :
  truthy (trim (manualValue s)) = true →
  let original := current_label s in
  let w1 := upd_react (with_feedbackGiven true (react w)) w in
  let w2 := (addFeedbackToLog s original (manualValue s) CORRECTION w1).2 in
  ∃ r w3,
    processFeedback (manualValue s) false w2 = (Return r, w3) ∧
    same_page w2 w3 ∧
    handleManualSubmit s w
    = (Return tt,
       upd_timers (timers w3 ++ [(4000%Z, location_reload)])
         (upd_react
            (with_feedbackResponse
               (Some (correction_response (manualValue s))) (react w3)) w3)).
Proof.
  intros Htrim original w1 w2. subst w2.
  rewrite (addFeedbackToLog_eq s original (manualValue s) CORRECTION w1).
  cbn [snd]. set (w2 := upd_localStorage _ _).
  destruct (processFeedback_returns (manualValue s) false w2) as [r Hr].
  pose proof (processFeedback_same_page (manualValue s) false w2) as Hsame.
  destruct (processFeedback (manualValue s) false w2) as [o w3] eqn:Hp.
  simpl in Hr, Hsame. subst o. exists r, w3. repeat split; try apply Hsame.
  unfold handleManualSubmit. rewrite Htrim. change (negb true) with false.
  fold original.
  unfold setFeedbackGiven, setFeedbackResponse, setTimeout. unfold_async.
  cbv beta iota. fold w1. rewrite addFeedbackToLog_eq. fold w2. by rewrite Hp.
Qed.

(** An empty or blank text is not submitted: nothing changes. *)
Lemma handleManualSubmit_blank s w :
  trim (manualValue s) = EmptyString →
  handleManualSubmit s w = (Return tt, w).
Proof.
  intros Htrim. unfold handleManualSubmit. by rewrite Htrim.
Qed.

Lemma handleWrongFeedback_manual s w :
  can_cascade s = false →
  handleWrongFeedback s w
  = (Return tt, upd_react (with_isManualInput true (react w)) w).
Proof. intros Hc. unfold handleWrongFeedback. by rewrite Hc. Qed.

Lemma handleWrongFeedback_cascade s w next :
  can_cascade s = true →
  predictions s !! 1 = Some next →
  let w1 := upd_react
              (with_isInsightLoading true
                 (with_insight None (with_predictionIndex 1 (react w)))) w in
  ∃ r w2,
    getInsightForClass (className next) w1 = (Return r, w2) ∧
    same_page w1 w2 ∧
    handleWrongFeedback s w
    = (Return tt,
       upd_react (with_isInsightLoading false (with_insight r (react w2))) w2).
Proof.
  intros Hc Hnext w1.
  destruct (getInsightForClass_returns (className next) w1) as [r Hr].
  pose proof (getInsightForClass_same_page (className next) w1) as Hsame.
  destruct (getInsightForClass (className next) w1) as [o w2] eqn:Hg.
  simpl in Hr, Hsame. subst o. exists r, w2. repeat split; try apply Hsame.
  unfold handleWrongFeedback. rewrite Hc, Hnext.
  unfold setPredictionIndex, setInsight, setIsInsightLoading. unfold_async.
  cbv beta iota zeta.
  match goal with
  | |- context [getInsightForClass (className next) ?x] => change x with w1
  end.
  by rewrite Hg.
Qed.

(** The guard of the cascade, spelled out. *)
Lemma can_cascade_spec s :
  can_cascade s = true ↔
  predictionIndex s = 0 ∧
  ∃ second, predictions s !! 1 = Some second
            ∧ (threshold < probability second)%Qc.
Proof.
  unfold can_cascade. rewrite !andb_true_iff, !bool_decide_eq_true. split.
  - intros [[Hidx Hlen] Hsecond]. split; [done|].
    destruct (predictions s !! 1) as [second|]; [|done].
    exists second. split; [done|]. by apply bool_decide_eq_true in Hsecond.
  - intros [Hidx (second & Hsecond & Hp)]. rewrite Hsecond.
    split; [split; [done|] | by apply bool_decide_eq_true].
    by apply lookup_lt_Some in Hsecond.
Qed.

End Handlers.

Lemma view_session (s1 s2 : AppState) :
  session s1 = session s2 → view s1 = view s2.
Proof.
  unfold session, view. intros [= Hp Hi Hm Hv Hf Hr Hn Hl]. by rewrite Hp, Hm, Hf.
Qed.

Lemma view_Reviewing (s : AppState) :
  view s = Reviewing ↔
  isManualInput s = false ∧ feedbackGiven s = false ∧ 0 < length (predictions s).
Proof.
  unfold view.
  destruct (isManualInput s), (feedbackGiven s); simpl;
    try case_bool_decide; split; intros Hx; try done;
    by destruct Hx as (? & ? & ?).
Qed.

(** C2. In the Reviewing state a rejection moves the cursor to 1 exactly
    when the cursor is 0 and a second candidate exists whose probability is
    above 0.05, and the second candidate is then the one under review; in
    every other case the manual-entry form is shown, with the cursor where
    it was.  For cat 0.9, dog 0.06, fish 0.01: from cursor 0 the candidate
    becomes dog at index 1, and from cursor 1 the form is shown. *)
Theorem handleWrongFeedback_cascades_once `{External} (w : World) :
  let s := react w in
  let cascades :=
    predictionIndex s = 0 ∧
    ∃ second, predictions s !! 1 = Some second
              ∧ (threshold < probability second)%Qc in
  view s = Reviewing →
  ∃ w',
    on_event handleWrongFeedback w = (Return tt, w') ∧
    predictions (react w') = predictions s ∧
    ((view (react w') = Reviewing ∧ predictionIndex (react w') = 1) ↔ cascades) ∧
    (cascades →
       predictions (react w') !! predictionIndex (react w') = predictions s !! 1) ∧
    (¬ cascades →
       view (react w') = ManualEntry ∧
       predictionIndex (react w') = predictionIndex s) ∧
    (predictions s = cat_dog_fish → predictionIndex s = 0 →
       view (react w') = Reviewing ∧ predictionIndex (react w') = 1 ∧
       predictions (react w') !! predictionIndex (react w')
       = Some {| className := "dog"; probability := num 6 100 |}) ∧
    (predictions s = cat_dog_fish → predictionIndex s = 1 →
       view (react w') = ManualEntry).
Proof.
  intros s cascades Hview.
  apply view_Reviewing in Hview as (Hmanual & Hgiven & Hlen).
  assert (can_cascade s = true ↔ cascades) as Hspec by apply can_cascade_spec.
  unfold on_event. fold s.
  destruct (can_cascade s) eqn:Hc.
  - assert cascades as Hcas by by apply Hspec.
    destruct Hcas as [Hidx (second & Hsecond & Hp)].
    destruct (handleWrongFeedback_cascade s w second Hc Hsecond)
      as (r & w2 & _ & (Hreact & _) & Hrun).
    eexists. split; [exact Hrun|]. simpl. rewrite Hreact. simpl. fold s.
    assert (view (with_isInsightLoading false
              (with_insight r
                 (with_isInsightLoading true
                    (with_insight None (with_predictionIndex 1 s)))))
            = Reviewing) as Hv.
    { apply view_Reviewing. simpl. done. }
    split; [done|]. split; [by split; [intros _; apply Hspec | ]|].
    split; [done|]. split; [intros Hn; destruct Hn; by apply Hspec|].
    split.
    + intros Hpred _. split; [done|]. split; [done|]. by rewrite Hpred.
    + intros Hpred Hidx'. congruence.
  - assert (¬ cascades) as Hncas by (intros Hcas; apply Hspec in Hcas; done).
    rewrite (handleWrongFeedback_manual s w Hc).
    eexists. split; [reflexivity|]. simpl. fold s.
    assert (view (with_isManualInput true s) = ManualEntry) as Hv.
    { unfold view. simpl. by rewrite Hgiven. }
    split; [done|]. split.
    { rewrite Hv. split; [by intros [? _] | done]. }
    split; [done|]. split; [done|]. split; [|done].
    intros Hpred Hidx. exfalso. apply Hncas. split; [done|].
    rewrite Hpred. eexists. split; [reflexivity|]. by vm_compute.
Qed.

Lemma handleWrongFeedback_cascades_once_witness :
  ∃ w',
    on_event (@handleWrongFeedback answering_generator)
      (review_world cat_dog_fish 0) = (Return tt, w') ∧
    view (react w') = Reviewing ∧ predictionIndex (react w') = 1 ∧
    predictions (react w') !! predictionIndex (react w')
    = Some {| className := "dog"; probability := num 6 100 |}.
Proof.
  destruct (@handleWrongFeedback_cascades_once answering_generator
              (review_world cat_dog_fish 0) eq_refl)
    as (w' & Hrun & _ & _ & _ & _ & Hdog & _).
  exists w'. split; [exact Hrun|]. apply Hdog; reflexivity.
Defined.

Lemma initial_state_cleared (h : list FeedbackHistory) :
  session_cleared (initial_state h) ∧ view (initial_state h) = Idle ∧
  feedbackHistory (initial_state h) = h.
Proof. done. Qed.

(** C7, as the code has it.  Confirming the candidate under review logs a
    CONFIRMATION entry whose two labels are the label of the candidate when
    that label is not empty, and "Unknown" when it is empty; the entry is
    stored, the state becomes Finalized, and a reload is set for 4000 ms
    later, after which the session is cleared, the view is Idle and the
    history is the stored one. *)
Theorem handleCorrectFeedback_confirms `{External} (w : World)
    (candidate : Prediction) :
  let s := react w in
  view s = Reviewing →
  predictions s !! predictionIndex s = Some candidate →
  ∃ entry w' w'',
    on_event handleCorrectFeedback w = (Return tt, w') ∧
    feedbackHistory (react w') = take 5 (entry :: feedbackHistory s) ∧
    localStorage w' !! history_key
    = Some (JSON_history (take 5 (entry :: feedbackHistory s))) ∧
    timestamp entry = now w ∧ type entry = CONFIRMATION ∧
    originalLabel entry = correctedLabel entry ∧
    (className candidate ≠ EmptyString →
       originalLabel entry = className candidate) ∧
    (className candidate = EmptyString → originalLabel entry = "Unknown") ∧
    (className candidate = "Book" →
       entry = {| timestamp := now w; originalLabel := "Book";
                  correctedLabel := "Book"; type := CONFIRMATION |}) ∧
    view (react w') = Finalized ∧
    timers w' = timers w ++ [(4000%Z, location_reload)] ∧
    run_callback location_reload w' = (Return tt, w'') ∧
    session_cleared (react w'') ∧ view (react w'') = Idle ∧
    feedbackHistory (react w'') = feedbackHistory (react w').
Proof.
  intros s Hview Hcandidate.
  apply view_Reviewing in Hview as (Hmanual & Hgiven & Hlen).
  destruct (handleCorrectFeedback_eq s w)
    as (r & w3 & _ & (Hreact & Hstorage & Htimers & _) & Hrun).
  set (label := current_label s) in *.
  set (entry := {| timestamp := now w; originalLabel := label;
                   correctedLabel := label; type := CONFIRMATION |}).
  rewrite addFeedbackToLog_eq in Hreact, Hstorage, Htimers.
  cbn [snd] in Hreact, Hstorage, Htimers. simpl in Hreact, Hstorage, Htimers.
  fold entry in Hreact, Hstorage.
  assert (localStorage w3 !! history_key
          = Some (JSON_history (take 5 (entry :: feedbackHistory s)))) as Hstored.
  { rewrite Hstorage. apply lookup_insert_eq. }
  set (w' := upd_timers _ _) in Hrun.
  destruct (reload_reads_history w' (take 5 (entry :: feedbackHistory s)))
    as (w'' & Hreload & Hreact'' & _); [done|].
  assert (label = or_else (Some (className candidate)) "Unknown") as Hlabel.
  { unfold label, current_label. fold s. by rewrite Hcandidate. }
  assert (react w' = with_feedbackResponse r
            (with_feedbackHistory (take 5 (entry :: feedbackHistory s))
               (with_feedbackGiven true s))) as Hreact'.
  { subst w'. simpl. by rewrite Hreact. }
  assert (localStorage w' = localStorage w3) as Hstorage' by done.
  assert (timers w' = timers w ++ [(4000%Z, location_reload)]) as Htimers'.
  { subst w'. simpl. by rewrite Htimers. }
  clearbody w'.
  exists entry, w', w''. split; [exact Hrun|].
  rewrite Hreact', Hstorage', Hreact''.
  split; [done|]. split; [done|]. split; [done|]. split; [done|].
  split; [done|]. split.
  { intros Hne. cbn [originalLabel entry]. rewrite Hlabel.
    apply or_else_truthy. by destruct (className candidate). }
  split; [by intros Hempty; cbn [originalLabel entry]; rewrite Hlabel, Hempty|].
  split; [by intros Hbook; unfold entry; rewrite Hlabel, Hbook|].
  split.
  { unfold view. simpl. rewrite Hmanual. simpl.
    by rewrite bool_decide_eq_true_2. }
  split; [done|]. split; [exact Hreload|]. done.
Qed.

Lemma handleCorrectFeedback_confirms_witness :
  ∃ w' w'',
    on_event (@handleCorrectFeedback answering_generator) (review_world book 0)
    = (Return tt, w') ∧
    feedbackHistory (react w') =
      [ {| timestamp := 0; originalLabel := "Book"; correctedLabel := "Book";
           type := CONFIRMATION |} ] ∧
    view (react w') = Finalized ∧
    timers w' = [(4000%Z, location_reload)] ∧
    run_callback location_reload w' = (Return tt, w'') ∧
    session_cleared (react w'') ∧ view (react w'') = Idle.
Proof.
  destruct (@handleCorrectFeedback_confirms answering_generator
              (review_world book 0)
              {| className := "Book"; probability := num 9 10 |}
              eq_refl eq_refl)
    as (entry & w' & w'' & Hrun & Hhist & _ & _ & _ & _ & _ & _ & Hbook
        & Hview & Htimers & Hreload & Hcleared & Hidle & _).
  exists w', w''. rewrite Hhist, (Hbook eq_refl). done.
Defined.

(** The claim as it was stated fails for a candidate whose label is empty:
    the entry logged carries "Unknown", not the label of the candidate. *)
Lemma handleCorrectFeedback_counterexample :
  let w := review_world unnamed 0 in
  let w' := (on_event (@handleCorrectFeedback answering_generator) w).2 in
  view (react w) = Reviewing ∧
  ∃ candidate entry,
    predictions (react w) !! predictionIndex (react w) = Some candidate ∧
    head (feedbackHistory (react w')) = Some entry ∧
    type entry = CONFIRMATION ∧
    originalLabel entry ≠ className candidate ∧
    correctedLabel entry ≠ className candidate.
Proof.
  split; [reflexivity|]. do 2 eexists.
  split; [reflexivity|]. split; [reflexivity|]. split; [reflexivity|].
  split; discriminate.
Qed.

(** C8. A manual text that is empty or of white space only is not
    submitted: the handler returns and the world is the same, so the state
    stays in manual entry with all its fields, nothing is logged or stored
    and no reload is set. *)
Theorem handleManualSubmit_rejects_blank `{External} (w : World) :
  white_space_only (manualValue (react w)) →
  on_event handleManualSubmit w = (Return tt, w).
Proof.
  intros Hblank. apply handleManualSubmit_blank. by apply trim_empty_iff.
Qed.

Lemma handleManualSubmit_rejects_blank_witness :
  let w := manual_world book (String " " (String "009" (String " " EmptyString))) in
  view (react w) = ManualEntry ∧
  on_event (@handleManualSubmit answering_generator) w = (Return tt, w).
Proof.
  split; [reflexivity|].
  apply (@handleManualSubmit_rejects_blank answering_generator).
  unfold white_space_only. simpl. repeat constructor.
Defined.

(** C10. A manual text that is not blank is logged as it was typed: the
    CORRECTION entry carries the text of the input, white space at its ends
    included, so not the trimmed text when the two differ. *)
Theorem handleManualSubmit_stores_raw_text `{External} (w : World) :
  let s := react w in
  trim (manualValue s) ≠ EmptyString →
  ∃ entry w',
    on_event handleManualSubmit w = (Return tt, w') ∧
    feedbackHistory (react w') = take 5 (entry :: feedbackHistory s) ∧
    localStorage w' !! history_key
    = Some (JSON_history (take 5 (entry :: feedbackHistory s))) ∧
    entry = {| timestamp := now w; originalLabel := current_label s;
               correctedLabel := manualValue s; type := CORRECTION |} ∧
    (trim (manualValue s) ≠ manualValue s →
     correctedLabel entry ≠ trim (manualValue s)).
Proof.
  intros s Htrim.
  assert (truthy (trim (manualValue s)) = true) as Htruthy.
  { destruct (truthy (trim (manualValue s))) eqn:Ht; [done|].
    by apply truthy_false_iff in Ht. }
  destruct (handleManualSubmit_eq s w Htruthy)
    as (r & w3 & _ & (Hreact & Hstorage & _) & Hrun).
  rewrite addFeedbackToLog_eq in Hreact, Hstorage.
  cbn [snd] in Hreact, Hstorage.
  eexists _, _. split; [exact Hrun|]. simpl. rewrite Hreact, Hstorage. simpl.
  split; [reflexivity|]. split; [by rewrite lookup_insert_eq|].
  split; [reflexivity|]. simpl. congruence.
Qed.

Lemma handleManualSubmit_stores_raw_text_witness :
  ∃ entry w',
    on_event (@handleManualSubmit answering_generator)
      (manual_world book " Book ") = (Return tt, w') ∧
    head (feedbackHistory (react w')) = Some entry ∧
    correctedLabel entry = " Book " ∧ trim " Book " = "Book" ∧
    type entry = CORRECTION.
Proof.
  destruct (@handleManualSubmit_stores_raw_text answering_generator
              (manual_world book " Book "))
    as (entry & w' & Hrun & Hhist & _ & Hentry & _).
  - vm_compute. discriminate.
  - exists entry, w'. split; [exact Hrun|]. rewrite Hhist, Hentry.
    repeat split.
Defined.

(** ** A change of input *)

Lemma reader_onloadend_eq (result : option string) (w : World) :
  ∃ w', reader_onloadend result w = (Return tt, w') ∧
        session_cleared (react w') ∧ imagePreview (react w') = result ∧
        targetImage (react w') = targetImage (react w) ∧
        feedbackHistory (react w') = feedbackHistory (react w) ∧
        status (react w') = status (react w) ∧
        inputSource (react w') = inputSource (react w) ∧
        localStorage w' = localStorage w ∧ timers w' = timers w.
Proof. eexists. split; [reflexivity|]. done. Qed.

(** The camera button leaves the session as it is, whatever the camera
    answers. *)
Lemma click_camera_keeps_session `{External} (w : World) :
  ∃ w', on_event (click_inputSource CAMERA) w = (Return tt, w') ∧
        session (react w') = session (react w).
Proof.
  unfold on_event, click_inputSource, commit_refs, inputSource_effect,
    startCamera, stopCamera, setInputSource, setIsCameraActive, setError.
  unfold_async. simpl.
  destruct (decide (CAMERA = inputSource (react w))); [by eexists|].
  simpl. destruct getUserMedia as [stream|err]; simpl.
  - destruct (videoRef w); simpl; by eexists.
  - destruct (streamRef w); simpl; by eexists.
Qed.

(** The camera button leaves the session as it is at the click, and when
    the request for the camera is answered, whatever the answer. *)
Lemma camera_request_keeps_session `{External} (w : World)
    (answer : Outcome MediaStream) :
  let w1 := camera_step (SourceRequested CAMERA) w in
  session (react w1) = session (react w) ∧
  session (react (camera_step (CameraSettled answer) w1)) = session (react w).
Proof. camera_cases w; destruct answer; lazy; done. Qed.

(** A new image does not stop an analysis that is running: when the
    classifier answers, the predictions for the old frame are put under
    review. *)
Lemma analysis_in_flight_goes_on (w : World) (f : File)
    (results : list Prediction) :
  let w1 := (handleTargetImageChange (Some f) w).2 in
  let w2 := (analyzeImage_predicted (Return results) w1).2 in
  predictions (react w2) = rank results ∧
  targetImage (react w2) = Some f ∧
  (results ≠ [] → view (react w2) = Reviewing).
Proof.
  intros w1 w2. subst w1 w2.
  assert (results ≠ [] → rank results ≠ []) as Hrank.
  { intros Hne Hnil. pose proof (rank_Permutation results) as Hperm.
    rewrite Hnil in Hperm. apply Hne. symmetry. by apply Permutation_nil_l. }
  unfold analyzeImage_predicted, handleTargetImageChange, reader_onloadend,
    resetFeedback.
  destruct w as [[st pr er ins il src0 ti ip sf ica pi imi mv fg fr fh]
                   ls nw sl tm cn pc vr ie mr sr gc pcl].
  unfold_async. cbn -[rank threshold].
  destruct (rank results) as [|top rest] eqn:Hsorted.
  - split; [by lazy|]. split; [by lazy|]. intros Hne. by destruct (Hrank Hne).
  - destruct (bool_decide (threshold < probability top)%Qc); by lazy.
Qed.

(** C9, as the code has it.  From every state, a new image chosen in the
    file input clears the session (cursor, manual-entry flag, manual text,
    feedback flag and response, insight and predictions) and the result
    area shows the idle placeholder; the history is kept.  The status and
    the error message are left as they are: a page in ERROR stays in ERROR,
    and an analysis that is running goes on, so that when the classifier
    answers, [analyzeImage] puts the predictions for the old frame under
    review next to the new image.  The camera button switches the input
    and asks for the camera, and leaves the session and the view as they
    are, both when the click and the answer of the browser are taken as
    one step and when they are taken apart. *)
Theorem new_image_clears_session `{External} (w : World) (f : File) :
  (∃ w', handleTargetImageChange (Some f) w = (Return tt, w') ∧
         session_cleared (react w') ∧ view (react w') = Idle ∧
         status (react w') = status (react w) ∧
         error (react w') = error (react w) ∧
         targetImage (react w') = Some f ∧
         imagePreview (react w') = Some (file_dataURL f) ∧
         feedbackHistory (react w') = feedbackHistory (react w)) ∧
  (∀ results,
     let w1 := (handleTargetImageChange (Some f) w).2 in
     let w2 := (analyzeImage_predicted (Return results) w1).2 in
     predictions (react w2) = rank results ∧
     targetImage (react w2) = Some f ∧
     (results ≠ [] → view (react w2) = Reviewing)) ∧
  (∃ w', on_event (click_inputSource CAMERA) w = (Return tt, w') ∧
         session (react w') = session (react w) ∧
         view (react w') = view (react w)) ∧
  (∀ answer,
     let w1 := camera_step (SourceRequested CAMERA) w in
     let w2 := camera_step (CameraSettled answer) w1 in
     session (react w1) = session (react w) ∧
     session (react w2) = session (react w)).
Proof.
  split; [|split; [|split]].
  - eexists. split; [reflexivity|]. done.
  - intros results. apply analysis_in_flight_goes_on.
  - destruct (click_camera_keeps_session w) as (w' & Hrun & Hsession).
    exists w'. split; [done|]. split; [done|]. by apply view_session.
  - intros answer. apply camera_request_keeps_session.
Qed.

(** The claim as it was stated fails for the camera: with a candidate under
    review, the camera button turns the camera on and the candidate is still
    under review. *)
Lemma enabling_camera_counterexample :
  let w := review_world book 0 in
  let w' := (on_event (@click_inputSource answering_generator CAMERA) w).2 in
  view (react w) = Reviewing ∧
  inputSource (react w') = CAMERA ∧ isCameraActive (react w') = true ∧
  view (react w') = Reviewing ∧ predictions (react w') = book ∧
  ¬ session_cleared (react w').
Proof.
  repeat (split; [reflexivity|]). intros Hcleared. discriminate Hcleared.
Qed.

(** ** An analysis *)

Lemma getProcessedCanvas_react (s : AppState) (w : World) :
  ∃ r w', getProcessedCanvas s w = (Return r, w') ∧ react w' = react w ∧
          predictCalls w' = predictCalls w.
Proof.
  unfold getProcessedCanvas.
  destruct (processingCanvasRef w) as [c|]; [|by eexists _, _].
  destruct (has_context_2d c); simpl; [|by eexists _, _].
  destruct (select_source s w) as [[[src|] sw] sh]; [|by eexists _, _].
  destruct (bool_decide (sw = int 0) || bool_decide (sh = int 0));
    by eexists _, _.
Qed.

(** With a model loaded, [analyzeImage] returns; the cursor and the
    feedback fields are reset; then either the state is READY and the
    predictions are the ranked answer of the classifier, or the state is
    ERROR and the predictions are the ones shown before. *)
Lemma analyzeImage_outcome `{External} (w : World) :
  modelRef w = true →
  ∃ w', on_event analyzeImage w = (Return tt, w') ∧
        predictionIndex (react w') = 0 ∧ isManualInput (react w') = false ∧
        manualValue (react w') = EmptyString ∧
        feedbackGiven (react w') = false ∧ feedbackResponse (react w') = None ∧
        ((status (react w') = READY ∧
          ∃ canvas results,
            model_predict (predictCalls w) canvas = Return results ∧
            predictions (react w') = rank results)
         ∨ (status (react w') = ERROR ∧
            predictions (react w') = predictions (react w) ∧
            error (react w') = Some "Analysis engine error.")).
Proof.
  intros Hmodel.
  unfold on_event, analyzeImage, resetFeedback, modelRef_predict, scripted,
    setStatus, setPredictions, setPredictionIndex, setIsManualInput,
    setManualValue, setFeedbackGiven, setFeedbackResponse, setInsight,
    setIsInsightLoading, setError.
  unfold_async. rewrite Hmodel. cbn [negb].
  match goal with
  | |- context [getProcessedCanvas (react w) ?x] =>
      set (w1 := x);
      destruct (getProcessedCanvas_react (react w) w1)
        as ([canvas|] & w2 & Hcanvas & Hreact & Hcalls); rewrite Hcanvas
  end; [|eexists; split; [reflexivity|]; simpl; rewrite Hreact; simpl;
         repeat (split; [done|]); by right].
  rewrite Hcalls. change (predictCalls w1) with (predictCalls w).
  destruct (model_predict (predictCalls w) canvas) as [results|err] eqn:Hpredict;
    [|eexists; split; [reflexivity|]; simpl; rewrite Hreact; simpl;
      repeat (split; [done|]); by right].
  destruct (rank results) as [|top rest] eqn:Hrank.
  { eexists. split; [reflexivity|]. simpl. rewrite Hreact. simpl.
    repeat (split; [done|]). left. split; [done|].
    exists canvas, results. by rewrite Hrank. }
  destruct (bool_decide (threshold < probability top)%Qc).
  2:{ eexists. split; [reflexivity|]. simpl. rewrite Hreact. simpl.
      repeat (split; [done|]). left. split; [done|].
      exists canvas, results. by rewrite Hrank. }
  match goal with
  | |- context [getInsightForClass (className top) ?x] =>
      set (w3 := x);
      destruct (getInsightForClass_returns (className top) w3) as [r Hr];
      pose proof (getInsightForClass_same_page (className top) w3) as (Hsame & _);
      destruct (getInsightForClass (className top) w3) as [o w4]
  end.
  simpl in Hr, Hsame. subst o.
  eexists. split; [reflexivity|]. simpl. rewrite Hsame. simpl.
  rewrite Hreact. simpl.
  repeat (split; [done|]). left. split; [done|].
  exists canvas, results. by rewrite Hrank.
Qed.

(** ** A session, end to end

    A photo is chosen and analysed; the classifier answers fish, cat, dog
    and the page shows cat; the user rejects cat and is shown dog, rejects
    dog and gets the form; the label typed in is logged, and the reload set
    by the submission clears the session and keeps the log. *)
Example session_walkthrough :
  let run (m : Async unit) (w : World) : World := (m w).2 in
  let E := answering_generator in
  let file := {| file_name := "photo.png"; file_dataURL := "data:image/png" |} in
  let w1 := run (@choose_file E (Some file)) photo_world in
  let w2 := run (on_event (@analyzeImage E)) w1 in
  let w3 := run (on_event (@handleWrongFeedback E)) w2 in
  let w4 := run (on_event (@handleWrongFeedback E)) w3 in
  let w5 := run (setManualValue " Book ") w4 in
  let w6 := run (on_event (@handleManualSubmit E)) w5 in
  let w7 := run (run_callback location_reload) w6 in
  view (react w1) = Idle ∧
  predictions (react w2) = cat_dog_fish ∧ status (react w2) = READY ∧
  view (react w2) = Reviewing ∧ insight (react w2) = Some "Nice." ∧
  view (react w3) = Reviewing ∧ predictionIndex (react w3) = 1 ∧
  view (react w4) = ManualEntry ∧
  view (react w6) = Finalized ∧
  feedbackHistory (react w6) =
    [ {| timestamp := 0; originalLabel := "dog"; correctedLabel := " Book ";
         type := CORRECTION |} ] ∧
  timers w6 = [(4000%Z, location_reload)] ∧
  view (react w7) = Idle ∧
  feedbackHistory (react w7) = feedbackHistory (react w6).
Proof. vm_compute. repeat split. Qed.

(** * Further properties *)

(** ** The retrying caller, for every policy *)

Lemma backoff_delays_powers (k : nat) (d : Z) :
  backoff_delays k d = (λ i : nat, d * 2 ^ Z.of_nat i)%Z <$> seq 0 k.
Proof.
  revert d. induction k as [|k IH]; intros d; [done|].
  cbn [backoff_delays seq fmap list_fmap]. f_equal.
  - simpl. lia.
  - rewrite IH, <- fmap_S_seq, <- list_fmap_compose.
    apply list_fmap_ext. intros _ i _. simpl.
    rewrite Nat2Z.inj_succ, Z.pow_succ_r by lia. lia.
Qed.

Lemma backoff_delays_total (k : nat) (d : Z) :
  foldr Z.add 0%Z (backoff_delays k d) = (d * (2 ^ Z.of_nat k - 1))%Z.
Proof.
  revert d. induction k as [|k IH]; intros d.
  - simpl. lia.
  - cbn [backoff_delays foldr]. rewrite IH.
    rewrite Nat2Z.inj_succ, Z.pow_succ_r by lia. lia.
Qed.

(** Every run of [callWithRetry] over the generator is some number [k] of
    waits, at most [retries], between [k + 1] calls. *)
Lemma callWithRetry_run {T} (script : nat → Outcome T) (retries : nat) (d : Z)
    (w : World) :
  ∃ k, k ≤ retries ∧
       (callWithRetry (generator_op script) retries d w).2
       = upd_generateCalls (S (generateCalls w + k)) (after_retries k retries d w) ∧
       (callWithRetry (generator_op script) retries d w).1
       = script (generateCalls w + k).
Proof.
  revert d w. induction retries as [|r IH]; intros d w.
  - exists 0. split; [done|].
    rewrite callWithRetry_unfold, generator_op_eq, Nat.add_0_r.
    by destruct (script (generateCalls w)).
  - rewrite callWithRetry_unfold, generator_op_eq.
    destruct (script (generateCalls w)) as [v|e] eqn:Hs.
    { exists 0. split; [lia|]. by rewrite Nat.add_0_r, Hs. }
    destruct (isRateLimit e).
    2:{ exists 0. split; [lia|]. by rewrite Nat.add_0_r, Hs. }
    destruct (IH (d * 2)%Z
      (retry_wait d (S r) (upd_generateCalls (S (generateCalls w)) w)))
      as (k & Hk & Hw & Ho).
    exists (S k). split; [lia|]. rewrite Hw, Ho. cbn [after_retries].
    replace (S r - 1) with r by lia. simpl.
    by replace (S (generateCalls w + k)) with (generateCalls w + S k) by lia.
Qed.

Lemma after_retries_frame (k retries : nat) (d : Z) (w : World) :
  generator_frame w (after_retries k retries d w).
Proof.
  revert retries d w. induction k as [|k IH]; intros retries d w; [done|].
  cbn [after_retries].
  destruct (IH (retries - 1) (d * 2)%Z
    (retry_wait d retries (upd_generateCalls (S (generateCalls w)) w)))
    as (? & ? & ? & ? & ? & ? & ? & ? & ?).
  by repeat split.
Qed.

(** X1. For every number of retries and every initial delay: a call that is
    rate-limited [k] times, [k] at most the retries, and then answers,
    returns the answer after [k + 1] calls and the waits [d], [2 d], ...,
    [2^(k-1) d], that is [d (2^k - 1)] in all, as long as each of these
    delays is one that the timer waits as asked (from 0 to 2^31 - 1 ms). *)
Theorem callWithRetry_backoff_schedule {T} (script : nat → Outcome T)
    (k retries : nat) (d : Z) (w : World) (v : T) :
  k ≤ retries →
  Forall timer_range (backoff_delays k d) →
  (∀ i, i < k →
     ∃ e, script (generateCalls w + i) = Throw e ∧ isRateLimit e = true) →
  script (generateCalls w + k) = Return v →
  ∃ w', callWithRetry (generator_op script) retries d w = (Return v, w') ∧
        slept w' = slept w ++ ((λ i : nat, d * 2 ^ Z.of_nat i)%Z <$> seq 0 k) ∧
        now w' = (now w + d * (2 ^ Z.of_nat k - 1))%Z ∧
        generateCalls w' = generateCalls w + k + 1.
Proof.
  intros Hk _ Hfail Hok. eexists. split.
  - by apply (callWithRetry_recovers script k).
  - cbn [slept now generateCalls upd_generateCalls].
    rewrite after_retries_slept, after_retries_now.
    rewrite backoff_delays_powers, <- backoff_delays_powers.
    rewrite backoff_delays_total, backoff_delays_powers.
    repeat split. lia.
Qed.

Lemma callWithRetry_backoff_schedule_witness :
  ∃ w', callWithRetry (generator_op flaky_script) 5 100 blank_world
        = (Return "done", w') ∧
        slept w' = [100; 200; 400]%Z ∧ now w' = 700%Z ∧ generateCalls w' = 4.
Proof.
  destruct (callWithRetry_backoff_schedule flaky_script 3 5 100 blank_world "done")
    as (w' & Hrun & Hslept & Hnow & Hcalls).
  - lia.
  - repeat constructor; unfold timer_range; lia.
  - intros i Hi. exists quota_error.
    destruct i as [|[|[|i]]]; [split; reflexivity.. | lia].
  - reflexivity.
  - exists w'. split; [exact Hrun|]. rewrite Hslept, Hnow, Hcalls. done.
Defined.

Lemma callWithRetry_effort {T} (script : nat → Outcome T)
    (retries : nat) (d : Z) (w : World) :
  (0 ≤ d)%Z →
  ∃ k, k ≤ retries ∧
       generateCalls (callWithRetry (generator_op script) retries d w).2
       = generateCalls w + k + 1 ∧
       slept (callWithRetry (generator_op script) retries d w).2
       = slept w ++ backoff_delays k d ∧
       now (callWithRetry (generator_op script) retries d w).2
       = (now w + d * (2 ^ Z.of_nat k - 1))%Z ∧
       (now w ≤ now (callWithRetry (generator_op script) retries d w).2
        ≤ now w + d * (2 ^ Z.of_nat retries - 1))%Z.
Proof.
  intros Hd.
  destruct (callWithRetry_run script retries d w) as (k & Hk & -> & _).
  exists k. split; [done|].
  cbn [slept now generateCalls upd_generateCalls].
  rewrite after_retries_slept, after_retries_now, backoff_delays_total.
  split; [lia|]. split; [done|]. split; [done|].
  assert (1 ≤ 2 ^ Z.of_nat k ≤ 2 ^ Z.of_nat retries)%Z as Hpow.
  { split; [apply (Z.pow_le_mono_r 2 0); lia | apply Z.pow_le_mono_r; lia]. }
  nia.
Qed.

Lemma callWithRetry_frame {T} (script : nat → Outcome T)
    (retries : nat) (d : Z) (w : World) :
  generator_frame w (callWithRetry (generator_op script) retries d w).2.
Proof.
  destruct (callWithRetry_run script retries d w) as (k & _ & -> & _).
  destruct (after_retries_frame k retries d w)
    as (? & ? & ? & ? & ? & ? & ? & ? & ?).
  by repeat split.
Qed.

(** X2. Whatever the generator answers, [callWithRetry] with [retries]
    retries and a delay [d >= 0] makes at least one call and at most
    [retries + 1], waits exactly the delays [d], [2 d], ... between them,
    and so never waits more than [d (2^retries - 1)] in all, as long as
    each of the delays [d], ..., [2^(retries-1) d] is one that the timer
    waits as asked (from 0 to 2^31 - 1 ms). *)
Theorem callWithRetry_bounded_effort {T} (script : nat → Outcome T)
    (retries : nat) (d : Z) (w : World) :
  (0 ≤ d)%Z →
  Forall timer_range (backoff_delays retries d) →
  let w' := (callWithRetry (generator_op script) retries d w).2 in
  ∃ k, k ≤ retries ∧
       generateCalls w' = generateCalls w + k + 1 ∧
       slept w' = slept w ++ backoff_delays k d ∧
       now w' = (now w + d * (2 ^ Z.of_nat k - 1))%Z ∧
       (now w ≤ now w' ≤ now w + d * (2 ^ Z.of_nat retries - 1))%Z.
Proof. intros Hd _ w'. by apply callWithRetry_effort. Qed.

Lemma callWithRetry_bounded_effort_witness :
  let w' := (callWithRetry (generator_op (T:=string) (λ _, Throw quota_error))
               2 500 blank_world).2 in
  generateCalls w' = 3 ∧ slept w' = [500; 1000]%Z ∧ now w' = 1500%Z.
Proof.
  cbv zeta.
  destruct (callWithRetry_bounded_effort (T:=string) (λ _, Throw quota_error)
              2 500 blank_world) as (k & Hk & Hcalls & Hslept & Hnow & _);
    [lia | repeat constructor; unfold timer_range; lia |].
  assert (k = 2) as ->.
  { change (3 = 0 + k + 1) in Hcalls. lia. }
  rewrite Hslept, Hnow, Hcalls. done.
Defined.

(** X3. An error that is no rate-limit signal ends the call even when
    retries are left: after [k] rate-limited calls it is thrown as it is,
    with the [k] waits made so far and no further call. *)
Theorem callWithRetry_stops_at_hard_error {T} (script : nat → Outcome T)
    (k retries : nat) (d : Z) (w : World) (e : JsError) :
  k ≤ retries →
  (∀ i, i < k →
     ∃ e, script (generateCalls w + i) = Throw e ∧ isRateLimit e = true) →
  script (generateCalls w + k) = Throw e →
  isRateLimit e = false →
  ∃ w', callWithRetry (generator_op script) retries d w = (Throw e, w') ∧
        slept w' = slept w ++ backoff_delays k d ∧
        generateCalls w' = generateCalls w + k + 1.
Proof.
  intros Hk Hfail He Hhard.
  rewrite (callWithRetry_rate_limited script k) by done.
  rewrite callWithRetry_unfold, generator_op_eq.
  rewrite after_retries_generateCalls, He, Hhard.
  eexists. split; [by destruct (retries - k)|].
  cbn [slept generateCalls upd_generateCalls].
  rewrite after_retries_slept. split; [done | lia].
Qed.

Lemma callWithRetry_stops_at_hard_error_witness :
  ∃ w', callWithRetry (generator_op limited_then_refusing)
          default_retries default_initialDelay blank_world
        = (Throw auth_error, w') ∧
        slept w' = [2000; 4000]%Z ∧ generateCalls w' = 3.
Proof.
  destruct (callWithRetry_stops_at_hard_error limited_then_refusing 2
              default_retries default_initialDelay blank_world auth_error)
    as (w' & Hrun & Hslept & Hcalls).
  - unfold default_retries. lia.
  - intros i Hi. exists quota_error.
    destruct i as [|[|i]]; [split; reflexivity.. | lia].
  - reflexivity.
  - reflexivity.
  - exists w'. split; [exact Hrun|]. rewrite Hslept, Hcalls. done.
Defined.

(** ** The fetchers and the generator *)

Section FetcherEffort.
Context `{External}.
Implicit Types (w : World) (label : string).

(** Both fetchers are one request sent through [callWithRetry]; the error
    is logged on the console when the fallback is used. *)
Lemma fetch_world (label : string) (w : World) :
  ∃ w1, w1 = (callWithRetry (ai_models_generateContent (insight_request label))
                default_retries default_initialDelay w).2 ∧
        generateCalls (getInsightForClass label w).2 = generateCalls w1 ∧
        slept (getInsightForClass label w).2 = slept w1 ∧
        now (getInsightForClass label w).2 = now w1 ∧
        generator_frame w1 (getInsightForClass label w).2.
Proof.
  eexists. split; [reflexivity|]. rewrite getInsightForClass_eq.
  by destruct (callWithRetry _ _ _ w) as [[response|e] w1].
Qed.

Lemma feedback_world (label : string) (isCorrect : bool) (w : World) :
  ∃ w1, w1 = (callWithRetry
                (ai_models_generateContent (feedback_request label isCorrect))
                default_retries default_initialDelay w).2 ∧
        generateCalls (processFeedback label isCorrect w).2 = generateCalls w1 ∧
        slept (processFeedback label isCorrect w).2 = slept w1 ∧
        now (processFeedback label isCorrect w).2 = now w1 ∧
        generator_frame w1 (processFeedback label isCorrect w).2.
Proof.
  eexists. split; [reflexivity|]. rewrite processFeedback_eq.
  by destruct (callWithRetry _ _ _ w) as [[response|e] w1].
Qed.

Lemma generator_frame_trans (w1 w2 w3 : World) :
  generator_frame w1 w2 → generator_frame w2 w3 → generator_frame w1 w3.
Proof.
  intros (? & ? & ? & ? & ? & ? & ? & ? & ?) (? & ? & ? & ? & ? & ? & ? & ? & ?).
  repeat split; congruence.
Qed.

Lemma getInsightForClass_frame label w :
  generator_frame w (getInsightForClass label w).2.
Proof.
  destruct (fetch_world label w) as (w1 & -> & _ & _ & _ & Hframe).
  eapply generator_frame_trans; [|exact Hframe]. apply callWithRetry_frame.
Qed.

Lemma processFeedback_frame label isCorrect w :
  generator_frame w (processFeedback label isCorrect w).2.
Proof.
  destruct (feedback_world label isCorrect w) as (w1 & -> & _ & _ & _ & Hframe).
  eapply generator_frame_trans; [|exact Hframe]. apply callWithRetry_frame.
Qed.

Lemma getInsightForClass_effort label w :
  generateCalls w < generateCalls (getInsightForClass label w).2
                  ≤ generateCalls w + 4 ∧
  (now w ≤ now (getInsightForClass label w).2 ≤ now w + 14000)%Z.
Proof.
  destruct (fetch_world label w) as (w1 & -> & -> & _ & -> & _).
  destruct (callWithRetry_effort
              (λ n, generateContent n (insight_request label))
              default_retries default_initialDelay w)
    as (k & Hk & Hcalls & _ & _ & Hnow); [done|].
  unfold ai_models_generateContent. rewrite Hcalls.
  unfold default_retries, default_initialDelay in *.
  change (2 ^ Z.of_nat 3)%Z with 8%Z in Hnow. lia.
Qed.

Lemma processFeedback_effort label isCorrect w :
  generateCalls w < generateCalls (processFeedback label isCorrect w).2
                  ≤ generateCalls w + 4 ∧
  (now w ≤ now (processFeedback label isCorrect w).2 ≤ now w + 14000)%Z.
Proof.
  destruct (feedback_world label isCorrect w) as (w1 & -> & -> & _ & -> & _).
  destruct (callWithRetry_effort
              (λ n, generateContent n (feedback_request label isCorrect))
              default_retries default_initialDelay w)
    as (k & Hk & Hcalls & _ & _ & Hnow); [done|].
  unfold ai_models_generateContent. rewrite Hcalls.
  unfold default_retries, default_initialDelay in *.
  change (2 ^ Z.of_nat 3)%Z with 8%Z in Hnow. lia.
Qed.

(** The generator answers the first call: the fetch is that one call. *)
Lemma getInsightForClass_first_answer label w response :
  generateContent (generateCalls w) (insight_request label) = Return response →
  getInsightForClass label w
  = (Return (text response), upd_generateCalls (S (generateCalls w)) w).
Proof.
  intros Hans. rewrite getInsightForClass_eq.
  unfold ai_models_generateContent.
  by rewrite callWithRetry_unfold, generator_op_eq, Hans.
Qed.

Lemma processFeedback_first_answer label isCorrect w response :
  generateContent (generateCalls w) (feedback_request label isCorrect)
  = Return response →
  processFeedback label isCorrect w
  = (Return (text response), upd_generateCalls (S (generateCalls w)) w).
Proof.
  intros Hans. rewrite processFeedback_eq.
  unfold ai_models_generateContent.
  by rewrite callWithRetry_unfold, generator_op_eq, Hans.
Qed.

End FetcherEffort.

(** X4. A retried call to the generator, and so each of the two fetchers,
    changes nothing but the clock, the log of waits, the console and the
    call counter of the generator: the component state, [localStorage], the
    timers, the refs and the classifier are as before. *)
Theorem generator_calls_change_only_their_own_state `{External}
    (label : string) (isCorrect : bool) (w : World) :
  (∀ T (script : nat → Outcome T) retries d,
     generator_frame w (callWithRetry (generator_op script) retries d w).2) ∧
  generator_frame w (getInsightForClass label w).2 ∧
  generator_frame w (processFeedback label isCorrect w).2.
Proof.
  split; [intros; apply callWithRetry_frame|].
  split; [apply getInsightForClass_frame | apply processFeedback_frame].
Qed.

(** X5. Each fetch costs at least one call to the generator and at most
    four, and at most 14000 ms of waiting, whatever the generator does. *)
Theorem fetchers_bounded_effort `{External} (label : string) (isCorrect : bool)
    (w : World) :
  (generateCalls w < generateCalls (getInsightForClass label w).2
                   ≤ generateCalls w + 4 ∧
   (now w ≤ now (getInsightForClass label w).2 ≤ now w + 14000)%Z) ∧
  (generateCalls w < generateCalls (processFeedback label isCorrect w).2
                   ≤ generateCalls w + 4 ∧
   (now w ≤ now (processFeedback label isCorrect w).2 ≤ now w + 14000)%Z).
Proof.
  split; [apply getInsightForClass_effort | apply processFeedback_effort].
Qed.

(** X6. When the generator answers, at once or after up to three
    rate-limited calls, each fetcher returns the text of that answer as it
    is, after the waits of the retries; an answer that carries no text gives
    no text (undefined), not the fallback. *)
Theorem fetchers_return_the_answer `{External} (label : string)
    (isCorrect : bool) (w : World) (k : nat) (response : GenerateContentResponse) :
  k ≤ 3 →
  ((∀ i, i < k →
      ∃ e, generateContent (generateCalls w + i) (insight_request label) = Throw e
           ∧ isRateLimit e = true) →
   generateContent (generateCalls w + k) (insight_request label)
   = Return response →
   ∃ w', getInsightForClass label w = (Return (text response), w') ∧
         slept w' = slept w ++ backoff_delays k 2000 ∧
         generateCalls w' = generateCalls w + k + 1) ∧
  ((∀ i, i < k →
      ∃ e, generateContent (generateCalls w + i)
             (feedback_request label isCorrect) = Throw e
           ∧ isRateLimit e = true) →
   generateContent (generateCalls w + k) (feedback_request label isCorrect)
   = Return response →
   ∃ w', processFeedback label isCorrect w = (Return (text response), w') ∧
         slept w' = slept w ++ backoff_delays k 2000 ∧
         generateCalls w' = generateCalls w + k + 1).
Proof.
  intros Hk. split; intros Hfail Hok.
  - rewrite getInsightForClass_eq. unfold ai_models_generateContent.
    rewrite (callWithRetry_recovers _ k default_retries default_initialDelay
               w response) by done.
    eexists. split; [reflexivity|].
    cbn [slept generateCalls upd_generateCalls].
    rewrite after_retries_slept. split; [done | lia].
  - rewrite processFeedback_eq. unfold ai_models_generateContent.
    rewrite (callWithRetry_recovers _ k default_retries default_initialDelay
               w response) by done.
    eexists. split; [reflexivity|].
    cbn [slept generateCalls upd_generateCalls].
    rewrite after_retries_slept. split; [done | lia].
Qed.

Lemma fetchers_return_the_answer_witness :
  (∃ w', @getInsightForClass silent_generator "Book" blank_world
         = (Return None, w') ∧ slept w' = [] ∧ generateCalls w' = 1) ∧
  (∃ w', @processFeedback limited_then_answering "Book" true blank_world
         = (Return (Some "Nice."), w') ∧
         slept w' = [2000; 4000]%Z ∧ generateCalls w' = 3).
Proof.
  split.
  - destruct (@fetchers_return_the_answer silent_generator "Book" true
                blank_world 0 {| text := None |}) as [Hinsight _]; [lia|].
    apply Hinsight; [intros i Hi; lia | reflexivity].
  - destruct (@fetchers_return_the_answer limited_then_answering "Book" true
                blank_world 2 (reply "Nice.")) as [_ Hfeedback]; [lia|].
    apply Hfeedback; [|reflexivity].
    intros i Hi. exists quota_error.
    destruct i as [|[|i]]; [split; reflexivity.. | lia].
Defined.

(** ** The frame normaliser: the crop and the scratch canvas *)

Lemma int_2 : int 2 = (1 + 1)%Qc.
Proof. by apply Qc_is_canon. Qed.

Lemma two_nonzero : (1 + 1)%Qc ≠ 0%Qc.
Proof. intros H2. apply (f_equal Qcanon.this) in H2. by vm_compute in H2. Qed.

Lemma half_nonneg (x : Qc) : (0 ≤ x → 0 ≤ x / int 2)%Qc.
Proof.
  intros Hx. unfold Qcdiv. apply Qcmult_nonneg_nonneg; [done|].
  by vm_compute.
Qed.

Lemma N2Qc_nonneg (n : N) : (0 ≤ N2Qc n)%Qc.
Proof.
  unfold N2Qc, int, Qcle. cbn [this Q2Qc].
  rewrite (Qred_correct (inject_Z (Z.of_N n))).
  unfold Qle. cbn [Qnum Qden inject_Z]. simpl. lia.
Qed.

Lemma select_source_nonneg (s : AppState) (w : World) source sw sh :
  select_source s w = (source, sw, sh) → (0 ≤ sw)%Qc ∧ (0 ≤ sh)%Qc.
Proof.
  unfold select_source. intros Hsel.
  destruct (inputSource s), (videoRef w), (imageElementRef w);
    injection Hsel as <- <- <-;
    rewrite ?int_0; split; first [apply N2Qc_nonneg | apply Qcle_refl].
Qed.

(** The centred square of a [sw] by [sh] source. *)
Lemma centred_crop (sw sh : Qc) :
  (0 ≤ sw)%Qc → (0 ≤ sh)%Qc →
  let size := Math_min sw sh in
  let offsetX := ((sw - size) / int 2)%Qc in
  let offsetY := ((sh - size) / int 2)%Qc in
  (size ≤ sw)%Qc ∧ (size ≤ sh)%Qc ∧ (size = sw ∨ size = sh) ∧
  (0 ≤ offsetX)%Qc ∧ (0 ≤ offsetY)%Qc ∧
  (offsetX + size + offsetX)%Qc = sw ∧ (offsetY + size + offsetY)%Qc = sh ∧
  (offsetX = 0%Qc ∨ offsetY = 0%Qc).
Proof.
  intros Hsw Hsh size offsetX offsetY. subst size offsetX offsetY.
  unfold Math_min. pose proof two_nonzero as H2.
  destruct (decide (sw ≤ sh)%Qc) as [Hle|Hgt].
  - split; [apply Qcle_refl|]. split; [done|]. split; [by left|].
    assert (((sw - sw) / int 2)%Qc = 0%Qc) as -> by (rewrite int_2; by field).
    split; [apply Qcle_refl|].
    split; [apply half_nonneg; by apply Qcle_minus_iff in Hle|].
    split; [ring|]. split; [rewrite int_2; by field | by left].
  - apply Qcnot_le_lt, Qclt_le_weak in Hgt.
    split; [done|]. split; [apply Qcle_refl|]. split; [by right|].
    assert (((sh - sh) / int 2)%Qc = 0%Qc) as -> by (rewrite int_2; by field).
    split; [apply half_nonneg; by apply Qcle_minus_iff in Hgt|].
    split; [apply Qcle_refl|].
    split; [rewrite int_2; by field|]. split; [ring | by right].
Qed.

(** X7. Whenever [getProcessedCanvas] gives a canvas, the square it drew lies
    inside the source and in its middle: the side is the smaller of the two
    source sizes and is positive, the offsets are not negative, the margins
    on both sides are equal, and one of the two offsets is 0. *)
Theorem getProcessedCanvas_crop_inside_source (s : AppState) (w : World)
    (canvas : HTMLCanvasElement) :
  (getProcessedCanvas s w).1 = Return (Some canvas) →
  ∃ source sw sh offsetX offsetY size ctm,
    select_source s w = (Some source, sw, sh) ∧
    drawn canvas =
      [ClearRect (int 0) (int 0) (int 224) (int 224) identity_matrix;
       DrawImage source offsetX offsetY size size
         (int 0) (int 0) (int 224) (int 224) ctm] ∧
    (0 < size)%Qc ∧ (size ≤ sw)%Qc ∧ (size ≤ sh)%Qc ∧
    (size = sw ∨ size = sh) ∧
    (0 ≤ offsetX)%Qc ∧ (0 ≤ offsetY)%Qc ∧
    (offsetX + size + offsetX)%Qc = sw ∧ (offsetY + size + offsetY)%Qc = sh ∧
    (offsetX = 0%Qc ∨ offsetY = 0%Qc).
Proof.
  intros Hsome.
  destruct (select_source s w) as [[source sw] sh] eqn:Hsel.
  pose proof (getProcessedCanvas_unavailable s w source sw sh Hsel) as [_ Hnone].
  destruct (processingCanvasRef w) as [c|] eqn:Hc;
    [|rewrite Hnone in Hsome by (by left); done].
  destruct (has_context_2d c) eqn:Hctx;
    [|rewrite Hnone in Hsome by (right; left; eauto); done].
  destruct source as [source|];
    [|rewrite Hnone in Hsome by (by right; right; left); done].
  destruct (decide (sw = int 0)) as [Hsw|Hsw];
    [rewrite Hnone in Hsome by (by right; right; right; left); done|].
  destruct (decide (sh = int 0)) as [Hsh|Hsh];
    [rewrite Hnone in Hsome by (by right; right; right; right); done|].
  destruct (getProcessedCanvas_draws s w c source sw sh Hc Hctx Hsel Hsw Hsh)
    as (canvas' & Hrun & _ & _ & Hdrawn).
  rewrite Hrun in Hsome. injection Hsome as <-.
  destruct (select_source_nonneg s w _ _ _ Hsel) as [Hsw0 Hsh0].
  destruct (centred_crop sw sh Hsw0 Hsh0)
    as (Hx & Hy & Hside & Hox & Hoy & Hmx & Hmy & Hzero).
  do 7 eexists. split; [reflexivity|]. split; [exact Hdrawn|].
  repeat (split; [try done|]); [|done].
  rewrite int_0 in Hsw, Hsh.
  destruct Hside as [-> | ->].
  - by destruct (Qcle_lt_or_eq _ _ Hsw0).
  - by destruct (Qcle_lt_or_eq _ _ Hsh0).
Qed.

Lemma getProcessedCanvas_crop_inside_source_witness :
  ∃ canvas offsetX offsetY size ctm,
    (getProcessedCanvas (react photo_world) photo_world).1
    = Return (Some canvas) ∧
    drawn canvas =
      [ClearRect (int 0) (int 0) (int 224) (int 224) identity_matrix;
       DrawImage (ImageSource photo) offsetX offsetY size size
         (int 0) (int 0) (int 224) (int 224) ctm] ∧
    (0 < size)%Qc ∧ (offsetX + size + offsetX)%Qc = int 300 ∧
    (offsetY + size + offsetY)%Qc = int 200.
Proof.
  destruct (getProcessedCanvas (react photo_world) photo_world)
    as [[[canvas|]|e] w'] eqn:Hrun; try (vm_compute in Hrun; discriminate).
  destruct (getProcessedCanvas_crop_inside_source (react photo_world)
              photo_world canvas)
    as (source & sw & sh & ox & oy & size & ctm & Hsel & Hdrawn & Hpos & _ & _
        & _ & _ & _ & Hmx & Hmy & _).
  - by rewrite Hrun.
  - injection Hsel as <- <- <-.
    exists canvas, ox, oy, size, ctm. done.
Defined.

(** X8. [getProcessedCanvas] can be run again and again on the same scratch
    canvas: a second run gives the same result and the same canvas as the
    first, so the mirror transformation and the drawing operations of one
    run do not add up with those of the next. *)
Theorem getProcessedCanvas_idempotent (s : AppState) (w : World) :
  getProcessedCanvas s (getProcessedCanvas s w).2 = getProcessedCanvas s w.
Proof.
  unfold getProcessedCanvas.
  destruct (processingCanvasRef w) as [c|] eqn:Hc; [|simpl; by rewrite Hc].
  destruct (has_context_2d c) eqn:Hctx; [|simpl; by rewrite Hc, Hctx].
  assert (∀ c', select_source s (upd_processingCanvasRef c' w)
                = select_source s w) as Hsel by done.
  cbn -[select_source].
  destruct (select_source s w) as [[[source|] sw] sh].
  2:{ cbn -[select_source]. rewrite Hctx. cbn -[select_source].
      by rewrite Hsel. }
  destruct (bool_decide (sw = int 0) || bool_decide (sh = int 0)) eqn:Hzero.
  { cbn -[select_source]. rewrite Hctx. cbn -[select_source].
    by rewrite Hsel, Hzero. }
  destruct (shouldFlip s); cbn -[select_source]; rewrite Hctx;
    cbn -[select_source]; by rewrite Hsel, Hzero.
Qed.

(** X9. [getProcessedCanvas] touches nothing but the scratch canvas.  A
    canvas that has a context is resized to 224 by 224 in every case: when
    no frame can be taken from the source, the canvas is left blank, with
    the identity transformation. *)
Theorem getProcessedCanvas_touches_only_the_canvas (s : AppState) (w : World) :
  let w' := (getProcessedCanvas s w).2 in
  canvas_frame w w' ∧
  (processingCanvasRef w = None → processingCanvasRef w' = None) ∧
  (∀ c, processingCanvasRef w = Some c → has_context_2d c = false →
     processingCanvasRef w' = Some c) ∧
  (∀ c, processingCanvasRef w = Some c → has_context_2d c = true →
     ∃ c', processingCanvasRef w' = Some c' ∧
           width c' = 224%Z ∧ height c' = 224%Z ∧ has_context_2d c' = true ∧
           ((getProcessedCanvas s w).1 = Return None →
            drawn c' = [] ∧ transform c' = identity_matrix)).
Proof.
  unfold getProcessedCanvas.
  destruct (processingCanvasRef w) as [c|] eqn:Hc.
  2:{ cbn [snd fst]. rewrite Hc. by repeat split. }
  destruct (has_context_2d c) eqn:Hctx.
  2:{ cbn [negb snd fst]. rewrite Hc. repeat split; congruence. }
  cbn [negb].
  destruct (select_source s w) as [[[source|] sw] sh];
    [destruct (bool_decide (sw = int 0) || bool_decide (sh = int 0));
     [|destruct (shouldFlip s)]|];
    cbn [snd fst]; (split; [done|]); (split; [done|]);
    (split; [intros c0 [= <-]; congruence|]);
    intros c0 [= <-] _; eexists; (split; [reflexivity|]);
    (split; [done|]); (split; [done|]); (split; [done|]); done.
Qed.

(** ** An analysis, case by case *)

Lemma getProcessedCanvas_upd_react (s a : AppState) (w : World) :
  getProcessedCanvas s (upd_react a w)
  = ((getProcessedCanvas s w).1, upd_react a (getProcessedCanvas s w).2).
Proof.
  unfold getProcessedCanvas. cbn -[select_source].
  assert (select_source s (upd_react a w) = select_source s w) as -> by done.
  destruct (processingCanvasRef w) as [c|]; [|done].
  destruct (has_context_2d c); [|done]. cbn -[select_source].
  destruct (select_source s w) as [[[source|] sw] sh]; [|done].
  by destruct (bool_decide (sw = int 0) || bool_decide (sh = int 0)).
Qed.

Lemma getProcessedCanvas_frame (s : AppState) (w : World) :
  canvas_frame w (getProcessedCanvas s w).2.
Proof.
  unfold getProcessedCanvas.
  destruct (processingCanvasRef w) as [c|]; [|by repeat split].
  destruct (has_context_2d c); [|by repeat split]. cbn [negb].
  destruct (select_source s w) as [[[source|] sw] sh]; [|by repeat split].
  by destruct (bool_decide (sw = int 0) || bool_decide (sh = int 0)).
Qed.

Lemma getProcessedCanvas_returns (s : AppState) (w : World) :
  ∃ r, (getProcessedCanvas s w).1 = Return r.
Proof.
  destruct (getProcessedCanvas_react s w) as (r & w' & Hrun & _).
  exists r. by rewrite Hrun.
Qed.

(** The answer of a retried call depends on the world through the call
    counter only. *)
Lemma callWithRetry_answer_by_counter {T} (script : nat → Outcome T)
    (retries : nat) (d : Z) (w1 w2 : World) :
  generateCalls w1 = generateCalls w2 →
  (callWithRetry (generator_op script) retries d w1).1
  = (callWithRetry (generator_op script) retries d w2).1.
Proof.
  revert d w1 w2. induction retries as [|r IH]; intros d w1 w2 Hcalls;
    rewrite !callWithRetry_unfold, !generator_op_eq, Hcalls;
    destruct (script (generateCalls w2)) as [v|e]; try done.
  destruct (isRateLimit e); [|done]. by apply IH.
Qed.

Lemma getInsightForClass_answer_by_counter `{External} (label : string)
    (w1 w2 : World) :
  generateCalls w1 = generateCalls w2 →
  (getInsightForClass label w1).1 = (getInsightForClass label w2).1.
Proof.
  intros Hcalls. rewrite !getInsightForClass_eq.
  pose proof (callWithRetry_answer_by_counter
    (λ n, generateContent n (insight_request label))
    default_retries default_initialDelay w1 w2 Hcalls) as Hans.
  unfold ai_models_generateContent.
  destruct (callWithRetry _ _ _ w1) as [[r1|e1] w1'],
    (callWithRetry _ _ _ w2) as [[r2|e2] w2']; simpl in *; congruence.
Qed.

Lemma processFeedback_answer_by_counter `{External} (label : string)
    (isCorrect : bool) (w1 w2 : World) :
  generateCalls w1 = generateCalls w2 →
  (processFeedback label isCorrect w1).1 = (processFeedback label isCorrect w2).1.
Proof.
  intros Hcalls. rewrite !processFeedback_eq.
  pose proof (callWithRetry_answer_by_counter
    (λ n, generateContent n (feedback_request label isCorrect))
    default_retries default_initialDelay w1 w2 Hcalls) as Hans.
  unfold ai_models_generateContent.
  destruct (callWithRetry _ _ _ w1) as [[r1|e1] w1'],
    (callWithRetry _ _ _ w2) as [[r2|e2] w2']; simpl in *; congruence.
Qed.

(** The first candidate of a ranked list is the most probable prediction. *)
Lemma rank_top (results : list Prediction) (top : Prediction)
    (rest : list Prediction) :
  rank results = top :: rest →
  top ∈ results ∧ ∀ p, p ∈ results → (probability p ≤ probability top)%Qc.
Proof.
  intros Hrank. pose proof (rank_sorted results) as Hsorted.
  pose proof (rank_Permutation results) as Hperm.
  rewrite Hrank in Hsorted, Hperm. split.
  - rewrite <- Hperm. left.
  - intros p Hp. rewrite <- Hperm in Hp.
    apply elem_of_cons in Hp as [->|Hp]; [apply Qcle_refl|].
    apply StronglySorted_inv in Hsorted as [_ Hall].
    rewrite Forall_forall in Hall. by apply Hall.
Qed.

Lemma rank_nil (results : list Prediction) : rank results = [] → results = [].
Proof.
  intros Hrank. pose proof (rank_Permutation results) as Hperm.
  rewrite Hrank in Hperm. symmetry. by apply Permutation_nil_l.
Qed.

(** [analyzeImage] with a model, as one case analysis. *)
Lemma analyzeImage_eq `{External} (w : World) :
  modelRef w = true →
  on_event analyzeImage w =
  let started := analysis_started (react w) in
  let w2 := upd_react started (getProcessedCanvas (react w) w).2 in
  match (getProcessedCanvas (react w) w).1 with
  | Return None =>
      (Return tt, analysis_failed (new_Error "Input source unavailable") w2)
  | Return (Some canvas) =>
      match model_predict (predictCalls w) canvas with
      | Throw err =>
          (Return tt,
           analysis_failed err (upd_predictCalls (S (predictCalls w)) w2))
      | Return results =>
          let w3 := upd_react (with_predictions (rank results) started)
                      (upd_predictCalls (S (predictCalls w)) w2) in
          let unrecognized :=
            (Return tt,
             upd_react
               (with_status READY
                  (with_insight (Some "Subject unrecognized.") (react w3))) w3) in
          match rank results with
          | top :: _ =>
              if bool_decide (threshold < probability top)%Qc then
                let w4 := upd_react (with_isInsightLoading true (react w3)) w3 in
                match getInsightForClass (className top) w4 with
                | (Return r, w5) =>
                    (Return tt,
                     upd_react
                       (with_status READY
                          (with_isInsightLoading false
                             (with_insight r (react w5)))) w5)
                | (Throw err, w5) => (Return tt, analysis_failed err w5)
                end
              else unrecognized
          | [] => unrecognized
          end
      end
  | Throw err => (Return tt, analysis_failed err w2)
  end.
Proof.
  intros Hmodel.
  unfold on_event, analyzeImage, resetFeedback, modelRef_predict, scripted,
    setStatus, setPredictions, setPredictionIndex, setIsManualInput,
    setManualValue, setFeedbackGiven, setFeedbackResponse, setInsight,
    setIsInsightLoading, setError.
  unfold_async. rewrite Hmodel. cbn [negb].
  match goal with
  | |- context [getProcessedCanvas (react w) ?x] =>
      change x with (upd_react (analysis_started (react w)) w)
  end.
  rewrite getProcessedCanvas_upd_react.
  pose proof (getProcessedCanvas_frame (react w) w) as Hframe.
  destruct (getProcessedCanvas (react w) w) as [[[canvas|]|err] w2];
    cbn [fst snd] in *; [|done..].
  destruct Hframe as (_ & _ & _ & _ & _ & _ & _ & _ & _ & _ & _ & Hcalls).
  cbn [predictCalls upd_react]. rewrite Hcalls.
  destruct (model_predict (predictCalls w) canvas) as [results|err]; [|done].
  cbv zeta.
  destruct (rank results) as [|top rest]; [lazy; reflexivity|].
  destruct (bool_decide (threshold < probability top)%Qc);
    [|lazy; reflexivity].
  match goal with
  | |- ?lhs = ?rhs =>
      match lhs with
      | context [getInsightForClass (className top) ?x] =>
          match rhs with
          | context [getInsightForClass (className top) ?y] =>
              change y with x;
              destruct (getInsightForClass (className top) x) as [[r|err] w5]
          end
      end
  end; done.
Qed.

Lemma analyzeImage_without_model `{External} (w : World) :
  modelRef w = false → on_event analyzeImage w = (Return tt, w).
Proof.
  intros Hmodel. unfold on_event, analyzeImage. unfold_async.
  by rewrite Hmodel.
Qed.

(** The three parts of [analyzeImage], run one after the other with the
    answers of the classifier and of [getInsightForClass], are
    [analyzeImage]. *)
Lemma analyzeImage_in_parts_eq `{External} (w : World) :
  on_event analyzeImage_in_parts w = on_event analyzeImage w.
Proof.
  destruct (modelRef w) eqn:Hmodel.
  2:{ rewrite analyzeImage_without_model by done.
      unfold on_event, analyzeImage_in_parts, analyzeImage_start.
      unfold_async. by rewrite Hmodel. }
  rewrite analyzeImage_eq by done. cbv zeta.
  unfold on_event, analyzeImage_in_parts, analyzeImage_start,
    analyzeImage_predicted, analyzeImage_insight, analyzeImage_catch,
    resetFeedback, setStatus, setPredictions, setPredictionIndex,
    setIsManualInput, setManualValue, setFeedbackGiven, setFeedbackResponse,
    setInsight, setIsInsightLoading, setError.
  unfold_async. rewrite Hmodel. cbn [negb].
  match goal with
  | |- context [getProcessedCanvas (react w) ?x] =>
      change x with (upd_react (analysis_started (react w)) w)
  end.
  rewrite getProcessedCanvas_upd_react.
  pose proof (getProcessedCanvas_frame (react w) w) as Hframe.
  destruct (getProcessedCanvas (react w) w) as [[[canvas|]|err] w2];
    cbn [fst snd] in *; [|lazy; reflexivity..].
  destruct Hframe as (_ & _ & _ & _ & _ & _ & _ & _ & _ & _ & _ & Hcalls).
  cbn [predictCalls upd_react]. rewrite Hcalls.
  destruct (model_predict (predictCalls w) canvas) as [results|err];
    [|lazy; reflexivity].
  destruct (rank results) as [|top rest]; [lazy; reflexivity|].
  destruct (bool_decide (threshold < probability top)%Qc);
    [|lazy; reflexivity].
  cbn [className].
  match goal with
  | |- ?lhs = ?rhs =>
      match lhs with
      | context [getInsightForClass (className top) ?x] =>
          match rhs with
          | context [getInsightForClass (className top) ?y] =>
              change y with x;
              destruct (getInsightForClass (className top) x) as [[r|err] w5]
          end
      end
  end; lazy; reflexivity.
Qed.

Lemma analyzeImage_summary `{External} (w : World) :
  ∃ w',
    on_event analyzeImage w = (Return tt, w') ∧
    (modelRef w = false → w' = w) ∧
    feedbackHistory (react w') = feedbackHistory (react w) ∧
    localStorage w' = localStorage w ∧ timers w' = timers w ∧
    (modelRef w = true →
       feedback_reset (react w') ∧
       (analysis_ready w w' ∨ analysis_error w w')).
Proof.
  destruct (modelRef w) eqn:Hmodel.
  2:{ exists w. rewrite analyzeImage_without_model by done.
      split; [done|]. split; [done|]. split; [done|]. split; [done|].
      split; [done|]. done. }
  rewrite analyzeImage_eq by done. cbv zeta.
  pose proof (getProcessedCanvas_frame (react w) w)
    as (Hreact & Hstorage & _ & _ & Htimers & _).
  assert (∀ w' : World,
            feedbackHistory (react w') = feedbackHistory (react w) →
            localStorage w' = localStorage w → timers w' = timers w →
            feedback_reset (react w') →
            analysis_ready w w' ∨ analysis_error w w' →
            ∃ w'' : World,
              (Return tt, w') = (Return tt, w'') ∧ (true = false → w'' = w) ∧
              feedbackHistory (react w'') = feedbackHistory (react w) ∧
              localStorage w'' = localStorage w ∧ timers w'' = timers w ∧
              (true = true →
               feedback_reset (react w'') ∧
               (analysis_ready w w'' ∨ analysis_error w w''))) as Hend.
  { intros w' ? ? ? ? ?. exists w'.
    split; [done|]. split; [done|]. split; [done|]. split; [done|].
    split; [done|]. done. }
  destruct (getProcessedCanvas_returns (react w) w) as [[canvas|] Hcanvas];
    rewrite Hcanvas.
  2:{ apply Hend; [| | | |right]; unfold feedback_reset, analysis_error; simpl;
        rewrite ?Hreact, ?Hstorage, ?Htimers; done. }
  destruct (model_predict (predictCalls w) canvas) as [results|err] eqn:Hpredict.
  2:{ apply Hend; [| | | |right]; unfold feedback_reset, analysis_error; simpl;
        rewrite ?Hreact, ?Hstorage, ?Htimers; done. }
  assert (∀ w' : World,
            status (react w') = READY → error (react w') = error (react w) →
            predictions (react w') = rank results →
            analysis_ready w w') as Hready.
  { intros w' ? ? ?. split; [done|]. split; [done|]. by exists canvas, results. }
  destruct (rank results) as [|top rest] eqn:Hrank.
  { apply Hend; [| | | |left; apply Hready]; unfold feedback_reset; simpl;
      rewrite ?Hreact, ?Hstorage, ?Htimers; done. }
  destruct (bool_decide (threshold < probability top)%Qc).
  2:{ apply Hend; [| | | |left; apply Hready]; unfold feedback_reset; simpl;
        rewrite ?Hreact, ?Hstorage, ?Htimers; done. }
  match goal with
  | |- context [getInsightForClass (className top) ?x] =>
      destruct (getInsightForClass_returns (className top) x) as [r Hr];
      pose proof (getInsightForClass_frame (className top) x)
        as (Hreact5 & Hstorage5 & Htimers5 & _);
      destruct (getInsightForClass (className top) x) as [o w5]
  end.
  cbn [fst snd] in *. subst o.
  apply Hend; [| | | |left; apply Hready]; unfold feedback_reset; simpl in *;
    rewrite ?Hreact5, ?Hstorage5, ?Htimers5; simpl;
    rewrite ?Hreact, ?Hstorage, ?Htimers; done.
Qed.

(** X10. [analyzeImage] never throws and never touches the feedback log,
    [localStorage] or the timers.  Without a model it does nothing at all.
    With a model it resets the cursor and the feedback fields, and ends
    either READY with the ranked answer of the classifier as predictions
    (an older error message stays in the state), or in ERROR with the fixed
    message and the predictions that were shown before. *)
Theorem analyzeImage_never_throws `{External} (w : World) :
  ∃ w',
    on_event analyzeImage w = (Return tt, w') ∧
    (modelRef w = false → w' = w) ∧
    feedbackHistory (react w') = feedbackHistory (react w) ∧
    localStorage w' = localStorage w ∧ timers w' = timers w ∧
    (modelRef w = true →
       feedback_reset (react w') ∧
       (analysis_ready w w' ∨ analysis_error w w')).
Proof. apply analyzeImage_summary. Qed.

(** X11. With a model but no frame to take, [analyzeImage] ends in ERROR
    with the message "Analysis engine error.", logs the "Input source
    unavailable" error on the console, and calls neither the classifier nor
    the generator; the predictions shown before are still there, with the
    cursor and the feedback fields reset. *)
Theorem analyzeImage_unavailable_input `{External} (w : World) :
  modelRef w = true →
  (getProcessedCanvas (react w) w).1 = Return None →
  ∃ w',
    on_event analyzeImage w = (Return tt, w') ∧
    status (react w') = ERROR ∧
    error (react w') = Some "Analysis engine error." ∧
    console w' = console w
                 ++ [console_error "Analysis Error:"
                       (new_Error "Input source unavailable")] ∧
    predictCalls w' = predictCalls w ∧ generateCalls w' = generateCalls w ∧
    predictions (react w') = predictions (react w) ∧
    feedback_reset (react w') ∧ insight (react w') = None.
Proof.
  intros Hmodel Hnone. rewrite analyzeImage_eq by done. cbv zeta.
  pose proof (getProcessedCanvas_frame (react w) w)
    as (Hreact & _ & _ & _ & _ & Hconsole & _ & _ & _ & _ & Hgen & Hpred).
  rewrite Hnone. eexists. split; [reflexivity|].
  unfold feedback_reset. simpl. rewrite ?Hreact, ?Hconsole, ?Hgen, ?Hpred. done.
Qed.

Lemma analyzeImage_unavailable_input_witness :
  ∃ w',
    on_event (@analyzeImage answering_generator) model_world_without_image
    = (Return tt, w') ∧
    status (react w') = ERROR ∧
    error (react w') = Some "Analysis engine error." ∧
    predictCalls w' = 0 ∧ generateCalls w' = 0.
Proof.
  destruct (@analyzeImage_unavailable_input answering_generator
              model_world_without_image eq_refl eq_refl)
    as (w' & Hrun & Hstatus & Herror & _ & Hpred & Hgen & _).
  exists w'. done.
Defined.

(** X12. When the classifier answers and no prediction is above the
    threshold 0.05 (an empty answer included), [analyzeImage] ends READY
    with the ranked answer as predictions and the insight "Subject
    unrecognized.", without a call to the generator.  A non-empty answer is
    put under review all the same, at cursor 0. *)
Theorem analyzeImage_unrecognized `{External} (w : World)
    (canvas : HTMLCanvasElement) (results : list Prediction) :
  modelRef w = true →
  (getProcessedCanvas (react w) w).1 = Return (Some canvas) →
  model_predict (predictCalls w) canvas = Return results →
  (∀ p, p ∈ results → (probability p ≤ threshold)%Qc) →
  ∃ w',
    on_event analyzeImage w = (Return tt, w') ∧
    status (react w') = READY ∧
    predictions (react w') = rank results ∧
    insight (react w') = Some "Subject unrecognized." ∧
    generateCalls w' = generateCalls w ∧
    predictCalls w' = predictCalls w + 1 ∧
    feedback_reset (react w') ∧
    view (react w') = (if results is [] then Idle else Reviewing).
Proof.
  intros Hmodel Hcanvas Hpredict Hlow.
  rewrite analyzeImage_eq by done. cbv zeta.
  pose proof (getProcessedCanvas_frame (react w) w)
    as (Hreact & _ & _ & _ & _ & _ & _ & _ & _ & _ & Hgen & _).
  rewrite Hcanvas, Hpredict.
  destruct (rank results) as [|top rest] eqn:Hrank.
  - apply rank_nil in Hrank as ->.
    eexists. split; [reflexivity|].
    unfold feedback_reset. simpl. rewrite ?Hreact, ?Hgen. simpl.
    repeat (split; [done || lia|]). done.
  - destruct (rank_top results top rest Hrank) as [Htop _].
    rewrite bool_decide_eq_false_2 by (apply Qcle_not_lt; by apply Hlow).
    eexists. split; [reflexivity|].
    unfold feedback_reset. simpl. rewrite ?Hreact, ?Hgen. simpl.
    repeat (split; [done || lia|]).
    destruct results as [|p results]; [by apply elem_of_nil in Htop|].
    by unfold view.
Qed.

Lemma analyzeImage_unrecognized_witness :
  ∃ w',
    on_event (@analyzeImage silent_generator) photo_world = (Return tt, w') ∧
    status (react w') = READY ∧
    predictions (react w') =
      [ {| className := "mist"; probability := num 5 100 |};
        {| className := "fog"; probability := num 3 100 |} ] ∧
    insight (react w') = Some "Subject unrecognized." ∧
    generateCalls w' = 0 ∧ view (react w') = Reviewing.
Proof.
  destruct (getProcessedCanvas (react photo_world) photo_world)
    as [[[canvas|]|e] w1] eqn:Hcanvas; try (vm_compute in Hcanvas; discriminate).
  destruct (@analyzeImage_unrecognized silent_generator photo_world canvas
              [ {| className := "fog"; probability := num 3 100 |};
                {| className := "mist"; probability := num 5 100 |} ])
    as (w' & Hrun & Hstatus & Hpreds & Hinsight & Hgen & _ & _ & Hview).
  - reflexivity.
  - by rewrite Hcanvas.
  - reflexivity.
  - intros p Hp. repeat (apply elem_of_cons in Hp as [->|Hp]);
      [by vm_compute..|by apply elem_of_nil in Hp].
  - exists w'. split; [exact Hrun|]. rewrite Hpreds. done.
Defined.

(** X13. When the classifier answers and some prediction is above the
    threshold, [analyzeImage] puts the ranked answer under review at cursor
    0: the candidate shown is a prediction of the answer, no prediction is
    more probable, and it is above the threshold; the insight is what
    [getInsightForClass] returns for its label, and the loading flag is off
    again. *)
Theorem analyzeImage_confident `{External} (w : World)
    (canvas : HTMLCanvasElement) (results : list Prediction) (p : Prediction) :
  modelRef w = true →
  (getProcessedCanvas (react w) w).1 = Return (Some canvas) →
  model_predict (predictCalls w) canvas = Return results →
  p ∈ results → (threshold < probability p)%Qc →
  ∃ w' top,
    on_event analyzeImage w = (Return tt, w') ∧
    status (react w') = READY ∧ view (react w') = Reviewing ∧
    predictionIndex (react w') = 0 ∧
    predictions (react w') = rank results ∧
    predictions (react w') !! predictionIndex (react w') = Some top ∧
    top ∈ results ∧ (threshold < probability top)%Qc ∧
    (∀ q, q ∈ results → (probability q ≤ probability top)%Qc) ∧
    (getInsightForClass (className top) w).1 = Return (insight (react w')) ∧
    isInsightLoading (react w') = false.
Proof.
  intros Hmodel Hcanvas Hpredict Hp Hhigh.
  rewrite analyzeImage_eq by done. cbv zeta.
  pose proof (getProcessedCanvas_frame (react w) w)
    as (Hreact & _ & _ & _ & _ & _ & _ & _ & _ & _ & Hgen & _).
  rewrite Hcanvas, Hpredict.
  destruct (rank results) as [|top rest] eqn:Hrank.
  { apply rank_nil in Hrank as ->. by apply elem_of_nil in Hp. }
  destruct (rank_top results top rest Hrank) as [Htop Hmax].
  assert (threshold < probability top)%Qc as Htop_high.
  { eapply Qclt_le_trans; [exact Hhigh | by apply Hmax]. }
  rewrite bool_decide_eq_true_2 by done.
  match goal with
  | |- context [getInsightForClass (className top) ?x] =>
      pose proof (getInsightForClass_answer_by_counter (className top) x w)
        as Hanswer;
      destruct (getInsightForClass_returns (className top) x) as [r Hr];
      pose proof (getInsightForClass_frame (className top) x) as (Hreact5 & _);
      destruct (getInsightForClass (className top) x) as [o w5]
  end.
  cbn [fst snd] in *. subst o.
  exists (upd_react
            (with_status READY
               (with_isInsightLoading false (with_insight r (react w5)))) w5), top.
  split; [reflexivity|].
  rewrite <- Hanswer by (simpl; by rewrite Hgen).
  simpl in *. rewrite Hreact5. simpl.
  repeat (split; [done|]). done.
Qed.

Lemma analyzeImage_confident_witness :
  ∃ w',
    on_event (@analyzeImage answering_generator) photo_world = (Return tt, w') ∧
    view (react w') = Reviewing ∧
    predictions (react w') !! predictionIndex (react w')
    = Some {| className := "cat"; probability := num 9 10 |} ∧
    insight (react w') = Some "Nice.".
Proof.
  destruct (getProcessedCanvas (react photo_world) photo_world)
    as [[[canvas|]|e] w1] eqn:Hcanvas; try (vm_compute in Hcanvas; discriminate).
  destruct (@analyzeImage_confident answering_generator photo_world canvas
              [ {| className := "fish"; probability := num 1 100 |};
                {| className := "cat"; probability := num 9 10 |};
                {| className := "dog"; probability := num 6 100 |} ]
              {| className := "cat"; probability := num 9 10 |})
    as (w' & top & Hrun & _ & Hview & Hindex & Hpreds & Htop & _ & _ & _
        & Hinsight & _).
  - reflexivity.
  - by rewrite Hcanvas.
  - reflexivity.
  - apply elem_of_cons. right. left.
  - by vm_compute.
  - exists w'. split; [exact Hrun|]. split; [exact Hview|].
    rewrite Hpreds, Hindex in Htop.
    assert (Some {| className := "cat"; probability := num 9 10 |} = Some top)
      as [= <-] by exact Htop.
    split; [by rewrite Hpreds, Hindex|].
    assert (Return (Some "Nice.") = Return (insight (react w'))) as [= <-]
      by exact Hinsight.
    reflexivity.
Defined.

(** ** The feedback log over any number of feedbacks *)

Lemma entries_from_length (t : Z) (events : list Feedback) :
  length (entries_from t events) = length events.
Proof.
  revert t. induction events as [|[[[dt o] c] ty] rest IH]; intros t; [done|].
  simpl. by rewrite IH.
Qed.

(** X14. After any sequence of feedbacks logged one after the other on a
    history of at most five entries, the history is the five newest entries
    of the old history and the new feedbacks, newest first; it is never
    longer than five, five or more feedbacks push the whole old history out,
    and the stored history is the one in memory, so a reload shows it. *)
Theorem feedback_log_keeps_newest (events : list Feedback) (w : World) :
  length (feedbackHistory (react w)) ≤ 5 →
  ∃ w',
    log_all events w = (Return tt, w') ∧
    feedbackHistory (react w')
    = take 5 (reverse (entries_from (now w) events) ++ feedbackHistory (react w)) ∧
    length (feedbackHistory (react w')) ≤ 5 ∧
    (5 ≤ length events →
       feedbackHistory (react w') = take 5 (reverse (entries_from (now w) events))) ∧
    (events ≠ [] →
       localStorage w' !! history_key
       = Some (JSON_history (feedbackHistory (react w'))) ∧
       ∃ w'', window_location_reload w' = (Return tt, w'') ∧
              feedbackHistory (react w'') = feedbackHistory (react w')).
Proof.
  intros Hlen.
  destruct (log_all_history events w Hlen) as (w' & Hrun & Hhist & Hstore).
  exists w'. split; [done|]. split; [done|].
  split; [rewrite Hhist, length_take; lia|]. split.
  - intros Hmany. rewrite Hhist. apply take_app_le.
    rewrite length_reverse, entries_from_length. lia.
  - intros Hne. specialize (Hstore Hne). split; [done|].
    destruct (reload_reads_history w' _ Hstore) as (w'' & Hreload & Hreact & _).
    exists w''. split; [done|]. by rewrite Hreact.
Qed.

Lemma feedback_log_keeps_newest_witness :
  ∃ w',
    log_all [(10, "Pen", "Pencil", CORRECTION); (20, "Cup", "Cup", CONFIRMATION)]%Z
      blank_world = (Return tt, w') ∧
    feedbackHistory (react w') =
      [ {| timestamp := 30; originalLabel := "Cup"; correctedLabel := "Cup";
           type := CONFIRMATION |};
        {| timestamp := 10; originalLabel := "Pen"; correctedLabel := "Pencil";
           type := CORRECTION |} ].
Proof.
  destruct (feedback_log_keeps_newest
              [(10, "Pen", "Pencil", CORRECTION); (20, "Cup", "Cup", CONFIRMATION)]%Z
              blank_world) as (w' & Hrun & Hhist & _); [simpl; lia|].
  exists w'. split; [exact Hrun|]. rewrite Hhist. reflexivity.
Defined.

(** X15. The "Clear" button empties the log for good: the history in memory
    is empty and its key is gone from [localStorage], the other keys being
    kept; once the effect on the history has run the key holds the empty
    history; a reload shows an empty log in both cases. *)
Theorem clear_history_is_durable (w : World) :
  let w1 := (click_clear_history w).2 in
  let w2 := (on_event feedbackHistory_effect w1).2 in
  click_clear_history w = (Return tt, w1) ∧
  feedbackHistory (react w1) = [] ∧
  localStorage w1 !! history_key = None ∧
  (∀ key, key ≠ history_key → localStorage w1 !! key = localStorage w !! key) ∧
  localStorage w2 !! history_key = Some (JSON_history []) ∧
  (∃ w', window_location_reload w1 = (Return tt, w') ∧
         feedbackHistory (react w') = []) ∧
  (∃ w', window_location_reload w2 = (Return tt, w') ∧
         feedbackHistory (react w') = []).
Proof.
  intros w1 w2. subst w1 w2.
  unfold click_clear_history, on_event, feedbackHistory_effect,
    localStorage_removeItem, localStorage_setItem, setFeedbackHistory.
  unfold_async. cbn [fst snd react localStorage upd_react upd_localStorage
    feedbackHistory with_feedbackHistory].
  split; [done|]. split; [done|].
  split; [apply lookup_delete_eq|].
  split; [intros key Hkey; by apply lookup_delete_ne|].
  split; [apply lookup_insert_eq|]. split.
  - unfold window_location_reload, initial_feedbackHistory.
    cbn [localStorage upd_localStorage]. rewrite lookup_delete_eq. by eexists.
  - unfold window_location_reload, initial_feedbackHistory.
    cbn [localStorage upd_localStorage]. rewrite lookup_insert_eq. by eexists.
Qed.

(** ** The feedback handlers, beyond the labels *)

Section HandlerDetails.
Context `{External}.
Implicit Types (s : AppState) (w : World).

(** What the two logging handlers leave in the world, in one statement:
    [label] is the text sent to the generator, [entry] the entry logged and
    [response] the acknowledgement set. *)
Lemma handleCorrectFeedback_world s w :
  let label := current_label s in
  let entry := {| timestamp := now w; originalLabel := label;
                  correctedLabel := label; type := CONFIRMATION |} in
  ∃ r w',
    handleCorrectFeedback s w = (Return tt, w') ∧
    (processFeedback label true w).1 = Return r ∧
    react w' = with_feedbackResponse r
                 (with_feedbackHistory (take 5 (entry :: feedbackHistory s))
                    (with_feedbackGiven true (react w))) ∧
    localStorage w'
    = <[history_key := JSON_history (take 5 (entry :: feedbackHistory s))]>
        (localStorage w) ∧
    timers w' = timers w ++ [(4000%Z, location_reload)] ∧
    generateCalls w < generateCalls w' ≤ generateCalls w + 4.
Proof.
  intros label entry.
  destruct (handleCorrectFeedback_eq s w)
    as (r & w3 & Hfetch & (Hreact & Hstorage & Htimers & _) & Hrun).
  fold label in Hfetch, Hreact, Hstorage, Htimers, Hrun.
  rewrite (addFeedbackToLog_eq s label label CONFIRMATION) in *.
  cbn [snd] in *.
  match type of Hfetch with
  | processFeedback _ _ ?x = _ =>
      pose proof (processFeedback_effort label true x) as [Hcalls _];
      pose proof (processFeedback_answer_by_counter label true x w eq_refl)
        as Hanswer;
      rewrite Hfetch in Hcalls, Hanswer
  end.
  cbn [fst snd] in *.
  eexists r, _. split; [exact Hrun|]. split; [done|].
  cbn [react localStorage timers generateCalls upd_react upd_timers].
  rewrite Hreact, Hstorage, Htimers. done.
Qed.

Lemma handleManualSubmit_world s w :
  truthy (trim (manualValue s)) = true →
  let entry := {| timestamp := now w; originalLabel := current_label s;
                  correctedLabel := manualValue s; type := CORRECTION |} in
  ∃ w',
    handleManualSubmit s w = (Return tt, w') ∧
    react w' = with_feedbackResponse (Some (correction_response (manualValue s)))
                 (with_feedbackHistory (take 5 (entry :: feedbackHistory s))
                    (with_feedbackGiven true (react w))) ∧
    localStorage w'
    = <[history_key := JSON_history (take 5 (entry :: feedbackHistory s))]>
        (localStorage w) ∧
    timers w' = timers w ++ [(4000%Z, location_reload)] ∧
    generateCalls w < generateCalls w' ≤ generateCalls w + 4.
Proof.
  intros Htrim entry.
  destruct (handleManualSubmit_eq s w Htrim)
    as (r & w3 & Hfetch & (Hreact & Hstorage & Htimers & _) & Hrun).
  rewrite (addFeedbackToLog_eq s (current_label s) (manualValue s) CORRECTION) in *.
  cbn [snd] in *.
  match type of Hfetch with
  | processFeedback _ _ ?x = _ =>
      pose proof (processFeedback_effort (manualValue s) false x) as [Hcalls _];
      rewrite Hfetch in Hcalls
  end.
  cbn [fst snd] in *.
  eexists. split; [exact Hrun|].
  cbn [react localStorage timers generateCalls upd_react upd_timers].
  rewrite Hreact, Hstorage, Htimers. done.
Qed.

Lemma handleWrongFeedback_world s w :
  ∃ w',
    handleWrongFeedback s w = (Return tt, w') ∧
    localStorage w' = localStorage w ∧ timers w' = timers w ∧
    if can_cascade s then
      ∃ second r,
        predictions s !! 1 = Some second ∧
        (getInsightForClass (className second) w).1 = Return r ∧
        react w' = with_isInsightLoading false
                     (with_insight r
                        (with_isInsightLoading true
                           (with_insight None
                              (with_predictionIndex 1 (react w))))) ∧
        generateCalls w < generateCalls w' ≤ generateCalls w + 4
    else
      react w' = with_isManualInput true (react w) ∧
      generateCalls w' = generateCalls w.
Proof.
  destruct (can_cascade s) eqn:Hc.
  - destruct (proj1 (can_cascade_spec s) Hc) as [_ (second & Hsecond & _)].
    destruct (handleWrongFeedback_cascade s w second Hc Hsecond)
      as (r & w2 & Hfetch & (Hreact & Hstorage & Htimers & _) & Hrun).
    match type of Hfetch with
    | getInsightForClass _ ?x = _ =>
        pose proof (getInsightForClass_effort (className second) x) as [Hcalls _];
        pose proof (getInsightForClass_answer_by_counter (className second)
                      x w eq_refl) as Hanswer;
        rewrite Hfetch in Hcalls, Hanswer
    end.
    cbn [fst snd] in *.
    eexists. split; [exact Hrun|].
    cbn [react localStorage timers generateCalls upd_react].
    rewrite Hreact, Hstorage, Htimers.
    split; [done|]. split; [done|]. by exists second, r.
  - rewrite (handleWrongFeedback_manual s w Hc). eexists.
    split; [reflexivity|]. done.
Qed.

End HandlerDetails.

Lemma head_take_cons {A} (n : nat) (x : A) (l : list A) :
  head (take (S n) (x :: l)) = Some x.
Proof. done. Qed.

Lemma truthy_trim (text : string) :
  trim text ≠ EmptyString → truthy (trim text) = true.
Proof.
  intros Hne. destruct (truthy (trim text)) eqn:Ht; [done|].
  by apply truthy_false_iff in Ht.
Qed.

(** X16. When the cursor points at no prediction, both logging handlers put
    the placeholder "Unknown" where the label of the candidate would be:
    a confirmation logs "Unknown" twice, a correction logs "Unknown" as the
    original label, next to the text typed. *)
Theorem feedback_without_candidate `{External} (w : World) :
  predictions (react w) !! predictionIndex (react w) = None →
  (∃ w', on_event handleCorrectFeedback w = (Return tt, w') ∧
         head (feedbackHistory (react w'))
         = Some {| timestamp := now w; originalLabel := "Unknown";
                   correctedLabel := "Unknown"; type := CONFIRMATION |}) ∧
  (trim (manualValue (react w)) ≠ EmptyString →
   ∃ w', on_event handleManualSubmit w = (Return tt, w') ∧
         head (feedbackHistory (react w'))
         = Some {| timestamp := now w; originalLabel := "Unknown";
                   correctedLabel := manualValue (react w);
                   type := CORRECTION |}).
Proof.
  intros Hnone.
  assert (current_label (react w) = "Unknown") as Hlabel.
  { unfold current_label. by rewrite Hnone. }
  split.
  - destruct (handleCorrectFeedback_world (react w) w)
      as (r & w' & Hrun & _ & Hreact & _).
    exists w'. split; [exact Hrun|]. rewrite Hreact, Hlabel. done.
  - intros Htrim.
    destruct (handleManualSubmit_world (react w) w (truthy_trim _ Htrim))
      as (w' & Hrun & Hreact & _).
    exists w'. split; [exact Hrun|]. rewrite Hreact, Hlabel. done.
Qed.

Lemma feedback_without_candidate_witness :
  ∃ w', on_event (@handleManualSubmit answering_generator)
          (manual_world [] " Pen ") = (Return tt, w') ∧
        head (feedbackHistory (react w'))
        = Some {| timestamp := 0; originalLabel := "Unknown";
                  correctedLabel := " Pen "; type := CORRECTION |}.
Proof.
  destruct (@feedback_without_candidate answering_generator
              (manual_world [] " Pen ") eq_refl) as [_ Hmanual].
  apply Hmanual. vm_compute. discriminate.
Defined.

(** X17. A manual text that is not blank finalizes the session: feedback is
    given, the acknowledgement is the fixed sentence around the text as
    typed, whatever the generator answers to the one to four calls made,
    and a reload is set for 4000 ms later; the predictions, the cursor and
    the form fields stay, the form is no longer shown, and the reload
    clears the session and keeps the log. *)
Theorem handleManualSubmit_finalizes `{External} (w : World) :
  let s := react w in
  trim (manualValue s) ≠ EmptyString →
  ∃ w' w'',
    on_event handleManualSubmit w = (Return tt, w') ∧
    feedbackGiven (react w') = true ∧
    feedbackResponse (react w') = Some (correction_response (manualValue s)) ∧
    timers w' = timers w ++ [(4000%Z, location_reload)] ∧
    generateCalls w < generateCalls w' ≤ generateCalls w + 4 ∧
    predictions (react w') = predictions s ∧
    predictionIndex (react w') = predictionIndex s ∧
    manualValue (react w') = manualValue s ∧
    isManualInput (react w') = isManualInput s ∧
    view (react w') = (if predictions s is [] then Idle else Finalized) ∧
    run_callback location_reload w' = (Return tt, w'') ∧
    session_cleared (react w'') ∧ timers w'' = [] ∧
    feedbackHistory (react w'') = feedbackHistory (react w').
Proof.
  intros s Htrim.
  destruct (handleManualSubmit_world s w (truthy_trim _ Htrim))
    as (w' & Hrun & Hreact & Hstorage & Htimers & Hcalls).
  destruct (reload_reads_history w' _
              ltac:(rewrite Hstorage; apply lookup_insert_eq))
    as (w'' & Hreload & Hreact'' & _ & Htimers'').
  exists w', w''. split; [exact Hrun|].
  rewrite Hreact, Hreact''. simpl. fold s.
  repeat (split; [done|]).
  split; [|done]. unfold view. simpl. fold s.
  rewrite andb_false_r. by destruct (predictions s).
Qed.

Lemma handleManualSubmit_finalizes_witness :
  ∃ w' w'',
    on_event (@handleManualSubmit refusing_generator)
      (manual_world book " Book ") = (Return tt, w') ∧
    feedbackResponse (react w')
    = Some ("Recorded " +:+ dq +:+ " Book " +:+ dq
            +:+ " as correction. Refreshing module...") ∧
    view (react w') = Finalized ∧ timers w' = [(4000%Z, location_reload)] ∧
    run_callback location_reload w' = (Return tt, w'') ∧
    session_cleared (react w'').
Proof.
  destruct (@handleManualSubmit_finalizes refusing_generator
              (manual_world book " Book "))
    as (w' & w'' & Hrun & _ & Hresponse & Htimers & _ & _ & _ & _ & _ & Hview
        & Hreload & Hcleared & _).
  - vm_compute. discriminate.
  - exists w', w''. done.
Defined.

(** X18. The acknowledgement shown after a confirmation is what
    [processFeedback] returns for the label logged: the text of the
    generator when it answers, and "Glad to hear it! Analysis confirmed."
    when it refuses. *)
Theorem handleCorrectFeedback_acknowledges `{External} (w : World) :
  let label := current_label (react w) in
  ∃ w',
    on_event handleCorrectFeedback w = (Return tt, w') ∧
    (processFeedback label true w).1 = Return (feedbackResponse (react w')) ∧
    generateCalls w < generateCalls w' ≤ generateCalls w + 4 ∧
    (∀ response,
       generateContent (generateCalls w) (feedback_request label true)
       = Return response →
       feedbackResponse (react w') = text response) ∧
    (∀ e,
       generateContent (generateCalls w) (feedback_request label true) = Throw e →
       isRateLimit e = false →
       feedbackResponse (react w') = Some "Glad to hear it! Analysis confirmed.").
Proof.
  intros label.
  destruct (handleCorrectFeedback_world (react w) w)
    as (r & w' & Hrun & Hanswer & Hreact & _ & _ & Hcalls).
  fold label in Hanswer.
  exists w'. split; [exact Hrun|]. rewrite Hreact. simpl.
  split; [done|]. split; [done|]. split.
  - intros response Hfirst.
    rewrite (processFeedback_first_answer label true w response Hfirst) in Hanswer.
    simpl in Hanswer. congruence.
  - intros e Hfirst Hhard.
    rewrite processFeedback_eq in Hanswer.
    unfold ai_models_generateContent in Hanswer.
    rewrite (callWithRetry_hard_failure _ _ _ _ e Hfirst Hhard) in Hanswer.
    simpl in Hanswer. congruence.
Qed.

(** X19. A rejection never logs anything: [handleWrongFeedback] always
    returns, and leaves the log, [localStorage], the timers, the feedback
    flag and response, the predictions and the text of the form as they
    were; when it opens the form it makes no call to the generator. *)
Theorem handleWrongFeedback_logs_nothing `{External} (w : World) :
  ∃ w',
    on_event handleWrongFeedback w = (Return tt, w') ∧
    feedbackHistory (react w') = feedbackHistory (react w) ∧
    localStorage w' = localStorage w ∧ timers w' = timers w ∧
    feedbackGiven (react w') = feedbackGiven (react w) ∧
    feedbackResponse (react w') = feedbackResponse (react w) ∧
    predictions (react w') = predictions (react w) ∧
    manualValue (react w') = manualValue (react w) ∧
    (can_cascade (react w) = false →
     isManualInput (react w') = true ∧ generateCalls w' = generateCalls w).
Proof.
  destruct (handleWrongFeedback_world (react w) w)
    as (w' & Hrun & Hstorage & Htimers & Hcase).
  exists w'. split; [exact Hrun|].
  destruct (can_cascade (react w)).
  - destruct Hcase as (second & r & _ & _ & Hreact & _). rewrite Hreact. done.
  - destruct Hcase as [Hreact Hcalls]. rewrite Hreact. done.
Qed.

(** X20. When a rejection cascades, the insight shown for the second
    candidate is what [getInsightForClass] returns for its label, the
    loading flag is off again, and one to four calls were made to the
    generator; the form stays closed. *)
Theorem handleWrongFeedback_fetches_next_insight `{External} (w : World) :
  can_cascade (react w) = true →
  ∃ w' second,
    on_event handleWrongFeedback w = (Return tt, w') ∧
    predictions (react w) !! 1 = Some second ∧
    predictions (react w') !! predictionIndex (react w') = Some second ∧
    (getInsightForClass (className second) w).1 = Return (insight (react w')) ∧
    isInsightLoading (react w') = false ∧
    isManualInput (react w') = isManualInput (react w) ∧
    generateCalls w < generateCalls w' ≤ generateCalls w + 4.
Proof.
  intros Hc.
  destruct (handleWrongFeedback_world (react w) w)
    as (w' & Hrun & _ & _ & Hcase).
  rewrite Hc in Hcase. destruct Hcase as (second & r & Hsecond & Hanswer & Hreact & Hcalls).
  exists w', second. split; [exact Hrun|]. rewrite Hreact. done.
Qed.

Lemma handleWrongFeedback_fetches_next_insight_witness :
  ∃ w',
    on_event (@handleWrongFeedback exhausted_generator)
      (review_world cat_dog_fish 0) = (Return tt, w') ∧
    predictions (react w') !! predictionIndex (react w')
    = Some {| className := "dog"; probability := num 6 100 |} ∧
    insight (react w') = Some insight_fallback ∧
    isInsightLoading (react w') = false.
Proof.
  destruct (@handleWrongFeedback_fetches_next_insight exhausted_generator
              (review_world cat_dog_fish 0) eq_refl)
    as (w' & second & Hrun & Hsecond & Hcurrent & Hinsight & Hloading & _ & _).
  assert (Some {| className := "dog"; probability := num 6 100 |} = Some second)
    as [= <-] by exact Hsecond.
  assert (Return (Some insight_fallback) = Return (insight (react w')))
    as [= Hfallback] by exact Hinsight.
  exists w'. done.
Defined.

(** ** The page as a whole *)

Section Page.
Context `{External}.
Implicit Types (w : World) (ev : UserEvent).

(** The source buttons leave the session, the log and the storage alone. *)
Lemma click_inputSource_frame (src : InputSource) w :
  ∃ w', on_event (click_inputSource src) w = (Return tt, w') ∧
        session (react w') = session (react w) ∧
        feedbackHistory (react w') = feedbackHistory (react w) ∧
        localStorage w' = localStorage w ∧ timers w' = timers w.
Proof.
  unfold on_event, click_inputSource, commit_refs, inputSource_effect,
    startCamera, stopCamera, setInputSource, setIsCameraActive, setError.
  unfold_async.
  destruct (decide (src = inputSource (react w))); [by eexists|].
  destruct src; simpl.
  - destruct (streamRef w); simpl; by eexists.
  - destruct getUserMedia as [stream|err]; simpl.
    + destruct (videoRef w); simpl; by eexists.
    + destruct (streamRef w); simpl; by eexists.
Qed.

Lemma choose_file_frame (file : option File) w :
  ∃ w', choose_file file w = (Return tt, w') ∧
        (predictionIndex (react w') = 0
         ∨ session (react w') = session (react w)) ∧
        feedbackHistory (react w') = feedbackHistory (react w) ∧
        localStorage w' = localStorage w ∧ timers w' = timers w.
Proof.
  destruct file as [f|]; eexists; (split; [reflexivity|]); simpl.
  - destruct (inputSource (react w)); simpl; (split; [by left|done]).
  - destruct (inputSource (react w)); simpl; (split; [by right|done]).
Qed.

(** What an event does to the cursor and to the log. *)
Lemma dispatch_summary ev w :
  let w' := (dispatch ev w).2 in
  (predictionIndex (react w') = 0
   ∨ (predictions (react w') = predictions (react w) ∧
      (predictionIndex (react w') = predictionIndex (react w)
       ∨ predictionIndex (react w') < length (predictions (react w))))) ∧
  ((feedbackHistory (react w') = feedbackHistory (react w) ∧
    localStorage w' = localStorage w)
   ∨ (∃ h, length h ≤ 5 ∧ feedbackHistory (react w') = h ∧
           localStorage w' = <[history_key := JSON_history h]> (localStorage w))
   ∨ (localStorage w' = localStorage w ∧
      (feedbackHistory (react w') = []
       ∨ localStorage w !! history_key
         = Some (JSON_history (feedbackHistory (react w')))))).
Proof.
  assert (∀ w0 : World,
            react w0 = react w → localStorage w0 = localStorage w →
            (predictionIndex (react w0) = 0
             ∨ (predictions (react w0) = predictions (react w) ∧
                (predictionIndex (react w0) = predictionIndex (react w)
                 ∨ predictionIndex (react w0) < length (predictions (react w))))) ∧
            ((feedbackHistory (react w0) = feedbackHistory (react w) ∧
              localStorage w0 = localStorage w)
             ∨ (∃ h, length h ≤ 5 ∧ feedbackHistory (react w0) = h ∧
                     localStorage w0
                     = <[history_key := JSON_history h]> (localStorage w))
             ∨ (localStorage w0 = localStorage w ∧
                (feedbackHistory (react w0) = []
                 ∨ localStorage w !! history_key
                   = Some (JSON_history (feedbackHistory (react w0))))))) as Hsame.
  { intros w0 Hr Hs. rewrite Hr. split; [right; split; [done|by left]|by left]. }
  intros w'. subst w'. destruct ev; unfold dispatch.
  - (* AnalyzeClicked *)
    destruct (analyze_disabled (react w)); [by apply Hsame|].
    destruct (analyzeImage_summary w)
      as (w' & Hrun & Hnomodel & Hhist & Hstorage & _ & Hmodel).
    unfold on_event in Hrun. rewrite Hrun. cbn [snd].
    destruct (modelRef w) eqn:Hm.
    + destruct (Hmodel eq_refl) as [(Hidx & _) _].
      split; [by left | by left].
    + rewrite (Hnomodel eq_refl). by apply Hsame.
  - (* ConfirmClicked *)
    destruct (decide (view (react w) = Reviewing)); [|by apply Hsame].
    destruct (handleCorrectFeedback_world (react w) w)
      as (r & w' & Hrun & _ & Hreact & Hstorage & _).
    rewrite Hrun. cbn [snd]. rewrite Hreact, Hstorage.
    split; [right; split; [done|by left]|]. right. left.
    match type of Hreact with
    | context [with_feedbackHistory ?h _] => exists h
    end.
    split; [rewrite length_take; lia | split; reflexivity].
  - (* RejectClicked *)
    destruct (decide (view (react w) = Reviewing)); [|by apply Hsame].
    destruct (handleWrongFeedback_world (react w) w)
      as (w' & Hrun & Hstorage & _ & Hcase).
    rewrite Hrun. cbn [snd].
    destruct (can_cascade (react w)) eqn:Hc.
    + destruct Hcase as (second & r & Hsecond & _ & Hreact & _).
      rewrite Hreact. simpl. split; [|by left].
      right. split; [done|]. right. by apply lookup_lt_Some in Hsecond.
    + destruct Hcase as [Hreact _]. rewrite Hreact. simpl.
      split; [right; split; [done|by left]|by left].
  - (* AddToMemoryClicked *)
    destruct (decide (view (react w) = Reviewing)); [|by apply Hsame].
    simpl. split; [right; split; [done|by left]|by left].
  - (* ManualTyped *)
    destruct (decide (view (react w) = ManualEntry)); [|by apply Hsame].
    simpl. split; [right; split; [done|by left]|by left].
  - (* ManualSubmitted *)
    destruct (decide (view (react w) = ManualEntry)); [|by apply Hsame].
    destruct (truthy (trim (manualValue (react w)))) eqn:Htrim.
    + destruct (handleManualSubmit_world (react w) w Htrim)
        as (w' & Hrun & Hreact & Hstorage & _).
      rewrite Hrun. cbn [snd]. rewrite Hreact, Hstorage.
      split; [right; split; [done|by left]|]. right. left.
      match type of Hreact with
      | context [with_feedbackHistory ?h _] => exists h
      end.
      split; [rewrite length_take; lia | split; reflexivity].
    + apply truthy_false_iff in Htrim.
      rewrite (handleManualSubmit_blank _ _ Htrim). by apply Hsame.
  - (* CancelClicked *)
    destruct (decide (view (react w) = ManualEntry)); [|by apply Hsame].
    simpl. split; [right; split; [done|by left]|by left].
  - (* FileChosen *)
    destruct (decide (inputSource (react w) = DRIVE)); [|by apply Hsame].
    destruct (choose_file_frame file w)
      as (w' & Hrun & Hsession & Hhist & Hstorage & _).
    rewrite Hrun. cbn [snd]. split; [|by left].
    destruct Hsession as [Hidx|Hsession]; [by left|].
    unfold session in Hsession.
    injection Hsession as Hp Hi _ _ _ _ _ _. right. split; [done|by left].
  - (* SourceClicked *)
    destruct (click_inputSource_frame src w)
      as (w' & Hrun & Hsession & Hhist & Hstorage & _).
    unfold on_event in Hrun. rewrite Hrun. cbn [snd]. split; [|by left].
    unfold session in Hsession.
    injection Hsession as Hp Hi _ _ _ _ _ _. right. split; [done|by left].
  - (* MirrorClicked *)
    simpl. split; [right; split; [done|by left]|by left].
  - (* ClearClicked *)
    destruct (feedbackHistory (react w)) as [|entry rest] eqn:Hhist;
      [by apply Hsame|].
    unfold click_clear_history, on_event, feedbackHistory_effect,
      localStorage_removeItem, localStorage_setItem, setFeedbackHistory.
    unfold_async. simpl.
    split; [right; split; [done|by left]|]. right. left.
    exists []. split; [simpl; lia|]. split; [done|].
    by rewrite insert_delete_eq.
  - (* TimerFired *)
    destruct (timers w) as [|[delay []] rest]; [by apply Hsame|].
    unfold run_callback, window_location_reload, initial_feedbackHistory.
    cbn [localStorage upd_timers].
    destruct (localStorage w !! history_key) as [[saved|h]|] eqn:Hstored.
    + destruct (truthy saved); simpl;
        [split; [right; split; [done|by left]|by left]|].
      split; [by left|]. right. right. split; [done|by left].
    + simpl. split; [by left|]. right. right. split; [done|by right].
    + simpl. split; [by left|]. right. right. split; [done|by left].
Qed.

Lemma dispatch_cursor_ok ev w :
  cursor_ok (react w) → cursor_ok (react (dispatch ev w).2).
Proof.
  intros Hok. destruct (dispatch_summary ev w) as [Hcursor _].
  unfold cursor_ok in *.
  destruct Hcursor as [Hzero|[Hp [Hi|Hi]]]; [by left| |right; by rewrite Hp].
  rewrite Hp, Hi. done.
Qed.

Lemma dispatch_history_ok ev w :
  history_ok w → history_ok (dispatch ev w).2.
Proof.
  intros [Hmem Hstored]. destruct (dispatch_summary ev w) as [_ Hlog].
  unfold history_ok.
  destruct Hlog as [[-> ->]|[(h & Hh & -> & ->)|[-> Hreload]]].
  - done.
  - split; [done|]. intros h'. rewrite lookup_insert_eq. by intros [= <-].
  - split; [|done]. destruct Hreload as [-> | Hfrom]; [simpl; lia|].
    by apply Hstored.
Qed.

End Page.

Section PageTheorems.
Context `{External}.
Implicit Types (w : World) (ev : UserEvent) (events : list UserEvent).

Lemma run_events_ind (P : World → Prop) events w :
  (∀ ev w, P w → P (dispatch ev w).2) → P w → P (run_events events w).
Proof.
  intros Hstep. revert w. unfold run_events.
  induction events as [|ev events IH]; intros w Hw; [done|].
  simpl. apply IH. by apply Hstep.
Qed.

(** X21. The candidate on display always exists.  Starting from a page
    whose cursor is at 0 or inside the predictions, as on a fresh page,
    and with each handler run to its end: whatever the user does
    (analysing, confirming, rejecting, typing, cancelling, choosing files,
    switching the source, clearing the log, letting a reload timer fire),
    the cursor stays at 0 or inside the predictions, so that
    [predictions[predictionIndex]] is defined whenever there are
    predictions to show. *)
Theorem displayed_candidate_exists events w :
  cursor_ok (react w) →
  let w' := run_events events w in
  cursor_ok (react w') ∧
  (predictions (react w') ≠ [] →
   is_Some (predictions (react w') !! predictionIndex (react w'))).
Proof.
  intros Hok w'.
  assert (cursor_ok (react w')) as Hok'.
  { subst w'. apply (run_events_ind (λ w, cursor_ok (react w))); [|done].
    intros ev w0. apply dispatch_cursor_ok. }
  split; [done|]. intros Hsome. apply lookup_lt_is_Some.
  destruct Hok' as [-> | Hlt]; [|done].
  destruct (predictions (react w')); [done | simpl; lia].
Qed.

(** X22. Starting from a log of at most five entries, in the component
    state and in [localStorage], the feedback log never holds more than
    five entries in either place, whatever the user does, reloads of the
    page included. *)
Theorem feedback_log_bounded events w :
  history_ok w → history_ok (run_events events w).
Proof.
  intros Hok. apply (run_events_ind history_ok); [|done].
  intros ev w0. apply dispatch_history_ok.
Qed.

Lemma view_form_opened (s : AppState) :
  feedbackGiven s = false → view (with_isManualInput true s) = ManualEntry.
Proof. unfold view. simpl. by intros ->. Qed.

Lemma dispatch_AddToMemoryClicked w :
  view (react w) = Reviewing →
  (dispatch AddToMemoryClicked w).2
  = upd_react (with_isManualInput true (react w)) w.
Proof. intros Hview. unfold dispatch. by rewrite decide_True. Qed.

Lemma dispatch_RejectClicked_manual w :
  view (react w) = Reviewing → can_cascade (react w) = false →
  (dispatch RejectClicked w).2
  = upd_react (with_isManualInput true (react w)) w.
Proof.
  intros Hview Hc. unfold dispatch. rewrite decide_True by done.
  by rewrite handleWrongFeedback_manual.
Qed.

Lemma dispatch_CancelClicked w :
  view (react w) = ManualEntry →
  (dispatch CancelClicked w).2
  = upd_react (with_isManualInput false (react w)) w.
Proof. intros Hview. unfold dispatch. by rewrite decide_True. Qed.

Lemma dispatch_RejectClicked_form w :
  view (react w) = ManualEntry → (dispatch RejectClicked w).2 = w.
Proof.
  intros Hview. unfold dispatch. rewrite decide_False; [done|].
  by rewrite Hview.
Qed.

Lemma form_closed_again w :
  isManualInput (react w) = false →
  upd_react
    (with_isManualInput false
       (react (upd_react (with_isManualInput true (react w)) w)))
    (upd_react (with_isManualInput true (react w)) w) = w.
Proof. destruct w as [[] ]. simpl. by intros ->. Qed.

(** X23. Two rejections always end in the manual-entry form: from the
    Reviewing view, the second click on "Incorrect" either opens the form or
    finds it open, in which case the button is gone.  The cursor has moved
    by at most one cascade, to index 1; the predictions, the log,
    [localStorage] and the timers are as before; further clicks change
    nothing. *)
Theorem two_rejections_open_the_form w (n : nat) :
  view (react w) = Reviewing → 2 ≤ n →
  let w' := run_events (replicate n RejectClicked) w in
  w' = run_events [RejectClicked; RejectClicked] w ∧
  view (react w') = ManualEntry ∧
  predictions (react w') = predictions (react w) ∧
  (predictionIndex (react w') = predictionIndex (react w)
   ∨ predictionIndex (react w') = 1) ∧
  feedbackHistory (react w') = feedbackHistory (react w) ∧
  localStorage w' = localStorage w ∧ timers w' = timers w.
Proof.
  intros Hview Hn w'.
  destruct (view_Reviewing (react w)) as [(Hmanual & Hgiven & Hlen) _]; [done|].
  set (w2 := run_events [RejectClicked; RejectClicked] w).
  assert (view (react w2) = ManualEntry ∧
          predictions (react w2) = predictions (react w) ∧
          (predictionIndex (react w2) = predictionIndex (react w)
           ∨ predictionIndex (react w2) = 1) ∧
          feedbackHistory (react w2) = feedbackHistory (react w) ∧
          localStorage w2 = localStorage w ∧ timers w2 = timers w) as Hw2.
  { subst w2. unfold run_events. cbn [foldl].
    destruct (can_cascade (react w)) eqn:Hc.
    - assert (∃ w1, (dispatch RejectClicked w).2 = w1 ∧
                view (react w1) = Reviewing ∧
                predictionIndex (react w1) = 1 ∧
                predictions (react w1) = predictions (react w) ∧
                feedbackGiven (react w1) = false ∧
                feedbackHistory (react w1) = feedbackHistory (react w) ∧
                localStorage w1 = localStorage w ∧ timers w1 = timers w)
        as (w1 & -> & Hview1 & Hidx1 & Hp1 & Hgiven1 & Hh1 & Hs1 & Ht1).
      { unfold dispatch. rewrite decide_True by done.
        destruct (handleWrongFeedback_world (react w) w)
          as (w1 & Hrun & Hstorage & Htimers & Hcase).
        rewrite Hc in Hcase.
        destruct Hcase as (second & r & _ & _ & Hreact & _).
        exists w1. rewrite Hrun. split; [done|]. rewrite Hreact.
        split; [by apply view_Reviewing|]. simpl.
        by repeat split. }
      assert (can_cascade (react w1) = false) as Hc1.
      { destruct (can_cascade (react w1)) eqn:Hc1; [|done].
        apply can_cascade_spec in Hc1 as [Hzero _]. congruence. }
      rewrite dispatch_RejectClicked_manual by done. simpl.
      split; [by apply view_form_opened|]. split; [done|].
      split; [by right|]. by repeat split.
    - rewrite (dispatch_RejectClicked_manual w) by done.
      rewrite dispatch_RejectClicked_form by by apply view_form_opened.
      simpl. split; [by apply view_form_opened|]. split; [done|].
      split; [by left|]. by repeat split. }
  assert (w' = w2) as ->; [|done].
  destruct n as [|[|n]]; [lia..|]. clear Hn. subst w'.
  change (replicate (S (S n)) RejectClicked)
    with ([RejectClicked; RejectClicked] ++ replicate n RejectClicked).
  unfold run_events. rewrite foldl_app.
  fold (run_events [RejectClicked; RejectClicked] w). fold w2.
  destruct Hw2 as [Hview2 _]. clearbody w2.
  induction n as [|n IH]; [done|]. cbn [replicate foldl].
  by rewrite dispatch_RejectClicked_form.
Qed.

(** X24. "Cancel" undoes the opening of the manual-entry form: after "Add
    to Memory Module", or after a rejection that opened the form, a click
    on "Cancel" gives back the very page the user came from, the candidate
    under review included.  A label typed into the form in between stays in
    the state, and the user is back in the Reviewing view on the same
    candidate. *)
Theorem cancel_undoes_opening_the_form w :
  view (react w) = Reviewing →
  run_events [AddToMemoryClicked; CancelClicked] w = w ∧
  (can_cascade (react w) = false →
   run_events [RejectClicked; CancelClicked] w = w) ∧
  ∀ text,
    let w' := run_events [AddToMemoryClicked; ManualTyped text; CancelClicked] w in
    view (react w') = Reviewing ∧ manualValue (react w') = text ∧
    predictions (react w') = predictions (react w) ∧
    predictionIndex (react w') = predictionIndex (react w).
Proof.
  intros Hview.
  destruct (view_Reviewing (react w)) as [(Hmanual & Hgiven & Hlen) _]; [done|].
  unfold run_events. cbn [foldl].
  split; [|split].
  - rewrite dispatch_AddToMemoryClicked by done.
    rewrite dispatch_CancelClicked by by apply view_form_opened.
    by apply form_closed_again.
  - intros Hc. rewrite dispatch_RejectClicked_manual by done.
    rewrite dispatch_CancelClicked by by apply view_form_opened.
    by apply form_closed_again.
  - intros text. cbv zeta. rewrite dispatch_AddToMemoryClicked by done.
    set (w1 := upd_react _ w).
    assert ((dispatch (ManualTyped text) w1).2
            = upd_react (with_manualValue text (react w1)) w1) as ->.
    { unfold dispatch. rewrite decide_True; [done|].
      by apply view_form_opened. }
    rewrite dispatch_CancelClicked.
    + split; [|done]. apply view_Reviewing. done.
    + unfold view. simpl. by rewrite Hgiven.
Qed.

(** *** The camera *)










(** The click as one step is the request, answered at once. *)
Lemma click_inputSource_split (src : InputSource) w :
  (on_event (click_inputSource src) w).2
  = match src with
    | CAMERA =>
        if decide (inputSource (react w) = CAMERA)
        then (on_event (request_source CAMERA) w).2
        else (on_event (camera_settled getUserMedia)
                (on_event (request_source CAMERA) w).2).2
    | DRIVE => (on_event (request_source DRIVE) w).2
    end.
Proof.
  unfold on_event, click_inputSource, request_source, camera_settled,
    inputSource_effect, startCamera, startCamera_settled.
  camera_cases w; destruct src; try (lazy; reflexivity);
    destruct getUserMedia; lazy; reflexivity.
Qed.






(** X26. Asking for the camera from file mode, in the two steps of the
    code.  After the click the page is in camera mode with the video
    element mounted; the camera is no more active than before and no stream
    is kept yet, so that with an inactive camera the "Analyze" button is
    disabled while the request is pending.  When the browser grants the
    request, the camera is active and the stream is kept; the video element
    is the one mounted, with the size it had.  When the browser refuses,
    the page is back in file mode with the error "Camera access denied.",
    the refusal is logged on the console, and no stream is kept.  The
    session (predictions, cursor, feedback fields, insight) is as before at
    each step.  The click run as one step is the request answered at
    once. *)
Theorem asking_for_the_camera w (answer : Outcome MediaStream) :
  inputSource (react w) = DRIVE →
  let w1 := camera_step (SourceRequested CAMERA) w in
  let w2 := camera_step (CameraSettled answer) w1 in
  (inputSource (react w1) = CAMERA ∧
   isCameraActive (react w1) = isCameraActive (react w) ∧
   streamRef w1 = streamRef w ∧ is_Some (videoRef w1) ∧
   session (react w1) = session (react w) ∧
   (isCameraActive (react w) = false → analyze_disabled (react w1) = true)) ∧
  session (react w2) = session (react w) ∧
  match answer with
  | Return stream =>
      inputSource (react w2) = CAMERA ∧ isCameraActive (react w2) = true ∧
      streamRef w2 = Some stream ∧ videoRef w2 = videoRef w1 ∧
      error (react w2) = error (react w) ∧ console w2 = console w
  | Throw err =>
      inputSource (react w2) = DRIVE ∧ isCameraActive (react w2) = false ∧
      streamRef w2 = None ∧ videoRef w2 = None ∧
      error (react w2) = Some "Camera access denied." ∧
      console w2 = console w ++ [console_error "Camera Error:" err]
  end ∧
  (dispatch (SourceClicked CAMERA) w).2
  = camera_step (CameraSettled getUserMedia) w1.
Proof.
  intros Hdrive w1 w2. subst w1 w2.
  split; [|split; [|split]].
  - camera_cases w; try discriminate Hdrive; lazy -[is_Some];
      (repeat split; try done); by intros ->.
  - camera_cases w; try discriminate Hdrive; destruct answer; lazy; done.
  - camera_cases w; try discriminate Hdrive; destruct answer; lazy;
      by repeat split.
  - change ((dispatch (SourceClicked CAMERA) w).2)
      with ((on_event (click_inputSource CAMERA) w).2).
    rewrite click_inputSource_split. rewrite decide_False; [done|].
    by rewrite Hdrive.
Qed.

Lemma click_drive_from_camera w :
  inputSource (react w) = CAMERA →
  let w' := (on_event (click_inputSource DRIVE) w).2 in
  inputSource (react w') = DRIVE ∧ streamRef w' = None ∧
  isCameraActive (react w') = false ∧ videoRef w' = None ∧
  session (react w') = session (react w) ∧
  analyze_disabled (react w')
  = match targetImage (react w) with
    | None => true
    | Some _ => bool_decide (status (react w) = RUNNING)
    end.
Proof.
  intros Hcamera w'. subst w'.
  unfold on_event, click_inputSource, setInputSource. unfold_async.
  rewrite Hcamera. rewrite decide_False by done.
  unfold commit_refs, inputSource_effect, stopCamera, setIsCameraActive,
    analyze_disabled.
  unfold_async. cbn [react upd_react inputSource with_inputSource].
  destruct (streamRef w) eqn:Hstream; cbn; rewrite ?Hstream;
    rewrite decide_True by reflexivity; cbn; rewrite ?Hstream;
    by destruct (targetImage (react w)).
Qed.

(** X27. Going back to file mode releases the camera: the stream is
    dropped, the camera is no longer marked active, and the "Analyze"
    button is enabled exactly when a file has been chosen and no analysis
    is running.  The session is as before. *)
Theorem leaving_the_camera w :
  inputSource (react w) = CAMERA →
  let w' := (dispatch (SourceClicked DRIVE) w).2 in
  inputSource (react w') = DRIVE ∧ streamRef w' = None ∧
  isCameraActive (react w') = false ∧ videoRef w' = None ∧
  session (react w') = session (react w) ∧
  analyze_disabled (react w')
  = match targetImage (react w) with
    | None => true
    | Some _ => bool_decide (status (react w) = RUNNING)
    end.
Proof. apply click_drive_from_camera. Qed.

(** *** The scratch canvas *)

Lemma canvas_ready_kept w w' :
  processingCanvasRef w' = processingCanvasRef w →
  canvas_ready w → canvas_ready w'.
Proof. unfold canvas_ready. by intros ->. Qed.

Lemma analyzeImage_canvas_ready w :
  canvas_ready w → canvas_ready (on_event analyzeImage w).2.
Proof.
  intros Hready.
  destruct (modelRef w) eqn:Hmodel;
    [|by rewrite analyzeImage_without_model].
  rewrite analyzeImage_eq by done. cbv zeta.
  pose proof (getProcessedCanvas_canvas_ready (react w) w Hready) as Hready2.
  destruct (getProcessedCanvas_returns (react w) w) as [[canvas|] Hcanvas];
    rewrite Hcanvas; [|done].
  destruct (model_predict (predictCalls w) canvas) as [results|err]; [|done].
  destruct (rank results) as [|top rest]; [done|].
  destruct (bool_decide (threshold < probability top)%Qc); [|done].
  match goal with
  | |- context [getInsightForClass (className top) ?x] =>
      pose proof (getInsightForClass_frame (className top) x)
        as (_ & _ & _ & Hcanvas5 & _);
      destruct (getInsightForClass (className top) x) as [[r|err] w5]
  end; cbn [snd] in Hcanvas5;
    (eapply canvas_ready_kept; [|exact Hready2]); exact Hcanvas5.
Qed.

Lemma handlers_keep_canvas s w :
  processingCanvasRef (handleCorrectFeedback s w).2 = processingCanvasRef w ∧
  processingCanvasRef (handleWrongFeedback s w).2 = processingCanvasRef w ∧
  processingCanvasRef (handleManualSubmit s w).2 = processingCanvasRef w.
Proof.
  split; [|split].
  - destruct (handleCorrectFeedback_eq s w)
      as (r & w3 & _ & (_ & _ & _ & Hcanvas) & ->).
    rewrite addFeedbackToLog_eq in Hcanvas. exact Hcanvas.
  - destruct (can_cascade s) eqn:Hc; [|by rewrite handleWrongFeedback_manual].
    destruct (proj1 (can_cascade_spec s) Hc) as [_ (second & Hsecond & _)].
    destruct (handleWrongFeedback_cascade s w second Hc Hsecond)
      as (r & w2 & _ & (_ & _ & _ & Hcanvas) & ->).
    exact Hcanvas.
  - destruct (truthy (trim (manualValue s))) eqn:Htrim.
    2:{ apply truthy_false_iff in Htrim. by rewrite handleManualSubmit_blank. }
    destruct (handleManualSubmit_eq s w Htrim)
      as (r & w3 & _ & (_ & _ & _ & Hcanvas) & ->).
    rewrite addFeedbackToLog_eq in Hcanvas. exact Hcanvas.
Qed.

Lemma request_source_keeps_canvas (src : InputSource) w :
  processingCanvasRef (on_event (request_source src) w).2
  = processingCanvasRef w.
Proof. camera_cases w; destruct src; lazy; reflexivity. Qed.

Lemma camera_settled_keeps_canvas (answer : Outcome MediaStream) w :
  processingCanvasRef (on_event (camera_settled answer) w).2
  = processingCanvasRef w.
Proof. camera_cases w; destruct answer; lazy; reflexivity. Qed.

Lemma video_metadata_loaded_keeps_canvas w :
  processingCanvasRef (video_metadata_loaded w).2 = processingCanvasRef w.
Proof. camera_cases w; lazy; reflexivity. Qed.

Lemma click_inputSource_keeps_canvas (src : InputSource) w :
  processingCanvasRef (on_event (click_inputSource src) w).2
  = processingCanvasRef w.
Proof.
  rewrite click_inputSource_split.
  destruct src; [apply request_source_keeps_canvas|].
  destruct (decide (inputSource (react w) = CAMERA));
    [apply request_source_keeps_canvas|].
  by rewrite camera_settled_keeps_canvas, request_source_keeps_canvas.
Qed.

Lemma choose_file_keeps_canvas (file : option File) w :
  processingCanvasRef (choose_file file w).2 = processingCanvasRef w.
Proof. camera_cases w; destruct file; lazy; reflexivity. Qed.

Lemma dispatch_canvas_ready ev w :
  canvas_ready w → canvas_ready (dispatch ev w).2.
Proof.
  intros Hready.
  destruct (handlers_keep_canvas (react w) w) as (Hcorrect & Hwrong & Hmanual).
  destruct ev; unfold dispatch.
  - destruct (analyze_disabled (react w)); [done|].
    by apply analyzeImage_canvas_ready.
  - destruct (decide (view (react w) = Reviewing)); [|done].
    by apply canvas_ready_kept with w.
  - destruct (decide (view (react w) = Reviewing)); [|done].
    by apply canvas_ready_kept with w.
  - by destruct (decide (view (react w) = Reviewing)).
  - by destruct (decide (view (react w) = ManualEntry)).
  - destruct (decide (view (react w) = ManualEntry)); [|done].
    by apply canvas_ready_kept with w.
  - by destruct (decide (view (react w) = ManualEntry)).
  - destruct (decide (inputSource (react w) = DRIVE)); [|done].
    apply canvas_ready_kept with w; [|done]. apply choose_file_keeps_canvas.
  - apply canvas_ready_kept with w; [|done].
    apply click_inputSource_keeps_canvas.
  - done.
  - by destruct (feedbackHistory (react w)).
  - destruct (timers w) as [|[delay []] rest]; [done|].
    unfold run_callback, window_location_reload. cbn [localStorage upd_timers].
    destruct (initial_feedbackHistory (localStorage w)); [|exact Hready].
    by exists fresh_canvas.
Qed.

(** X30. The scratch canvas is always there: on a page whose scratch canvas
    is mounted and gives a 2D context, as on a fresh page, it still is and
    does after every event of the page, every click on a source button,
    every answer to a request for the camera and every reload; so
    [getProcessedCanvas] never gives up for want of a canvas or a
    context. *)
Theorem scratch_canvas_always_ready (events : list CameraEvent) w (s : AppState) :
  canvas_ready w →
  let w' := camera_run events w in
  canvas_ready w' ∧
  ((getProcessedCanvas s w').1 = Return None ↔
   (select_source s w').1.1 = None ∨ (select_source s w').1.2 = int 0
   ∨ (select_source s w').2 = int 0).
Proof.
  intros Hready w'.
  assert (canvas_ready w') as Hready'.
  { subst w'. revert w Hready. unfold camera_run.
    induction events as [|ev events IH]; intros w Hready; [done|].
    cbn [foldl]. apply IH. destruct ev; unfold camera_step.
    - apply canvas_ready_kept with w; [|done].
      apply request_source_keeps_canvas.
    - apply canvas_ready_kept with w; [|done].
      apply camera_settled_keeps_canvas.
    - apply canvas_ready_kept with w; [|done].
      apply video_metadata_loaded_keeps_canvas.
    - by apply dispatch_canvas_ready. }
  split; [done|]. destruct Hready' as (c & Hc & Hctx).
  destruct (select_source s w') as [[source sw] sh] eqn:Hsel.
  rewrite (getProcessedCanvas_unavailable s w' source sw sh Hsel). cbn [fst snd].
  split.
  - intros [Hnone|[(c' & Hc' & Hctx')|Hsource]]; [congruence| |done].
    rewrite Hc in Hc'. injection Hc' as <-. congruence.
  - intros Hsource. by right; right.
Qed.

End PageTheorems.

Lemma displayed_candidate_exists_witness :
  let w' := @run_events answering_generator visit photo_world in
  predictionIndex (react w') = 1 ∧
  is_Some (predictions (react w') !! predictionIndex (react w')).
Proof.
  cbv zeta.
  destruct (@displayed_candidate_exists answering_generator visit photo_world)
    as [_ Hsome]; [by left|].
  split; [reflexivity|]. apply Hsome. vm_compute. discriminate.
Defined.

Lemma feedback_log_bounded_witness :
  history_ok (@run_events answering_generator
                (visit ++ [ManualTyped "otter"; AddToMemoryClicked;
                           ManualTyped "otter"; ManualSubmitted; TimerFired])
                photo_world).
Proof.
  apply (@feedback_log_bounded answering_generator).
  split; [simpl; lia|]. intros h Hh. vm_compute in Hh. discriminate.
Defined.

Lemma two_rejections_open_the_form_witness :
  let w' := @run_events answering_generator (replicate 3 RejectClicked)
              (review_world cat_dog_fish 0) in
  view (react w') = ManualEntry ∧ predictionIndex (react w') = 1.
Proof.
  cbv zeta.
  destruct (@two_rejections_open_the_form answering_generator
              (review_world cat_dog_fish 0) 3 eq_refl)
    as (_ & Hview & _ & _); [lia|].
  split; [exact Hview | reflexivity].
Defined.

Lemma cancel_undoes_opening_the_form_witness :
  @run_events answering_generator [RejectClicked; CancelClicked]
    (review_world book 0) = review_world book 0.
Proof.
  destruct (@cancel_undoes_opening_the_form answering_generator
              (review_world book 0) eq_refl) as (_ & Hreject & _).
  apply Hreject. reflexivity.
Defined.


Lemma asking_for_the_camera_witness :
  let w1 := @camera_step exhausted_generator (SourceRequested CAMERA)
              photo_world in
  let w2 := @camera_step exhausted_generator (CameraSettled no_camera) w1 in
  inputSource (react w1) = CAMERA ∧ analyze_disabled (react w1) = true ∧
  inputSource (react w2) = DRIVE ∧
  error (react w2) = Some "Camera access denied.".
Proof.
  cbv zeta.
  destruct (@asking_for_the_camera exhausted_generator photo_world no_camera
              eq_refl)
    as ((Hcamera & _ & _ & _ & _ & Hdisabled) & _ & Hrefused & _).
  destruct Hrefused as (Hdrive & _ & _ & _ & Herror & _).
  split; [exact Hcamera|]. split; [by apply Hdisabled|].
  split; [exact Hdrive | exact Herror].
Defined.

Lemma leaving_the_camera_witness :
  let w := (@dispatch answering_generator (SourceClicked CAMERA) photo_world).2 in
  streamRef w = Some {| stream_width := 640; stream_height := 480 |} ∧
  streamRef (@dispatch answering_generator (SourceClicked DRIVE) w).2 = None.
Proof.
  cbv zeta. split; [reflexivity|].
  by destruct (@leaving_the_camera answering_generator
                 (@dispatch answering_generator (SourceClicked CAMERA)
                    photo_world).2 eq_refl)
    as (_ & Hstream & _).
Defined.

(** ** The model loader *)

Lemma list_ascii_of_string_append (s1 s2 : string) :
  list_ascii_of_string (s1 +:+ s2)
  = list_ascii_of_string s1 ++ list_ascii_of_string s2.
Proof.
  induction s1 as [|c s1 IH]; [done|].
  rewrite append_cons. simpl. by rewrite IH.
Qed.

Lemma endsWith_append (s suffix : string) : endsWith (s +:+ suffix) suffix = true.
Proof.
  unfold endsWith. apply bool_decide_eq_true.
  rewrite list_ascii_of_string_append. by apply suffix_app_r.
Qed.

Lemma formatted_url_endsWith (url : string) :
  endsWith (formatted_url url) "/" = true.
Proof.
  unfold formatted_url. destruct (endsWith url "/") eqn:Hends; [done|].
  apply endsWith_append.
Qed.

Lemma formatted_url_idempotent (url : string) :
  formatted_url (formatted_url url) = formatted_url url.
Proof.
  unfold formatted_url at 1. by rewrite formatted_url_endsWith.
Qed.

Section ModelLoader.
Context `{ModelHost}.

Lemma loadModel_eq (url : string) (w : World) :
  let u := formatted_url url in
  loadModel url w
  = match tmImage_load (u +:+ "model.json") (u +:+ "metadata.json") with
    | Return _ =>
        (Return tt,
         upd_react (with_status READY
                      (with_error None (with_status LOADING_MODEL (react w))))
           (upd_localStorage (<[model_url_key := Str u]> (localStorage w))
              (upd_modelRef true w)))
    | Throw err =>
        (Return tt,
         upd_react (with_status ERROR
                      (with_error (Some load_error)
                         (with_status LOADING_MODEL (react w))))
           (upd_console
              (console w ++ [console_error "Model Loading Error:" err]) w))
    end.
Proof.
  intros u. subst u.
  unfold loadModel, setStatus, setError, localStorage_setItem.
  unfold_async. cbv zeta.
  destruct w as [[st pr er ins il src ti ip sf ica pi imi mv fg fr fh] ].
  by destruct tmImage_load.
Qed.

(** X28. [loadModel] never throws.  The model is asked for under the
    address with a slash at its end, which is added when the address has
    none.  If the host serves it, the page is
    READY with no error, the model is there, and the normalised address is
    stored under [tm_model_url].  If not, the page is in ERROR with the
    fixed message, the failure is logged on the console, and neither the
    stored address nor a model loaded before is touched.  The session and
    the feedback log are as before either way. *)
Theorem loadModel_never_throws (url : string) (w : World) :
  let u := formatted_url url in
  ∃ w',
    loadModel url w = (Return tt, w') ∧
    session (react w') = session (react w) ∧
    feedbackHistory (react w') = feedbackHistory (react w) ∧
    timers w' = timers w ∧
    match tmImage_load (u +:+ "model.json") (u +:+ "metadata.json") with
    | Return _ =>
        status (react w') = READY ∧ error (react w') = None ∧
        modelRef w' = true ∧
        localStorage w' = <[model_url_key := Str u]> (localStorage w) ∧
        console w' = console w
    | Throw err =>
        status (react w') = ERROR ∧ error (react w') = Some load_error ∧
        modelRef w' = modelRef w ∧ localStorage w' = localStorage w ∧
        console w' = console w ++ [console_error "Model Loading Error:" err]
    end.
Proof.
  intros u. rewrite loadModel_eq. fold u.
  destruct (tmImage_load (u +:+ "model.json") (u +:+ "metadata.json"));
    eexists; (split; [reflexivity|]); by repeat split.
Qed.

(** X29. The address that a successful load stores can be loaded again:
    it ends with a slash and is left as it is by the normalisation, so that
    [loadModel] on the stored address, in any state of the page, asks the
    host for the same two files, ends READY with the model, and stores the
    same address again. *)
Theorem stored_model_url_loads_again (url : string) (w : World) :
  status (react (loadModel url w).2) = READY →
  ∃ stored,
    localStorage (loadModel url w).2 !! model_url_key = Some (Str stored) ∧
    endsWith stored "/" = true ∧ formatted_url stored = stored ∧
    ∀ w2,
      status (react (loadModel stored w2).2) = READY ∧
      modelRef (loadModel stored w2).2 = true ∧
      localStorage (loadModel stored w2).2 !! model_url_key
      = Some (Str stored).
Proof.
  intros Hready. exists (formatted_url url).
  assert (∃ v, tmImage_load (formatted_url url +:+ "model.json")
                 (formatted_url url +:+ "metadata.json") = Return v)
    as [v Hload].
  { rewrite loadModel_eq in Hready. cbv zeta in Hready.
    destruct tmImage_load; [by eexists|done]. }
  split.
  { rewrite loadModel_eq. cbv zeta. rewrite Hload. cbn.
    by rewrite lookup_insert_eq. }
  split; [apply formatted_url_endsWith|].
  split; [apply formatted_url_idempotent|].
  intros w2. rewrite loadModel_eq. cbv zeta.
  rewrite formatted_url_idempotent, Hload. cbn.
  by rewrite lookup_insert_eq.
Qed.

End ModelLoader.

Lemma stored_model_url_loads_again_witness :
  ∃ stored,
    localStorage (@loadModel one_model_host "https://host/m" blank_world).2
      !! model_url_key = Some (Str stored) ∧
    stored = "https://host/m/".
Proof.
  destruct (@stored_model_url_loads_again one_model_host "https://host/m"
              blank_world eq_refl)
    as (stored & Hstored & _).
  exists stored. split; [exact Hstored|].
  assert (Some (Str "https://host/m/") = Some (Str stored)) as [= <-]
    by exact Hstored.
  reflexivity.
Defined.

Lemma scratch_canvas_always_ready_witness :
  canvas_ready
    (@camera_run answering_generator
       [PageEvent (FileChosen (Some photo_file)); PageEvent AnalyzeClicked;
        SourceRequested CAMERA; CameraSettled no_camera; PageEvent TimerFired]
       photo_world).
Proof.
  apply (@scratch_canvas_always_ready answering_generator
           [PageEvent (FileChosen (Some photo_file)); PageEvent AnalyzeClicked;
            SourceRequested CAMERA; CameraSettled no_camera;
            PageEvent TimerFired]
           photo_world (react photo_world)).
  by exists fresh_canvas.
Defined.
